(** * Handwritten-PDF OCR service: a shallow embedding and its properties

    The development follows the three server-side files of the application,
    and the parts of the browser side that talk to them:

    - [src/lib/ocr-service.ts]   (class [OCRService])   -> [Module OCRService]
    - [src/lib/pdf-processor.ts] (class [PDFProcessor]) -> [Module PDFProcessor]
    - [src/app/api/ocr/route.ts] ([POST], [processOCR]) -> [Module Route]
    - [src/components/FileUpload.tsx] ([validateFile]),
      [src/app/page.tsx] (the reader of the event stream),
      [src/components/TextViewer.tsx] ([getConfidenceColor]) -> [Module Client]

    JavaScript values are modelled as the code has them: a string is its
    sequence of UTF-16 code units, a number is an IEEE-754 binary64 float
    (Rocq's primitive floats; page numbers, lengths and rounded
    percentages, which are integers, are in [Z] or [nat]), a [Buffer] is a
    list of bytes.  Code that can
    throw returns a [Completion]; code that writes to the response stream or
    calls an external collaborator (the rasterizer, the recognition API)
    runs in a writer monad [M] whose log lists these effects in the order
    the program performs them.  The external collaborators themselves are
    an environment [Env] of arbitrary outcomes. *)

From Stdlib.Strings Require Import String Ascii Byte.
From Stdlib Require Import ZArith NArith List Bool Lia.
From Stdlib Require Import Sorted Permutation DecimalString.
From Stdlib Require Import PrimFloat FloatOps SpecFloat Uint63.
Import ListNotations.

Set Warnings "-inexact-float,-register-all".
Local Open Scope Z_scope.

(* ================================================================= *)
(** ** JavaScript strings *)

Module JS.

(** A string value: its UTF-16 code units. *)
Definition jsstring := list N.

(** A string literal of the source (all literals used are ASCII). *)
Definition lit (s : string) : jsstring :=
  map N_of_ascii (list_ascii_of_string s).

Definition str_length (s : jsstring) : Z := Z.of_nat (length s).

(** [s.startsWith(p)] *)
Fixpoint startsWith (s p : jsstring) {struct p} : bool :=
  match p, s with
  | [], _ => true
  | _ :: _, [] => false
  | c :: p', d :: s' => N.eqb c d && startsWith s' p'
  end.

(** [s.includes(p)] *)
Fixpoint includes (s p : jsstring) : bool :=
  startsWith s p ||
  match s with
  | [] => false
  | _ :: s' => includes s' p
  end.

(** [s.split(sep)] for a one-character separator. *)
Fixpoint split (sep : N) (s : jsstring) : list jsstring :=
  match s with
  | [] => [[]]
  | c :: s' =>
      if N.eqb c sep then [] :: split sep s'
      else match split sep s' with
           | h :: t => (c :: h) :: t
           | [] => [[c]]
           end
  end.

(** [xs.join(sep)] on an array of strings. *)
Fixpoint join (sep : jsstring) (xs : list jsstring) : jsstring :=
  match xs with
  | [] => []
  | [x] => x
  | x :: rest => x ++ sep ++ join sep rest
  end.

(** White space and line terminators, as [String.prototype.trim] strips
    them. *)
Definition is_space (c : N) : bool :=
  existsb (N.eqb c)
    [9; 10; 11; 12; 13; 32; 160; 5760; 8232; 8233; 8239; 8287; 12288; 65279]%N
  || (N.leb 8192 c && N.leb c 8202).

Fixpoint trimStart (s : jsstring) : jsstring :=
  match s with
  | c :: s' => if is_space c then trimStart s' else s
  | [] => []
  end.

Definition trimEnd (s : jsstring) : jsstring := rev (trimStart (rev s)).

(** [s.trim()] *)
Definition trim (s : jsstring) : jsstring := trimEnd (trimStart s).

(** A line feed, and the one-character string made of it. *)
Definition LF : N := 10%N.
Definition nl : jsstring := [LF].

(** Number-to-string conversion of an integral number (template literals
    [`${n}`]): the decimal numeral. *)
Definition Z_toString (z : Z) : jsstring :=
  lit (NilZero.string_of_int (Z.to_int z)).

(** *** Regular expressions

    The fragment used by the source: character classes, [\b], sequencing
    and greedy [+], matched by backtracking. *)

Inductive regex : Type :=
| RClass (p : N -> bool)
| RBoundary
| RSeq (r1 r2 : regex)
| RPlus (r : regex).

Definition in_range (lo hi c : N) : bool := N.leb lo c && N.leb c hi.

(** [\w] *)
Definition is_word (c : N) : bool :=
  in_range 65 90 c || in_range 97 122 c || in_range 48 57 c || N.eqb c 95.

Definition word_opt (o : option N) : bool :=
  match o with Some c => is_word c | None => false end.

(** [rmatch fuel r prev s k]: match [r] at the front of [s], where [prev] is
    the code unit just before [s] (if any) and [acc] the text matched so
    far (reversed); the continuation [k] receives the state after the
    match and may fail, which backtracks. *)
Fixpoint rmatch {R : Type} (fuel : nat) (r : regex)
  (prev : option N) (acc s : jsstring)
  (k : option N -> jsstring -> jsstring -> option R) : option R :=
  match fuel with
  | O => None
  | S fuel' =>
      match r with
      | RClass p =>
          match s with
          | c :: s' => if p c then k (Some c) (c :: acc) s' else None
          | [] => None
          end
      | RBoundary =>
          if xorb (word_opt prev) (word_opt (hd_error s)) then k prev acc s
          else None
      | RSeq r1 r2 =>
          rmatch fuel' r1 prev acc s
            (fun prev' acc' s' => rmatch fuel' r2 prev' acc' s' k)
      | RPlus r1 =>
          rmatch fuel' r1 prev acc s
            (fun prev' acc' s' =>
               match rmatch fuel' (RPlus r1) prev' acc' s' k with
               | Some x => Some x
               | None => k prev' acc' s'
               end)
      end
  end.

(** One match attempt at the current position: the matched text and what
    follows it. *)
Definition match_here (r : regex) (prev : option N) (s : jsstring)
  : option (jsstring * option N * jsstring) :=
  rmatch (2 * length s + 16) r prev [] s
    (fun prev' acc s' => Some (rev acc, prev', s')).

(** The successive matches of a global ([/g]) regular expression: after a
    match the search resumes where it ended, otherwise one code unit
    further.  (The expressions used never match the empty string.) *)
Fixpoint scan (fuel : nat) (r : regex) (prev : option N) (s : jsstring)
  : list jsstring :=
  match fuel with
  | O => []
  | S fuel' =>
      match match_here r prev s with
      | Some (m, prev', s') =>
          match m with
          | [] => match s with
                  | [] => [m]
                  | c :: t => m :: scan fuel' r (Some c) t
                  end
          | _ :: _ => m :: scan fuel' r prev' s'
          end
      | None =>
          match s with
          | [] => []
          | c :: t => scan fuel' r (Some c) t
          end
      end
  end.

(** [s.match(re)] for a global [re]: the array of matches, or [null]. *)
Definition match_g (s : jsstring) (r : regex) : option (list jsstring) :=
  match scan (S (length s)) r None s with
  | [] => None
  | ms => Some ms
  end.

(** [x?.length] on the result of [match]: [undefined] when [x] is [null]. *)
Definition opt_length {A} (o : option (list A)) : option nat :=
  option_map (@length A) o.

(** Truthiness of a number-or-undefined value. *)
Definition truthy_num (o : option nat) : bool :=
  match o with
  | Some (S _) => true
  | _ => false
  end.

(** *** Numbers *)

Definition of_Z (z : Z) : float :=
  if z <? 0 then PrimFloat.opp (PrimFloat.of_uint63 (Uint63.of_Z (- z)))
  else PrimFloat.of_uint63 (Uint63.of_Z z).

Definition of_nat (n : nat) : float := of_Z (Z.of_nat n).

(** [Math.min(a, b)] and [Math.max(a, b)]. *)
Definition Math_min (a b : float) : float :=
  if (PrimFloat.is_nan a || PrimFloat.is_nan b)%bool then PrimFloat.nan
  else if PrimFloat.ltb a b then a
  else if PrimFloat.ltb b a then b
  else if PrimFloat.get_sign a then a else b.

Definition Math_max (a b : float) : float :=
  if (PrimFloat.is_nan a || PrimFloat.is_nan b)%bool then PrimFloat.nan
  else if PrimFloat.ltb a b then b
  else if PrimFloat.ltb b a then a
  else if PrimFloat.get_sign a then b else a.

(** [Math.round(x)] of a finite number, as the integer it denotes:
    [floor (x + 1/2)], computed exactly on the float's mantissa [m] and
    exponent [e] (x = m * 2^e): for e < 0 it is
    [floor ((2 m + 2^-e) / 2^(1 - e))], a right shift.  (The progress
    values it is applied to are finite; for NaN and the infinities the
    model answers 0.) *)
Definition Math_round (x : float) : Z :=
  match Prim2SF x with
  | S754_finite s m e =>
      let n := if s then Z.neg m else Z.pos m in
      if 0 <=? e then Z.shiftl n e
      else Z.shiftr (2 * n + Z.shiftl 1 (- e)) (- e + 1)
  | _ => 0
  end.

End JS.
Import JS.

(* ================================================================= *)
(** ** Exceptions, buffers and JSON values *)

Module Runtime.

(** A thrown value: an [Error] instance with its [message], or anything
    else ([error instanceof Error] is false). *)
Inductive thrown : Type :=
| ErrorObj (message : jsstring)
| NonError.

(** The outcome of evaluating code that may throw (for an [async]
    function: of awaiting its promise). *)
Inductive Completion (A : Type) : Type :=
| Normal (a : A)
| Throw (e : thrown).
Arguments Normal {A} a.
Arguments Throw {A} e.

Definition cbind {A B} (c : Completion A) (f : A -> Completion B)
  : Completion B :=
  match c with
  | Normal a => f a
  | Throw e => Throw e
  end.

(** [try { c } catch (error) { h error }] *)
Definition try_catch {A} (c : Completion A) (h : thrown -> Completion A)
  : Completion A :=
  match c with
  | Normal a => Normal a
  | Throw e => h e
  end.

(** [error instanceof Error ? error.message : fallback] *)
Definition message_or (fallback : jsstring) (e : thrown) : jsstring :=
  match e with
  | ErrorObj m => m
  | NonError => fallback
  end.

(** A Node.js [Buffer]. *)
Definition Buffer := list byte.

Definition b64char (n : N) : N :=
  (if n <? 26 then 65 + n
   else if n <? 52 then 97 + (n - 26)
   else if n <? 62 then 48 + (n - 52)
   else if n =? 62 then 43 else 47)%N.

(** [buffer.toString('base64')] *)
Fixpoint toBase64 (bs : Buffer) : jsstring :=
  match bs with
  | [] => []
  | [a] =>
      let a := Byte.to_N a in
      [b64char (a / 4); b64char ((a mod 4) * 16); 61; 61]%N
  | [a; b] =>
      let a := Byte.to_N a in
      let b := Byte.to_N b in
      [b64char (a / 4); b64char ((a mod 4) * 16 + b / 16);
       b64char ((b mod 16) * 4); 61]%N
  | a :: b :: c :: rest =>
      let a := Byte.to_N a in
      let b := Byte.to_N b in
      let c := Byte.to_N c in
      ([b64char (a / 4); b64char ((a mod 4) * 16 + b / 16);
        b64char ((b mod 16) * 4 + c / 64); b64char (c mod 64)]%N)
      ++ toBase64 rest
  end.

(** [buffer.toString()]: UTF-8 decoding, every maximal ill-formed prefix
    replaced by U+FFFD, code points above U+FFFF as a surrogate pair. *)
Definition continuation (lo hi b : N) : bool := N.leb lo b && N.leb b hi.

Definition code_units (cp : N) : jsstring :=
  (if cp <? 65536 then [cp]
   else [55296 + (cp - 65536) / 1024; 56320 + (cp - 65536) mod 1024])%N.

Fixpoint utf8_decode (bs : Buffer) : jsstring :=
  match bs with
  | [] => []
  | x0 :: rest =>
      let b0 := Byte.to_N x0 in
      if (b0 <? 128)%N then b0 :: utf8_decode rest
      else if continuation 194 223 b0 then
        match rest with
        | x1 :: rest1 =>
            let b1 := Byte.to_N x1 in
            if continuation 128 191 b1
            then ((b0 - 192) * 64 + (b1 - 128))%N :: utf8_decode rest1
            else 65533%N :: utf8_decode rest
        | [] => [65533%N]
        end
      else if continuation 224 239 b0 then
        let lo := if (b0 =? 224)%N then 160%N else 128%N in
        let hi := if (b0 =? 237)%N then 159%N else 191%N in
        match rest with
        | x1 :: rest1 =>
            let b1 := Byte.to_N x1 in
            if continuation lo hi b1 then
              match rest1 with
              | x2 :: rest2 =>
                  let b2 := Byte.to_N x2 in
                  if continuation 128 191 b2
                  then ((b0 - 224) * 4096 + (b1 - 128) * 64 + (b2 - 128))%N
                       :: utf8_decode rest2
                  else 65533%N :: utf8_decode rest1
              | [] => [65533%N]
              end
            else 65533%N :: utf8_decode rest
        | [] => [65533%N]
        end
      else if continuation 240 244 b0 then
        let lo := if (b0 =? 240)%N then 144%N else 128%N in
        let hi := if (b0 =? 244)%N then 143%N else 191%N in
        match rest with
        | x1 :: rest1 =>
            let b1 := Byte.to_N x1 in
            if continuation lo hi b1 then
              match rest1 with
              | x2 :: rest2 =>
                  let b2 := Byte.to_N x2 in
                  if continuation 128 191 b2 then
                    match rest2 with
                    | x3 :: rest3 =>
                        let b3 := Byte.to_N x3 in
                        if continuation 128 191 b3
                        then code_units
                               ((b0 - 240) * 262144 + (b1 - 128) * 4096
                                + (b2 - 128) * 64 + (b3 - 128))%N
                             ++ utf8_decode rest3
                        else 65533%N :: utf8_decode rest2
                    | [] => [65533%N]
                    end
                  else 65533%N :: utf8_decode rest1
              | [] => [65533%N]
              end
            else 65533%N :: utf8_decode rest
        | [] => [65533%N]
        end
      else 65533%N :: utf8_decode rest
  end.

(** A parsed JSON document ([response.json()]). *)
Inductive json : Type :=
| JNull
| JBool (b : bool)
| JNum (x : float)
| JStr (s : jsstring)
| JArr (xs : list json)
| JObj (fields : list (jsstring * json)).

Definition jsstring_eqb (a b : jsstring) : bool :=
  (length a =? length b)%nat && startsWith a b.

Fixpoint lookup (name : jsstring) (fields : list (jsstring * json))
  : option json :=
  match fields with
  | [] => None
  | (k, v) :: rest => if jsstring_eqb k name then Some v else lookup name rest
  end.

(** The message of the [TypeError] raised by reading a property of
    [null], and by calling a property that is not a function (V8's
    wording, the engine of Node.js). *)
Definition null_property_message (name : jsstring) : jsstring :=
  lit "Cannot read properties of null (reading '" ++ name ++ lit "')".

Definition not_a_function_message (what : jsstring) : jsstring :=
  what ++ lit " is not a function".

(** [v.name]: [None] is [undefined].  None of the names read here is
    inherited from a prototype. *)
Definition get_name (v : json) (name : jsstring) : Completion (option json) :=
  match v with
  | JNull => Throw (ErrorObj (null_property_message name))
  | JObj fields => Normal (lookup name fields)
  | _ => Normal None
  end.

(** [v[i]] *)
Definition get_index (v : json) (i : nat) : Completion (option json) :=
  match v with
  | JNull => Throw (ErrorObj (null_property_message (Z_toString (Z.of_nat i))))
  | JObj fields => Normal (lookup (Z_toString (Z.of_nat i)) fields)
  | JArr xs => Normal (nth_error xs i)
  | JStr s => Normal (option_map (fun c => JStr [c]) (nth_error s i))
  | _ => Normal None
  end.

(** Optional chaining, [v?.name] and [v?.[i]]: [undefined] when [v] is
    [null] or [undefined]. *)
Definition opt_name (v : option json) (name : jsstring) : option json :=
  match v with
  | None | Some JNull => None
  | Some v' => match get_name v' name with Normal r => r | Throw _ => None end
  end.

Definition opt_index (v : option json) (i : nat) : option json :=
  match v with
  | None | Some JNull => None
  | Some v' => match get_index v' i with Normal r => r | Throw _ => None end
  end.

Definition falsy (v : option json) : bool :=
  match v with
  | None | Some JNull | Some (JBool false) | Some (JStr []) => true
  | Some (JNum x) => PrimFloat.is_zero x || PrimFloat.is_nan x
  | _ => false
  end.

(** [v || fallback] *)
Definition or_else (v : option json) (fallback : json) : json :=
  match v with
  | Some v' => if falsy v then fallback else v'
  | None => fallback
  end.

End Runtime.
Import Runtime.

(* ================================================================= *)
(** ** Data model, progress channel and external collaborators *)

Module Model.

(** [interface OCRPage] *)
Record OCRPage : Type := mkOCRPage {
  pageNumber : Z;
  extractedText : jsstring;
  confidence : float
}.

(** [interface OCRResult], its [metadata] flattened. *)
Record OCRResult : Type := mkOCRResult {
  id : jsstring;
  pages : list OCRPage;
  fullText : jsstring;
  totalPages : nat;
  processingTime : Z;
  averageConfidence : float
}.

(** [interface ProcessedPage] (in a name space of its own: its first
    field is called [pageNumber], like [OCRPage]'s). *)
Module PDF.
Record ProcessedPage : Type := mkProcessedPage {
  pageNumber : Z;
  buffer : Buffer
}.
End PDF.

(** The events [route.ts] writes on the response stream, one
    [data: {...}] frame each. *)
Inductive Event : Type :=
| EvProgress (progress : Z) (step : jsstring)
| EvComplete (result : OCRResult)
| EvError (message : jsstring).

(** What the program does to the outside, in program order: frames
    written on the stream, the stream being closed, a page handed to the
    rasterizer, a request sent to the recognition API. *)
Inductive Effect : Type :=
| Emit (e : Event)
| Close
| ConvertCall (page : Z)
| FetchCall (page : Z).

(** Effectful, fallible code: its completion and the effects it
    performed. *)
Definition M (A : Type) : Type := Completion A * list Effect.

Definition ret {A} (a : A) : M A := (Normal a, []).

Definition bind {A B} (m : M A) (f : A -> M B) : M B :=
  match m with
  | (Normal a, l1) => let (r, l2) := f a in (r, l1 ++ l2)
  | (Throw e, l1) => (Throw e, l1)
  end.

Definition tell (l : list Effect) : M unit := (Normal tt, l).

Definition throw {A} (e : thrown) : M A := (Throw e, []).

Definition lift {A} (c : Completion A) : M A := (c, []).

(** [try { m } catch (error) { h error }] *)
Definition catch {A} (m : M A) (h : thrown -> M A) : M A :=
  match m with
  | (Normal a, l1) => (Normal a, l1)
  | (Throw e, l1) => let (r, l2) := h e in (r, l1 ++ l2)
  end.

(** A progress callback: the effects of one call (the callbacks passed by
    [route.ts] enqueue one frame and return). *)
Definition Callback : Type := float -> jsstring -> list Effect.

(** [onProgress?.(progress, step)] *)
Definition notify (onProgress : option Callback) (progress : float)
  (step : jsstring) : M unit :=
  match onProgress with
  | Some cb => tell (cb progress step)
  | None => ret tt
  end.

(** What one call of pdf2pic's [convert(page, { responseType: 'buffer' })]
    yields: a rejection, or a result whose [buffer] may be missing. *)
Inductive ConvertOutcome : Type :=
| ConvRejected (e : thrown)
| ConvResolved (buf : option Buffer).

(** What one [fetch] of the recognition endpoint yields: a rejection, or a
    response with its status line and what [response.json()] gives. *)
Inductive FetchOutcome : Type :=
| FetchRejected (e : thrown)
| FetchResolved (status : Z) (statusText : jsstring) (body : Completion json).

(** The world outside the program.  Every page of a document is converted
    at most twice: once while counting pages ([firstConversion]) and once by
    [processPage] ([secondConversion]); the two outcomes are independent.
    [convertLatency] and [fetchLatency] order the completions of calls
    that run concurrently. *)
Record Env : Type := mkEnv {
  firstConversion : Buffer -> Z -> ConvertOutcome;
  secondConversion : Buffer -> Z -> ConvertOutcome;
  sharp : Buffer -> Completion Buffer;
  convertLatency : Z -> Z;
  recognition : nat -> jsstring -> Z -> FetchOutcome;
  fetchLatency : nat -> Z;
  startTime : Z;
  endTime : Z;
  randomSuffix : jsstring
}.

(** *** Arrays *)

(** [xs.slice(i, j)] for in-range [i <= j]. *)
Definition slice {A} (i j : nat) (xs : list A) : list A :=
  firstn (j - i) (skipn i xs).

Fixpoint insert_by {A} (key : A -> Z) (x : A) (l : list A) : list A :=
  match l with
  | [] => [x]
  | y :: l' => if key x <=? key y then x :: l else y :: insert_by key x l'
  end.

(** [xs.sort((a, b) => key(a) - key(b))]: the stable sort by [key]. *)
Definition sort_by {A} (key : A -> Z) (l : list A) : list A :=
  fold_right (insert_by key) [] l.

(** *** Promise.all

    One slot per promise is allocated while the promises are enumerated;
    [values[index] = value] as each promise fulfils; the first rejection
    rejects the whole. *)
Fixpoint set_slot {A} (slots : list (option A)) (k : nat) (v : A)
  : list (option A) :=
  match slots, k with
  | [], _ => []
  | _ :: rest, O => Some v :: rest
  | s :: rest, S k' => s :: set_slot rest k' v
  end.

Fixpoint settle {A} (promises : list (Completion A)) (order : list nat)
  (slots : list (option A)) : Completion (list (option A)) :=
  match order with
  | [] => Normal slots
  | k :: order' =>
      match nth_error promises k with
      | Some (Normal v) => settle promises order' (set_slot slots k v)
      | Some (Throw e) => Throw e
      | None => settle promises order' slots
      end
  end.

Definition filled {A} (slots : list (option A)) : list A :=
  flat_map (fun s => match s with Some v => [v] | None => [] end) slots.

(** The order in which [n] concurrent calls complete, the [k]-th taking
    [latency k]. *)
Definition completion_order (latency : nat -> Z) (n : nat) : list nat :=
  sort_by latency (seq 0 n).

Definition Promise_all {A} (latency : nat -> Z)
  (promises : list (Completion A)) : Completion (list A) :=
  cbind (settle promises (completion_order latency (length promises))
           (repeat None (length promises)))
        (fun slots => Normal (filled slots)).

End Model.
Import Model.

Arguments bind {A B} m f : simpl never.
Arguments catch {A} m h : simpl never.
Arguments notify onProgress progress step : simpl never.

Declare Scope m_scope.
Delimit Scope m_scope with M.
Notation "x <- m ;; k" := (bind m (fun x => k))
  (at level 61, m at next level, right associativity) : m_scope.
Notation "m ;;; k" := (bind m (fun _ => k))
  (at level 61, right associativity) : m_scope.

(* ================================================================= *)
(** ** [src/lib/ocr-service.ts] *)

Module OCRService.

Local Open Scope float_scope.

(** [/[.!?]/g] *)
Definition punctuationRe : regex :=
  RClass (fun c => N.eqb c 46 || N.eqb c 33 || N.eqb c 63).

(** [/\b[A-Z][a-z]+\b/g] *)
Definition capitalizedRe : regex :=
  RSeq RBoundary
    (RSeq (RClass (in_range 65 90))
       (RSeq (RPlus (RClass (in_range 97 122))) RBoundary)).

(** [calculateConfidence(text)], statement by statement.  The two
    conditions on [match] are parsed by JavaScript as
    [text.match(re)?.length || (0 > n)]. *)
Definition calculateConfidence (text : jsstring) : float :=
  let confidence := 0.7 in
  let confidence :=
    if (str_length text >? 50)%Z then confidence + 0.1 else confidence in
  let confidence :=
    if truthy_num (opt_length (match_g text punctuationRe)) || (0 >? 0)%Z
    then confidence + 0.05 else confidence in
  let confidence :=
    if truthy_num (opt_length (match_g text capitalizedRe)) || (0 >? 3)%Z
    then confidence + 0.05 else confidence in
  let confidence :=
    if (Z.of_nat (length (split LF text)) >? 2)%Z
    then confidence + 0.05 else confidence in
  let confidence :=
    if includes text (lit "[Error") then 0 else confidence in
  let confidence :=
    if includes text (lit "[unclear]") || includes text (lit "[?]")
    then confidence - 0.2 else confidence in
  let confidence :=
    if (str_length text <? 20)%Z then confidence - 0.2 else confidence in
  let confidence :=
    if includes text (lit "***") || includes text (lit "???")
    then confidence - 0.1 else confidence in
  Math_max 0 (Math_min 1 confidence).

(** The heuristic as the specification words it (section 4.1): the same
    steps in the same order, the capitalized-word bonus given when more
    than 3 such tokens appear. *)
Definition count_matches (text : jsstring) (r : regex) : nat :=
  match match_g text r with
  | Some ms => length ms
  | None => O
  end.

Definition referenceConfidence (text : jsstring) : float :=
  let score := 0.7 in
  let score := if (str_length text >? 50)%Z then score + 0.1 else score in
  let score :=
    if (0 <? count_matches text punctuationRe)%nat
    then score + 0.05 else score in
  let score :=
    if (3 <? count_matches text capitalizedRe)%nat
    then score + 0.05 else score in
  let score :=
    if (Z.of_nat (length (split LF text)) >? 2)%Z
    then score + 0.05 else score in
  let score := if includes text (lit "[Error") then 0 else score in
  let score :=
    if includes text (lit "[unclear]") || includes text (lit "[?]")
    then score - 0.2 else score in
  let score := if (str_length text <? 20)%Z then score - 0.2 else score in
  let score :=
    if includes text (lit "***") || includes text (lit "???")
    then score - 0.1 else score in
  Math_max 0 (Math_min 1 score).

(** [calculateConfidence] on whatever the response carried: the method
    call [text.match] raises a [TypeError] on anything but a string. *)
Definition calculateConfidence_any (v : json) : Completion float :=
  match v with
  | JStr text => Normal (calculateConfidence text)
  | _ => Throw (ErrorObj (not_a_function_message (lit "text.match")))
  end.

Definition trim_any (v : json) : Completion jsstring :=
  match v with
  | JStr text => Normal (trim text)
  | _ => Throw (ErrorObj (not_a_function_message (lit "extractedText.trim")))
  end.

Definition response_ok (status : Z) : bool :=
  ((200 <=? status) && (status <=? 299))%Z.

(** The body of the [try] block of [processImage]. *)
Definition recognize (outcome : FetchOutcome) (pageNumber : Z)
  : Completion OCRPage :=
  match outcome with
  | FetchRejected e => Throw e
  | FetchResolved status statusText body =>
      if negb (response_ok status) then
        Throw (ErrorObj (lit "OCR API request failed: " ++ Z_toString status
                         ++ lit " " ++ statusText))
      else
        cbind body (fun data =>
        cbind (get_name data (lit "choices")) (fun choices =>
        let extractedText :=
          or_else (opt_name (opt_name (opt_index choices 0) (lit "message"))
                     (lit "content"))
                  (JStr []) in
        cbind (calculateConfidence_any extractedText) (fun confidence =>
        cbind (trim_any extractedText) (fun trimmed =>
        Normal (mkOCRPage pageNumber trimmed confidence)))))
  end.

(** [async processImage(imageBase64, pageNumber)]; [api] is what the
    endpoint answers to this request. *)
Definition processImage (api : jsstring -> Z -> FetchOutcome)
  (imageBase64 : jsstring) (pageNumber : Z) : M OCRPage :=
  (try_catch (recognize (api imageBase64 pageNumber) pageNumber)
     (fun error =>
        Normal (mkOCRPage pageNumber
                  (lit "[Error processing page " ++ Z_toString pageNumber
                   ++ lit ": " ++ message_or (lit "Unknown error") error
                   ++ lit "]")
                  0)),
   [FetchCall pageNumber]).

Definition batchSize : nat := 3.

(** ['\n\n--- Page Break ---\n\n'] *)
Definition pageBreak : jsstring :=
  nl ++ nl ++ lit "--- Page Break ---" ++ nl ++ nl.

(** The callback of [batch.map] on the batch starting at index [i],
    applied from left to right; each call runs up to its first [await]
    (the progress call, then the request), and leaves a promise. *)
Fixpoint startBatch (env : Env) (onProgress : option Callback)
  (totalPages i k : nat) (batch : list PDF.ProcessedPage)
  : list Effect * list (Completion OCRPage) :=
  match batch with
  | [] => ([], [])
  | p :: rest =>
      let '(_, e1) :=
        notify onProgress
          (5 + (of_nat i / of_nat totalPages) * 80)
          (lit "Processing page " ++ Z_toString (PDF.pageNumber p)
           ++ lit " of " ++ Z_toString (Z.of_nat totalPages)) in
      let base64 := toBase64 (PDF.buffer p) in
      let '(promise, e2) :=
        processImage (recognition env (i + k)%nat) base64
          (PDF.pageNumber p) in
      let '(effects, promises) :=
        startBatch env onProgress totalPages i (S k) rest in
      (e1 ++ e2 ++ effects, promise :: promises)
  end.

(** The [for (let i = 0; i < imageBuffers.length; i += batchSize)] loop;
    [fuel] bounds the number of iterations.  (The one-second pause
    between two batches has no effect but the passing of time.) *)
Fixpoint batchLoop (fuel : nat) (env : Env) (onProgress : option Callback)
  (imageBuffers : list PDF.ProcessedPage) (i : nat) (pages : list OCRPage)
  : M (list OCRPage) :=
  match fuel with
  | O => ret pages
  | S fuel' =>
      if (i <? length imageBuffers)%nat then
        let batch := slice i (i + batchSize) imageBuffers in
        let '(effects, batchPromises) :=
          startBatch env onProgress (length imageBuffers) i 0 batch in
        (tell effects ;;;
         batchResults <-
           lift (Promise_all (fun k => fetchLatency env (i + k)%nat)
                   batchPromises) ;;
         batchLoop fuel' env onProgress imageBuffers (i + batchSize)%nat
           (pages ++ batchResults))%M
      else ret pages
  end.

(** [async processPages(imageBuffers, onProgress)] *)
Definition processPages (env : Env) (imageBuffers : list PDF.ProcessedPage)
  (onProgress : option Callback) : M OCRResult :=
  (let processingId :=
     lit "ocr_" ++ Z_toString (startTime env) ++ lit "_" ++ randomSuffix env in
   notify onProgress 5 (lit "Starting OCR processing") ;;;
   pages <- batchLoop (length imageBuffers) env onProgress imageBuffers 0 [] ;;
   notify onProgress 90 (lit "Finalizing text extraction") ;;;
   let pages := sort_by pageNumber pages in
   let fullText :=
     join pageBreak (map extractedText pages) in
   let processingTime := (endTime env - startTime env)%Z in
   let averageConfidence :=
     fold_left (fun sum page => sum + confidence page) pages 0
     / of_nat (length pages) in
   notify onProgress 100 (lit "Processing complete") ;;;
   ret (mkOCRResult processingId pages fullText (length pages)
          processingTime averageConfidence))%M.

End OCRService.

(* ================================================================= *)
(** ** [src/lib/pdf-processor.ts] *)

Module PDFProcessor.

Local Open Scope float_scope.

(** [private async optimizeImageForOCR(inputBuffer)]: the sharp pipeline,
    or the original buffer when it fails. *)
Definition optimizeImageForOCR (env : Env) (inputBuffer : Buffer)
  : Completion Buffer :=
  try_catch (sharp env inputBuffer) (fun _ => Normal inputBuffer).

(** [private async processPage(convert, pageNumber)] *)
Definition processPage (env : Env) (pdfBuffer : Buffer) (pageNumber : Z)
  : M (option PDF.ProcessedPage) :=
  (try_catch
     (match secondConversion env pdfBuffer pageNumber with
      | ConvRejected e => Throw e
      | ConvResolved None => Normal None
      | ConvResolved (Some buf) =>
          cbind (optimizeImageForOCR env buf) (fun optimizedBuffer =>
          Normal (Some (PDF.mkProcessedPage pageNumber optimizedBuffer)))
      end)
     (fun _ => Normal None),
   [ConvertCall pageNumber]).

(** The page-counting loop
    [for (let i = 2; i <= 500; i++) { try { await convert(i); totalPages = i } catch { break } }]. *)
Fixpoint countPages (fuel : nat) (env : Env) (pdfBuffer : Buffer)
  (i totalPages : Z) : M Z :=
  match fuel with
  | O => ret totalPages
  | S fuel' =>
      if (i <=? 500)%Z then
        (tell [ConvertCall i] ;;;
         match firstConversion env pdfBuffer i with
         | ConvResolved _ => countPages fuel' env pdfBuffer (i + 1)%Z i
         | ConvRejected _ => ret totalPages
         end)%M
      else ret totalPages
  end.

Definition batchSize : Z := 5.

(** The page numbers [lo, lo + 1, ..., hi - 1] of an inner
    [for (let j = lo; j < hi; j++)]. *)
Definition range (lo hi : Z) : list Z :=
  map (fun k => (lo + Z.of_nat k)%Z) (seq 0 (Z.to_nat (hi - lo))).

(** The inner loop: [processPage] is started on every page of the batch,
    in order. *)
Fixpoint startBatch (env : Env) (pdfBuffer : Buffer) (js : list Z)
  : list Effect * list (Completion (option PDF.ProcessedPage)) :=
  match js with
  | [] => ([], [])
  | j :: rest =>
      let '(promise, e1) := processPage env pdfBuffer j in
      let '(effects, promises) := startBatch env pdfBuffer rest in
      (e1 ++ effects, promise :: promises)
  end.

(** [batchResults.filter(result => result !== null)] *)
Definition validResults (batchResults : list (option PDF.ProcessedPage))
  : list PDF.ProcessedPage :=
  flat_map (fun r => match r with Some p => [p] | None => [] end)
           batchResults.

(** The [for (let i = 1; i <= totalPages; i += batchSize)] loop; [fuel]
    bounds the number of iterations. *)
Fixpoint batchLoop (fuel : nat) (env : Env) (pdfBuffer : Buffer)
  (onProgress : option Callback) (totalPages i : Z)
  (processedPages : list PDF.ProcessedPage) : M (list PDF.ProcessedPage) :=
  match fuel with
  | O => ret processedPages
  | S fuel' =>
      if (i <=? totalPages)%Z then
        let '(effects, batchPromises) :=
          startBatch env pdfBuffer
            (range i (Z.min (i + batchSize) (totalPages + 1))) in
        (tell effects ;;;
         batchResults <-
           lift (Promise_all
                   (fun k => convertLatency env (i + Z.of_nat k)%Z)
                   batchPromises) ;;
         let processedPages := processedPages ++ validResults batchResults in
         let progress := 30 + (of_Z i / of_Z totalPages) * 50 in
         notify onProgress progress
           (lit "Processed "
            ++ Z_toString (Z.min (i + batchSize - 1) totalPages)
            ++ lit " of " ++ Z_toString totalPages ++ lit " pages") ;;;
         batchLoop fuel' env pdfBuffer onProgress totalPages
           (i + batchSize)%Z processedPages)%M
      else ret processedPages
  end.

(** [async convertPDFToImages(pdfBuffer, onProgress)] *)
Definition convertPDFToImages (env : Env) (pdfBuffer : Buffer)
  (onProgress : option Callback) : M (list PDF.ProcessedPage) :=
  catch
    (notify onProgress 10 (lit "Analyzing PDF structure") ;;;
     notify onProgress 20 (lit "Converting PDF pages to images") ;;;
     tell [ConvertCall 1] ;;;
     firstPage <-
       match firstConversion env pdfBuffer 1 with
       | ConvRejected e => throw e
       | ConvResolved buf => ret buf
       end ;;
     match firstPage with
     | None => throw (ErrorObj (lit "Failed to convert first page"))
     | Some _ => ret tt
     end ;;;
     totalPages <- countPages 499 env pdfBuffer 2 1 ;;
     notify onProgress 30
       (lit "Converting " ++ Z_toString totalPages ++ lit " pages") ;;;
     processedPages <-
       batchLoop (Z.to_nat totalPages) env pdfBuffer onProgress
         totalPages 1 [] ;;
     notify onProgress 85 (lit "Optimizing images for OCR") ;;;
     ret (sort_by PDF.pageNumber processedPages))%M
    (fun error =>
       throw (ErrorObj (lit "Failed to process PDF: "
                        ++ message_or (lit "Unknown error") error))).

(** The result of [validatePDF]: [{ isValid, error? }]. *)
Record Validation : Type := mkValidation {
  isValid : bool;
  error : option jsstring
}.

(** [validatePDF(buffer)] *)
Definition validatePDF (buffer : Buffer) : Validation :=
  let header := utf8_decode (firstn 8 buffer) in
  if negb (startsWith header (lit "%PDF-")) then
    mkValidation false (Some (lit "Invalid PDF format"))
  else if (Z.of_nat (length buffer) <? 1024)%Z then
    mkValidation false (Some (lit "PDF file too small"))
  else if (Z.of_nat (length buffer) >? 50 * 1024 * 1024)%Z then
    mkValidation false (Some (lit "PDF file too large (max 50MB)"))
  else mkValidation true None.

End PDFProcessor.

(* ================================================================= *)
(** ** [src/app/api/ocr/route.ts] *)

Module Route.

(** The uploaded [File]: its declared media type and its bytes ([size] is
    their number). *)
Record File : Type := mkFile {
  type : jsstring;
  content : Buffer
}.

Definition size (file : File) : Z := Z.of_nat (length (content file)).

(** What [POST] answers: a JSON body [{ error }] with a status, or the
    [text/event-stream] response (status 200) fed by [processOCR]. *)
Inductive Response : Type :=
| JsonResponse (status : Z) (error : jsstring)
| EventStream.

(** The progress callback given to both services:
    [(progress, step) => { writer.write(... Math.round(progress) ...) }]. *)
Definition onProgress : Callback :=
  fun progress step => [Emit (EvProgress (Math_round progress) step)].

(** [async function processOCR(pdfBuffer, writer, encoder)] *)
Definition processOCR (env : Env) (pdfBuffer : Buffer) : M unit :=
  catch
    (tell [Emit (EvProgress 0 (lit "Starting PDF processing"))] ;;;
     pages <-
       PDFProcessor.convertPDFToImages env pdfBuffer (Some onProgress) ;;
     if (length pages =? 0)%nat then
       tell [Emit (EvError (lit "No pages could be processed from the PDF"));
             Close]
     else
       result <- OCRService.processPages env pages (Some onProgress) ;;
       tell [Emit (EvComplete result); Close])%M
    (fun error =>
       tell [Emit (EvError (message_or (lit "Unknown processing error")
                              error));
             Close]).

(** [validation.error || 'Invalid PDF file'] *)
Definition error_or (e : option jsstring) (fallback : jsstring) : jsstring :=
  match e with
  | Some ((_ :: _) as m) => m
  | _ => fallback
  end.

(** [export async function POST(request)]; [formData] is what
    [request.formData()] followed by [data.get('pdf')] gives.  The
    effects are those of the background [processOCR], if it is started. *)
Definition POST (env : Env) (formData : Completion (option File))
  : Response * list Effect :=
  match formData with
  | Throw _ =>
      (JsonResponse 500 (lit "Internal server error during OCR processing"),
       [])
  | Normal None => (JsonResponse 400 (lit "No PDF file provided"), [])
  | Normal (Some file) =>
      if negb (jsstring_eqb (type file) (lit "application/pdf")) then
        (JsonResponse 400 (lit "Only PDF files are supported"), [])
      else
        let maxSize := 50 * 1024 * 1024 in
        if size file >? maxSize then
          (JsonResponse 400 (lit "File size exceeds 50MB limit"), [])
        else
          let pdfBuffer := content file in
          let validation := PDFProcessor.validatePDF pdfBuffer in
          if negb (PDFProcessor.isValid validation) then
            (JsonResponse 400
               (error_or (PDFProcessor.error validation)
                  (lit "Invalid PDF file")),
             [])
          else (EventStream, snd (processOCR env pdfBuffer))
  end.

End Route.

(* ================================================================= *)
(** ** The browser side: [src/components/FileUpload.tsx],
       [src/app/page.tsx], [src/components/TextViewer.tsx] *)

Module Client.

Local Open Scope float_scope.

(** [validateFile(file)] of the upload form: the message it alerts, or
    [null]. *)
Definition validateFile (file : Route.File) : option jsstring :=
  if negb (jsstring_eqb (Route.type file) (lit "application/pdf")) then
    Some (lit "Please select a PDF file")
  else
    let maxSize := (50 * 1024 * 1024)%Z in
    if (Route.size file >? maxSize)%Z then
      Some (lit "File size must be less than 50MB")
    else None.

(** [line.trim().startsWith('data: ')] *)
Definition isDataLine (line : jsstring) : bool :=
  startsWith (trim line) (lit "data: ").

(** One turn of the [while (true)] loop of [handleFileUpload], on the
    text [chunk] the decoder gives for the bytes read:

      buffer += chunk; lines = buffer.split('\n'); buffer = lines.pop() || '';
      for (line of lines) if (line.trim().startsWith('data: ')) ... JSON.parse(line.slice(6)) ...

    The result is the texts handed to [JSON.parse], in order, and the
    buffer kept for the next turn.  ([split] gives at least one string,
    so [pop] gives a string, and ['' || ''] is [''].) *)
Definition readChunk (buffer chunk : jsstring) : list jsstring * jsstring :=
  let buffer := buffer ++ chunk in
  let lines := split LF buffer in
  let buffer := last lines [] in
  let lines := removelast lines in
  (map (skipn 6) (filter isDataLine lines), buffer).

(** The loop over the chunks of the response, until [done]. *)
Fixpoint readStream (buffer : jsstring) (chunks : list jsstring)
  : list jsstring * jsstring :=
  match chunks with
  | [] => ([], buffer)
  | chunk :: rest =>
      let '(parsed, buffer) := readChunk buffer chunk in
      let '(more, final) := readStream buffer rest in
      (parsed ++ more, final)
  end.

(** [getConfidenceColor(confidence)] of the text viewer: the classes of
    the badge. *)
Definition getConfidenceColor (confidence : float) : jsstring :=
  if PrimFloat.leb 0.9 confidence then lit "bg-green-100 text-green-800"
  else if PrimFloat.leb 0.7 confidence then lit "bg-yellow-100 text-yellow-800"
  else lit "bg-red-100 text-red-800".

End Client.

(* ================================================================= *)
(** ** Vocabulary of the properties *)

Module Props.

(** The frames written on the stream, in order. *)
Definition events (log : list Effect) : list Event :=
  flat_map (fun x => match x with Emit e => [e] | _ => [] end) log.

(** The percentages of the progress frames among [evs], in order. *)
Definition percents (evs : list Event) : list Z :=
  flat_map (fun e => match e with EvProgress p _ => [p] | _ => [] end) evs.

Definition is_progress (e : Event) : bool :=
  match e with EvProgress _ _ => true | _ => false end.

Definition is_terminal (e : Event) : bool := negb (is_progress e).

(** Neither a terminal frame nor the closing of the stream. *)
Definition quiet (x : Effect) : bool :=
  match x with
  | Emit e => is_progress e
  | Close => false
  | _ => true
  end.



Definition ascending (l : list Z) : Prop := StronglySorted Z.le l.
Definition strictly_ascending (l : list Z) : Prop := StronglySorted Z.lt l.

(** A recognition call that fails: the request is rejected, the status is
    not a success, or the body cannot be read as JSON. *)
Definition call_fails (o : FetchOutcome) : bool :=
  match o with
  | FetchRejected _ => true
  | FetchResolved status _ body =>
      negb (OCRService.response_ok status)
      || match body with Throw _ => true | Normal _ => false end
  end.

(** The message of the error such a call raises. *)
Definition failure_message (o : FetchOutcome) : jsstring :=
  match o with
  | FetchRejected e => message_or (lit "Unknown error") e
  | FetchResolved status statusText body =>
      if negb (OCRService.response_ok status) then
        lit "OCR API request failed: " ++ Z_toString status
        ++ lit " " ++ statusText
      else match body with
           | Throw e => message_or (lit "Unknown error") e
           | Normal _ => []
           end
  end.

(** The placeholder text of a failed page. *)
Definition placeholder (pageNumber : Z) (message : jsstring) : jsstring :=
  lit "[Error processing page " ++ Z_toString pageNumber
  ++ lit ": " ++ message ++ lit "]".

(** A conversion that gives no image: rejected, or resolved without a
    buffer. *)
Definition conversion_fails (o : ConvertOutcome) : bool :=
  match o with
  | ConvResolved (Some _) => false
  | _ => true
  end.

(** The bytes of ["%PDF-"]. *)
Definition pdfMagic : Buffer := [x25; x50; x44; x46; x2d]%byte.

(** The arithmetic mean in binary64: the sum from left to right, divided
    by the count. *)
Definition mean (xs : list float) : float :=
  PrimFloat.div (fold_left PrimFloat.add xs 0%float) (of_nat (length xs)).

(** The page result [processImage] settles with, given what the endpoint
    answered. *)
Definition pageResult (o : FetchOutcome) (pageNumber : Z) : OCRPage :=
  match OCRService.recognize o pageNumber with
  | Normal page => page
  | Throw e =>
      mkOCRPage pageNumber
        (placeholder pageNumber (message_or (lit "Unknown error") e)) 0
  end.

(** The page results of the images [batch], the first of which is the
    [k]-th image of the request. *)
Fixpoint resultsFrom (env : Env) (k : nat) (batch : list PDF.ProcessedPage)
  : list OCRPage :=
  match batch with
  | [] => []
  | p :: rest =>
      pageResult (recognition env k (toBase64 (PDF.buffer p))
                    (PDF.pageNumber p)) (PDF.pageNumber p)
      :: resultsFrom env (S k) rest
  end.

(** What [processPage] settles with for page [j]. *)
Definition rasterized (env : Env) (pdfBuffer : Buffer) (j : Z)
  : option PDF.ProcessedPage :=
  match secondConversion env pdfBuffer j with
  | ConvResolved (Some buf) =>
      Some (PDF.mkProcessedPage j
              (match sharp env buf with Normal b => b | Throw _ => buf end))
  | _ => None
  end.

(** The number of pages the counting loop finds, from page [i] on. *)
Fixpoint counted (fuel : nat) (env : Env) (pdfBuffer : Buffer)
  (i totalPages : Z) : Z :=
  match fuel with
  | O => totalPages
  | S fuel' =>
      if i <=? 500 then
        match firstConversion env pdfBuffer i with
        | ConvResolved _ => counted fuel' env pdfBuffer (i + 1) i
        | ConvRejected _ => totalPages
        end
      else totalPages
  end.

(** The number of pages [convertPDFToImages] counts, and the page images
    it fulfils with when page 1 converts: the counted pages whose
    conversion in [processPage] gave an image. *)
Definition pageCount (env : Env) (pdfBuffer : Buffer) : Z :=
  counted 499 env pdfBuffer 2 1.

Definition rasterizedPages (env : Env) (pdfBuffer : Buffer)
  : list PDF.ProcessedPage :=
  PDFProcessor.validResults
    (map (rasterized env pdfBuffer)
       (PDFProcessor.range 1 (pageCount env pdfBuffer + 1))).

(** The position of call [k] in an order of completion. *)
Fixpoint position (order : list nat) (k : nat) : Z :=
  match order with
  | [] => 0
  | j :: rest => if Nat.eqb j k then 0 else 1 + position rest k
  end.

(** A log made of progress frames with percentages [ps] and of calls to
    the collaborators only. *)
Definition progress_log (log : list Effect) (ps : list Z) : Prop :=
  forallb quiet log = true /\ percents (events log) = ps.

(** The percentages [PDFProcessor.batchLoop] reports for a document of
    [totalPages] pages, from batch start [i] on. *)
Fixpoint rasterPercents (fuel : nat) (totalPages i : Z) : list Z :=
  match fuel with
  | O => []
  | S fuel' =>
      if i <=? totalPages then
        Math_round (30 + (of_Z i / of_Z totalPages) * 50)%float
        :: rasterPercents fuel' totalPages (i + PDFProcessor.batchSize)
      else []
  end.

(** The percentages [OCRService.batchLoop] reports for [n] page images,
    from batch start [i] on (one per page of each batch). *)
Fixpoint ocrPercents (fuel : nat) (n i : Z) : list Z :=
  match fuel with
  | O => []
  | S fuel' =>
      if i <? n then
        repeat (Math_round (5 + (of_Z i / of_Z n) * 80)%float)
               (Z.to_nat (Z.min 3 (n - i)))
        ++ ocrPercents fuel' n (i + 3)
      else []
  end.

(** The percentages of the two phases of a successful run: rasterizing a
    document of [totalPages] counted pages, then recognizing [n] page
    images. *)
Definition rasterPhase (totalPages : Z) : list Z :=
  [0; 10; 20; 30]
  ++ rasterPercents (Z.to_nat totalPages) totalPages 1 ++ [85].

Definition ocrPhase (n : nat) : list Z :=
  [5] ++ ocrPercents n (Z.of_nat n) 0 ++ [90; 100].





(** *** Sample inputs *)

(** A response body carrying [content] as the first choice's message. *)
Definition completion_body (content : jsstring) : json :=
  JObj [(lit "choices",
         JArr [JObj [(lit "message", JObj [(lit "content", JStr content)])]])].

Definition page (j : Z) : PDF.ProcessedPage := PDF.mkProcessedPage j [].

(** A three-page document every conversion of which succeeds, behind an
    endpoint that answers every request with status 503. *)
Definition sampleEnv : Env :=
  mkEnv
    (fun _ j => if j <=? 3 then ConvResolved (Some []) else ConvRejected NonError)
    (fun _ _ => ConvResolved (Some []))
    (fun b => Normal b)
    (fun j => j)
    (fun _ _ _ => FetchResolved 503 (lit "Service Unavailable") (Throw NonError))
    (fun k => Z.of_nat k)
    0 0 [].

(** A two-page document whose first page converts when the pages are
    counted but not when [processPage] converts it again. *)
Definition flakyEnv : Env :=
  mkEnv
    (fun _ j => if j <=? 2 then ConvResolved (Some []) else ConvRejected NonError)
    (fun _ j => if j =? 1 then ConvRejected (ErrorObj (lit "spawn failed"))
                else ConvResolved (Some []))
    (fun b => Normal b)
    (fun j => j)
    (fun _ _ _ => FetchResolved 200 (lit "OK")
                    (Normal (completion_body (lit "Dear Anna"))))
    (fun k => Z.of_nat k)
    0 0 [].

(** A one-page document whose page gives no image when [processPage]
    converts it. *)
Definition blankEnv : Env :=
  mkEnv
    (fun _ j => if j <=? 1 then ConvResolved (Some []) else ConvRejected NonError)
    (fun _ _ => ConvResolved None)
    (fun b => Normal b)
    (fun j => j)
    (fun _ _ _ => FetchRejected NonError)
    (fun k => Z.of_nat k)
    0 0 [].

(** A three-page document whose second page gives no image when
    [processPage] converts it. *)
Definition gapEnv : Env :=
  mkEnv
    (fun _ j => if j <=? 3 then ConvResolved (Some []) else ConvRejected NonError)
    (fun _ j => if j =? 2 then ConvResolved None else ConvResolved (Some []))
    (fun b => Normal b)
    (fun j => j)
    (fun _ _ _ => FetchRejected NonError)
    (fun k => Z.of_nat k)
    0 0 [].

(** A one-page document that converts both times, behind an endpoint
    that answers with the text [content]. *)
Definition answeringEnv (content : jsstring) : Env :=
  mkEnv
    (fun _ j => if j <=? 1 then ConvResolved (Some []) else ConvRejected NonError)
    (fun _ _ => ConvResolved (Some []))
    (fun b => Normal b)
    (fun j => j)
    (fun _ _ _ => FetchResolved 200 (lit "OK")
                    (Normal (completion_body content)))
    (fun k => Z.of_nat k)
    0 0 [].


(** A document the rasterizer cannot read at all. *)
Definition unreadableEnv : Env :=
  mkEnv
    (fun _ _ => ConvRejected (ErrorObj (lit "Unable to read the document")))
    (fun _ _ => ConvResolved (Some []))
    (fun b => Normal b)
    (fun j => j)
    (fun _ _ _ => FetchRejected NonError)
    (fun k => Z.of_nat k)
    0 0 [].

(** The same world, its recognition calls completing in another order. *)
Definition with_fetchLatency (env : Env) (latency : nat -> Z) : Env :=
  mkEnv (firstConversion env) (secondConversion env) (sharp env)
        (convertLatency env) (recognition env) latency
        (startTime env) (endTime env) (randomSuffix env).

(** *** The claims that the code does not satisfy as worded *)


(** The pages of the result are strictly ascending for every non-empty
    input. *)
Definition always_strictly_sorted (env : Env)
  (imageBuffers : list PDF.ProcessedPage) : Prop :=
  imageBuffers <> [] ->
  exists r,
    fst (OCRService.processPages env imageBuffers None) = Normal r
    /\ strictly_ascending (map pageNumber (pages r)).

(** The conversion is rejected exactly when a conversion of page 1
    fails. *)
Definition aborts_iff_page1_fails (env : Env) (pdfBuffer : Buffer) : Prop :=
  (exists e,
     fst (PDFProcessor.convertPDFToImages env pdfBuffer None) = Throw e)
  <-> (conversion_fails (firstConversion env pdfBuffer 1) = true
       \/ conversion_fails (secondConversion env pdfBuffer 1) = true).

(** *** The calls to the collaborators *)

Definition is_call (x : Effect) : bool :=
  match x with
  | ConvertCall _ | FetchCall _ => true
  | _ => false
  end.

(** The calls to the rasterizer and to the recognition endpoint in a
    log, in the order they are made. *)
Definition calls (log : list Effect) : list Effect := filter is_call log.

(** A progress callback that calls no collaborator itself. *)
Definition silent (onProgress : option Callback) : Prop :=
  forall progress step, calls (snd (notify onProgress progress step)) = [].

(** The pages the rasterizer is asked for by a conversion that counts
    [totalPages] pages: page 1, the probes from page 2 up to the first
    rejected page or to the ceiling, then every counted page again. *)
Definition conversionCalls (totalPages : Z) : list Z :=
  PDFProcessor.range 1 (Z.min (totalPages + 2) 501)
  ++ PDFProcessor.range 1 (totalPages + 1).

(** The message of the error a failed first conversion raises inside
    [convertPDFToImages]. *)
Definition conversion_message (o : ConvertOutcome) : jsstring :=
  match o with
  | ConvRejected e => message_or (lit "Unknown error") e
  | ConvResolved _ => lit "Failed to convert first page"
  end.

(** *** Lines and frames *)

(** A text with no line feed in it. *)
Definition single_line (s : jsstring) : bool :=
  forallb (fun c => negb (N.eqb c LF)) s.

(** A text made of white space only. *)
Definition blank (s : jsstring) : bool := forallb is_space s.

(** The text of the frame the route writes for a payload:
    [`data: ${payload}\n\n`]. *)
Definition frame (payload : jsstring) : jsstring :=
  lit "data: " ++ payload ++ nl ++ nl.

(** The double quote. *)
Definition dq : jsstring := [34%N].

(** The payloads of the three kinds of frames (route.ts, lines 90 to 115):
    [{"type":"progress","progress":${Math.round(progress)},"step":"${step}"}],
    [{"type":"error","message":"${errorMessage}"}] and
    [{"type":"complete","result":${JSON.stringify(result)}}].  The texts
    are interpolated as they are; [stringify] is [JSON.stringify]. *)
Definition progressPayload (progress : Z) (step : jsstring) : jsstring :=
  lit "{" ++ dq ++ lit "type" ++ dq ++ lit ":" ++ dq ++ lit "progress" ++ dq
  ++ lit "," ++ dq ++ lit "progress" ++ dq ++ lit ":" ++ Z_toString progress
  ++ lit "," ++ dq ++ lit "step" ++ dq ++ lit ":" ++ dq ++ step ++ dq
  ++ lit "}".

Definition errorPayload (message : jsstring) : jsstring :=
  lit "{" ++ dq ++ lit "type" ++ dq ++ lit ":" ++ dq ++ lit "error" ++ dq
  ++ lit "," ++ dq ++ lit "message" ++ dq ++ lit ":" ++ dq ++ message ++ dq
  ++ lit "}".

Definition completePayload (stringify : OCRResult -> jsstring)
  (result : OCRResult) : jsstring :=
  lit "{" ++ dq ++ lit "type" ++ dq ++ lit ":" ++ dq ++ lit "complete" ++ dq
  ++ lit "," ++ dq ++ lit "result" ++ dq ++ lit ":" ++ stringify result
  ++ lit "}".

Definition payload (stringify : OCRResult -> jsstring) (e : Event)
  : jsstring :=
  match e with
  | EvProgress progress step => progressPayload progress step
  | EvComplete result => completePayload stringify result
  | EvError message => errorPayload message
  end.

(** The text written on the stream by the effects of a log. *)
Definition streamText (stringify : OCRResult -> jsstring)
  (log : list Effect) : jsstring :=
  concat (map (fun e => frame (payload stringify e)) (events log)).

(** A progress frame whose step label holds no line feed. *)
Definition tidy (x : Effect) : bool :=
  match x with
  | Emit (EvProgress _ step) => single_line step
  | _ => true
  end.

(** *** What the answer carries *)

(** [data?.choices?.[0]?.message?.content]: [None] is [undefined].  (On a
    [data] that is not [null] this is the chain of line 84 of
    ocr-service.ts, [data.choices?.[0]?.message?.content].) *)
Definition content_of (data : json) : option json :=
  opt_name (opt_name (opt_index (opt_name (Some data) (lit "choices")) 0)
              (lit "message"))
           (lit "content").

Definition is_text (v : json) : bool :=
  match v with JStr _ => true | _ => false end.

(** *** C3 as worded *)

(** A malformed response, read as widely as the claim's words allow: a
    body that cannot be parsed, or one that parses but carries no text
    at [choices[0].message.content]. *)
Definition malformed (body : Completion json) : bool :=
  match body with
  | Throw _ => true
  | Normal data =>
      match content_of data with
      | Some (JStr _) => false
      | _ => true
      end
  end.

(** Every failed call (transport error, non-success status, malformed
    response) gives the error placeholder with confidence 0. *)
Definition absorbs_every_failure (api : jsstring -> Z -> FetchOutcome)
  (imageBase64 : jsstring) (pageNumber : Z) : Prop :=
  match api imageBase64 pageNumber with
  | FetchRejected _ => True
  | FetchResolved status _ body =>
      negb (OCRService.response_ok status) || malformed body = true
  end ->
  exists message,
    fst (OCRService.processImage api imageBase64 pageNumber)
    = Normal (mkOCRPage pageNumber (placeholder pageNumber message) 0)
    /\ includes (placeholder pageNumber message)
         (lit "[Error processing page") = true.

End Props.
Import Props.

(* ================================================================= *)
(** ** Arrays: sorting and [Promise.all] *)

Section Sorting.

Context {A : Type} (key : A -> Z).

Let le_key (a b : A) : Prop := key a <= key b.

Lemma insert_by_perm (x : A) (l : list A) :
  Permutation (insert_by key x l) (x :: l).
Proof.
  induction l as [|y l IH]; simpl.
  - apply Permutation_refl.
  - destruct (key x <=? key y).
    + apply Permutation_refl.
    + apply perm_trans with (y :: x :: l).
      * apply perm_skip, IH.
      * apply perm_swap.
Qed.

Lemma sort_by_perm (l : list A) : Permutation (sort_by key l) l.
Proof.
  induction l as [|x l IH]; simpl.
  - apply perm_nil.
  - apply perm_trans with (x :: sort_by key l).
    + apply insert_by_perm.
    + apply perm_skip, IH.
Qed.

Lemma sort_by_length (l : list A) : length (sort_by key l) = length l.
Proof. apply Permutation_length, sort_by_perm. Qed.

Lemma insert_by_sorted (x : A) (l : list A) :
  StronglySorted le_key l -> StronglySorted le_key (insert_by key x l).
Proof.
  induction 1 as [|y l Hs IH Hy]; simpl.
  - repeat constructor.
  - destruct (key x <=? key y) eqn:E.
    + apply Z.leb_le in E. constructor.
      * constructor; assumption.
      * constructor; [exact E|].
        eapply Forall_impl; [|exact Hy].
        intros b Hb. unfold le_key in *. lia.
    + apply Z.leb_gt in E. constructor; [exact IH|].
      eapply Permutation_Forall.
      * apply Permutation_sym, insert_by_perm.
      * constructor; [unfold le_key; lia | exact Hy].
Qed.

Lemma sort_by_sorted (l : list A) : StronglySorted le_key (sort_by key l).
Proof.
  induction l as [|x l IH]; simpl.
  - constructor.
  - apply insert_by_sorted, IH.
Qed.

(** Sorting keeps a sorted array as it is. *)
Lemma sort_by_id (l : list A) :
  StronglySorted le_key l -> sort_by key l = l.
Proof.
  induction 1 as [|x l Hs IH Hx]; simpl; [reflexivity|].
  rewrite IH. destruct l as [|y l']; [reflexivity|]. simpl.
  inversion Hx as [|? ? Hxy _]; subst. unfold le_key in Hxy.
  apply Z.leb_le in Hxy. rewrite Hxy. reflexivity.
Qed.

Lemma sorted_keys (l : list A) :
  StronglySorted le_key l -> StronglySorted Z.le (map key l).
Proof.
  induction 1 as [|x l Hs IH Hx]; simpl; constructor; [exact IH|].
  apply Forall_map. exact Hx.
Qed.

End Sorting.

Lemma sorted_nodup_strict (l : list Z) :
  StronglySorted Z.le l -> NoDup l -> StronglySorted Z.lt l.
Proof.
  induction 1 as [|x l Hs IH Hx]; intros Hnd; constructor.
  - apply IH. inversion Hnd; assumption.
  - inversion Hnd as [|? ? Hin _]; subst.
    rewrite Forall_forall in *. intros y Hy.
    specialize (Hx y Hy). assert (x <> y) by (intros ->; contradiction). lia.
Qed.

Lemma strict_sorted_nodup (l : list Z) : StronglySorted Z.lt l -> NoDup l.
Proof.
  induction 1 as [|x l Hs IH Hx]; constructor; [|exact IH].
  intros Hin. rewrite Forall_forall in Hx. specialize (Hx x Hin). lia.
Qed.

Section PromiseAll.

Context {A : Type}.

Lemma set_slot_length (s : list (option A)) k v :
  length (set_slot s k v) = length s.
Proof.
  revert k; induction s as [|x s IH]; intros [|k]; simpl; auto.
Qed.

Lemma nth_error_set_slot_eq (s : list (option A)) k v :
  (k < length s)%nat -> nth_error (set_slot s k v) k = Some (Some v).
Proof.
  revert k; induction s as [|x s IH]; intros [|k] H; simpl in *;
    try lia; [reflexivity|].
  apply IH. lia.
Qed.

Lemma nth_error_set_slot_neq (s : list (option A)) k j v :
  j <> k -> nth_error (set_slot s k v) j = nth_error s j.
Proof.
  revert k j; induction s as [|x s IH]; intros [|k] [|j] H; simpl;
    try reflexivity; try congruence.
  apply IH. congruence.
Qed.

(** When every promise fulfils, each slot a call of [order] names ends up
    with that call's value, whatever the order. *)
Lemma settle_fulfilled (vs : list A) (order : list nat) :
  forall slots, length slots = length vs ->
  exists slots',
    settle (map Normal vs) order slots = Normal slots'
    /\ length slots' = length vs
    /\ forall j,
         (In j order ->
          nth_error slots' j = option_map Some (nth_error vs j))
         /\ (~ In j order -> nth_error slots' j = nth_error slots j).
Proof.
  induction order as [|k order IH]; intros slots Hlen; simpl.
  - exists slots. split; [reflexivity|]. split; [assumption|].
    intros j. split; [contradiction | reflexivity].
  - rewrite nth_error_map.
    destruct (nth_error vs k) as [v|] eqn:Ek; simpl.
    + destruct (IH (set_slot slots k v)) as (slots' & Hs & Hl & Hj).
      { rewrite set_slot_length. exact Hlen. }
      exists slots'. split; [exact Hs|]. split; [exact Hl|].
      intros j. destruct (Hj j) as [Hin Hout]. split.
      * intros [->|Hj'].
        -- destruct (in_dec Nat.eq_dec j order) as [Hi|Hni].
           ++ apply Hin, Hi.
           ++ rewrite (Hout Hni), Ek. simpl.
              apply nth_error_set_slot_eq. rewrite Hlen.
              apply nth_error_Some. congruence.
        -- apply Hin, Hj'.
      * intros Hn. rewrite Hout by tauto.
        apply nth_error_set_slot_neq. intros ->. tauto.
    + destruct (IH slots Hlen) as (slots' & Hs & Hl & Hj).
      exists slots'. split; [exact Hs|]. split; [exact Hl|].
      intros j. destruct (Hj j) as [Hin Hout]. split.
      * intros [->|Hj'].
        -- destruct (in_dec Nat.eq_dec j order) as [Hi|Hni].
           ++ apply Hin, Hi.
           ++ rewrite (Hout Hni), Ek. simpl.
              apply nth_error_None. rewrite Hlen.
              apply nth_error_None. exact Ek.
        -- apply Hin, Hj'.
      * intros Hn. apply Hout. tauto.
Qed.

Lemma filled_Some (vs : list A) : filled (map Some vs) = vs.
Proof.
  induction vs as [|v vs IH]; simpl; [reflexivity|]. f_equal. exact IH.
Qed.

Lemma completion_order_In (latency : nat -> Z) (n j : nat) :
  In j (completion_order latency n) <-> (j < n)%nat.
Proof.
  unfold completion_order. split; intros H.
  - apply (Permutation_in _ (sort_by_perm latency (seq 0 n))) in H.
    apply in_seq in H. lia.
  - apply (Permutation_in _ (Permutation_sym (sort_by_perm latency (seq 0 n)))).
    apply in_seq. lia.
Qed.

(** [Promise.all] over promises that all fulfil gives their values in
    the order of the promises, whatever the order of completion. *)
Lemma Promise_all_fulfilled (latency : nat -> Z) (vs : list A) :
  Promise_all latency (map Normal vs) = Normal vs.
Proof.
  unfold Promise_all. rewrite length_map.
  destruct (settle_fulfilled vs (completion_order latency (length vs))
              (repeat None (length vs))) as (slots' & Hs & Hl & Hj).
  { apply repeat_length. }
  rewrite Hs. simpl. f_equal.
  assert (slots' = map Some vs) as ->; [|apply filled_Some].
  apply nth_error_ext. intros j. rewrite nth_error_map.
  destruct (Nat.lt_ge_cases j (length vs)) as [Hlt|Hge].
  - apply (Hj j). apply completion_order_In. exact Hlt.
  - replace (nth_error vs j) with (@None A) by
      (symmetry; apply nth_error_None; exact Hge).
    apply nth_error_None. lia.
Qed.

End PromiseAll.

(** *** Every order of completion is the order of some latencies *)

Section Orders.

Lemma StronglySorted_transfer {A} (R R' : A -> A -> Prop) (l : list A) :
  StronglySorted R l ->
  (forall a b, In a l -> In b l -> R a b -> R' a b) ->
  StronglySorted R' l.
Proof.
  induction 1 as [|x l Hs IH Hx]; intros Himp; constructor.
  - apply IH. intros a b Ha Hb. apply Himp; right; assumption.
  - rewrite Forall_forall in *. intros b Hb.
    apply Himp; [left; reflexivity | right; exact Hb | apply Hx, Hb].
Qed.

Lemma position_nonneg order k : 0 <= position order k.
Proof.
  induction order as [|j rest IH]; cbn [position]; [lia|].
  destruct (Nat.eqb j k); lia.
Qed.

Lemma position_sorted (order : list nat) :
  NoDup order ->
  StronglySorted (fun a b => position order a < position order b) order.
Proof.
  induction 1 as [|j rest Hj Hnd IH]; constructor.
  - apply (StronglySorted_transfer _ _ _ IH).
    intros a b Ha Hb Hab. cbn [position].
    destruct (Nat.eqb j a) eqn:Ea;
      [apply Nat.eqb_eq in Ea; subst a; contradiction|].
    destruct (Nat.eqb j b) eqn:Eb;
      [apply Nat.eqb_eq in Eb; subst b; contradiction|].
    lia.
  - apply Forall_forall. intros b Hb. cbn [position]. rewrite Nat.eqb_refl.
    destruct (Nat.eqb j b) eqn:Eb;
      [apply Nat.eqb_eq in Eb; subst b; contradiction|].
    pose proof (position_nonneg rest b). lia.
Qed.

(** Two arrangements of the same elements, one strictly sorted and one
    sorted, are the same. *)
Lemma sorted_perm_unique {A} (key : A -> Z) (l1 : list A) :
  forall l2,
    Permutation l1 l2 ->
    StronglySorted (fun a b => key a < key b) l1 ->
    StronglySorted (fun a b => key a <= key b) l2 ->
    l1 = l2.
Proof.
  induction l1 as [|x l1 IH]; intros l2 Hp H1 H2.
  - apply Permutation_nil in Hp. subst. reflexivity.
  - destruct l2 as [|y l2].
    { apply Permutation_sym, Permutation_nil in Hp. discriminate. }
    inversion H1 as [|? ? H1' Hx]; subst.
    inversion H2 as [|? ? H2' Hy]; subst.
    rewrite Forall_forall in Hx, Hy.
    assert (x = y) as ->.
    { assert (Hxin : In x (y :: l2))
        by (apply (Permutation_in _ Hp); left; reflexivity).
      assert (Hyin : In y (x :: l1))
        by (apply (Permutation_in _ (Permutation_sym Hp)); left; reflexivity).
      destruct Hxin as [->|Hxin]; [reflexivity|].
      destruct Hyin as [->|Hyin]; [reflexivity|].
      specialize (Hx y Hyin). specialize (Hy x Hxin). lia. }
    f_equal. apply IH; [|assumption|assumption].
    eapply Permutation_cons_inv. exact Hp.
Qed.

(** Any order in which [n] calls may complete is [completion_order] for
    the latencies that give each call its position in that order. *)
Lemma completion_order_any (order : list nat) (n : nat) :
  Permutation order (seq 0 n) ->
  completion_order (position order) n = order.
Proof.
  intros Hp. symmetry. apply (sorted_perm_unique (position order)).
  - unfold completion_order.
    apply (perm_trans Hp), Permutation_sym, sort_by_perm.
  - apply position_sorted.
    apply (Permutation_NoDup (Permutation_sym Hp)), seq_NoDup.
  - apply sort_by_sorted.
Qed.

End Orders.

(* ================================================================= *)
(** ** The monad and the logs *)

Section Monad.

Context {A B : Type}.

Lemma fst_bind (m : M A) (f : A -> M B) :
  fst (bind m f) = cbind (fst m) (fun a => fst (f a)).
Proof.
  unfold bind, catch. destruct m as [[a|e] l]; simpl; [|reflexivity].
  destruct (f a); reflexivity.
Qed.

Lemma snd_bind (m : M A) (f : A -> M B) :
  snd (bind m f)
  = snd m ++ match fst m with Normal a => snd (f a) | Throw _ => [] end.
Proof.
  unfold bind, catch. destruct m as [[a|e] l]; simpl.
  - destruct (f a); reflexivity.
  - symmetry. apply app_nil_r.
Qed.

Lemma fst_catch (m : M A) (h : thrown -> M A) :
  fst (catch m h)
  = match fst m with Normal a => Normal a | Throw e => fst (h e) end.
Proof.
  unfold bind, catch. destruct m as [[a|e] l]; simpl; [reflexivity|].
  destruct (h e); reflexivity.
Qed.

Lemma snd_catch (m : M A) (h : thrown -> M A) :
  snd (catch m h)
  = snd m ++ match fst m with Normal _ => [] | Throw e => snd (h e) end.
Proof.
  unfold bind, catch. destruct m as [[a|e] l]; simpl.
  - symmetry. apply app_nil_r.
  - destruct (h e); reflexivity.
Qed.

End Monad.

Lemma Normal_inj {A} (a b : A) : Normal a = Normal b -> a = b.
Proof. intros H. injection H. trivial. Qed.

Lemma fst_notify cb p s : fst (notify cb p s) = Normal tt.
Proof. destruct cb; reflexivity. Qed.

Lemma snd_notify p s :
  snd (notify (Some Route.onProgress) p s)
  = [Emit (EvProgress (Math_round p) s)].
Proof. reflexivity. Qed.

Lemma events_app l1 l2 : events (l1 ++ l2) = events l1 ++ events l2.
Proof. apply flat_map_app. Qed.

Lemma percents_app e1 e2 : percents (e1 ++ e2) = percents e1 ++ percents e2.
Proof. apply flat_map_app. Qed.

Lemma progress_log_nil : progress_log [] [].
Proof. split; reflexivity. Qed.

Lemma progress_log_app l1 l2 p1 p2 :
  progress_log l1 p1 -> progress_log l2 p2 ->
  progress_log (l1 ++ l2) (p1 ++ p2).
Proof.
  intros [Q1 P1] [Q2 P2]. split.
  - rewrite forallb_app, Q1, Q2. reflexivity.
  - rewrite events_app, percents_app, P1, P2. reflexivity.
Qed.

Lemma progress_log_emit p s : progress_log [Emit (EvProgress p s)] [p].
Proof. split; reflexivity. Qed.

Lemma progress_log_fetch j : progress_log [FetchCall j] [].
Proof. split; reflexivity. Qed.

Lemma progress_log_convert j : progress_log [ConvertCall j] [].
Proof. split; reflexivity. Qed.

Lemma progress_log_notify p s :
  progress_log (snd (notify (Some Route.onProgress) p s)) [Math_round p].
Proof. apply progress_log_emit. Qed.

(* ================================================================= *)
(** ** Facts about [OCRService] *)

Section OCRFacts.

Import OCRService.

Lemma recognize_pageNumber o n page :
  recognize o n = Normal page -> pageNumber page = n.
Proof.
  unfold recognize. destruct o as [e|status statusText body]; [discriminate|].
  destruct (negb (response_ok status)); [discriminate|].
  destruct body as [data|e]; simpl; [|discriminate].
  destruct (get_name data (lit "choices")) as [choices|e]; simpl;
    [|discriminate].
  destruct (calculateConfidence_any _) as [c|e]; simpl; [|discriminate].
  destruct (trim_any _) as [t|e]; simpl; [|discriminate].
  intros H; inversion H; reflexivity.
Qed.

Lemma pageResult_pageNumber o n : pageNumber (pageResult o n) = n.
Proof.
  unfold pageResult. destruct (recognize o n) eqn:E; [|reflexivity].
  eapply recognize_pageNumber; eassumption.
Qed.

(** [processImage] always fulfils. *)
Lemma processImage_value api img n :
  fst (processImage api img n) = Normal (pageResult (api img n) n).
Proof.
  unfold processImage, pageResult, placeholder. simpl.
  destruct (recognize (api img n) n); reflexivity.
Qed.

Lemma processImage_effects api img n :
  snd (processImage api img n) = [FetchCall n].
Proof. reflexivity. Qed.

Lemma startBatch_promises env cb total i k batch :
  snd (startBatch env cb total i k batch)
  = map Normal (resultsFrom env (i + k) batch).
Proof.
  revert k; induction batch as [|p rest IH]; intros k;
    cbn [startBatch resultsFrom map]; [reflexivity|].
  destruct (notify cb _ _) as [u e1].
  pose proof (processImage_value (recognition env (i + k)%nat)
                (toBase64 (PDF.buffer p)) (PDF.pageNumber p)) as Hv.
  destruct (processImage _ _ _) as [promise e2]. cbn [fst] in Hv.
  subst promise. specialize (IH (S k)).
  destruct (startBatch env cb total i (S k) rest) as [effects promises].
  cbn [snd] in *. rewrite IH, Nat.add_succ_r. reflexivity.
Qed.

Lemma startBatch_log env total i k batch :
  progress_log (fst (startBatch env (Some Route.onProgress) total i k batch))
    (repeat (Math_round (5 + (of_nat i / of_nat total) * 80)%float)
            (length batch)).
Proof.
  revert k; induction batch as [|p rest IH]; intros k;
    cbn [startBatch length repeat].
  - apply progress_log_nil.
  - pose proof (progress_log_notify
                  (5 + (of_nat i / of_nat total) * 80)%float
                  (lit "Processing page " ++ Z_toString (PDF.pageNumber p)
                   ++ lit " of " ++ Z_toString (Z.of_nat total))) as H1.
    destruct (notify (Some Route.onProgress) _ _) as [u e1].
    pose proof (processImage_effects (recognition env (i + k)%nat)
                  (toBase64 (PDF.buffer p)) (PDF.pageNumber p)) as H2.
    destruct (processImage _ _ _) as [promise e2]. cbn [snd] in H1, H2.
    subst e2. specialize (IH (S k)).
    destruct (startBatch env (Some Route.onProgress) total i (S k) rest)
      as [effects promises]. cbn [fst] in *.
    apply (progress_log_app _ _ [_] _); [exact H1|].
    apply (progress_log_app [_] _ [] _); [apply progress_log_fetch|].
    exact IH.
Qed.

Lemma resultsFrom_app env k l1 l2 :
  resultsFrom env k (l1 ++ l2)
  = resultsFrom env k l1 ++ resultsFrom env (k + length l1) l2.
Proof.
  revert k; induction l1 as [|p l1 IH]; intros k; simpl.
  - rewrite Nat.add_0_r. reflexivity.
  - rewrite IH. do 3 f_equal. lia.
Qed.

Lemma resultsFrom_length env k l : length (resultsFrom env k l) = length l.
Proof.
  revert k; induction l as [|p l IH]; intros k; simpl; [reflexivity|].
  rewrite IH. reflexivity.
Qed.

Lemma resultsFrom_pageNumbers env k l :
  map pageNumber (resultsFrom env k l) = map PDF.pageNumber l.
Proof.
  revert k; induction l as [|p l IH]; intros k; simpl; [reflexivity|].
  rewrite IH, pageResult_pageNumber. reflexivity.
Qed.

(** Splitting the images left at index [i] into the next batch and the
    rest. *)
Lemma resultsFrom_batch env (imgs : list PDF.ProcessedPage) i :
  resultsFrom env i (skipn i imgs)
  = resultsFrom env i (slice i (i + batchSize) imgs)
    ++ resultsFrom env (i + batchSize) (skipn (i + batchSize) imgs).
Proof.
  unfold slice, batchSize. replace (i + 3 - i)%nat with 3%nat by lia.
  rewrite <- (firstn_skipn 3 (skipn i imgs)) at 1.
  rewrite resultsFrom_app, skipn_skipn.
  replace (3 + i)%nat with (i + 3)%nat by lia.
  f_equal.
  destruct (Nat.le_gt_cases (i + 3) (length imgs)) as [Hle|Hgt].
  - rewrite length_firstn, length_skipn.
    replace (Nat.min 3 (length imgs - i)) with 3%nat by lia.
    reflexivity.
  - rewrite (@skipn_all2 _ (i + 3)%nat imgs) by lia. reflexivity.
Qed.

(** The loop fulfils with the results of all images from index [i] on,
    in the order of the images. *)
Lemma batchLoop_value env cb imgs :
  forall fuel i acc,
    (length imgs <= i + batchSize * fuel)%nat ->
    fst (batchLoop fuel env cb imgs i acc)
    = Normal (acc ++ resultsFrom env i (skipn i imgs)).
Proof.
  induction fuel as [|fuel IH]; intros i acc Hfuel.
  - simpl. rewrite skipn_all2 by lia. simpl. rewrite app_nil_r. reflexivity.
  - cbn [batchLoop]. destruct (i <? length imgs)%nat eqn:Ei.
    + pose proof (startBatch_promises env cb (length imgs) i 0
                    (slice i (i + batchSize) imgs)) as Hp.
      destruct (startBatch env cb (length imgs) i 0 _)
        as [effects promises]. cbn [snd] in Hp. subst promises.
      rewrite fst_bind. cbn [tell fst cbind].
      rewrite fst_bind. cbn [lift fst].
      rewrite Promise_all_fulfilled. cbn [cbind].
      rewrite IH by (unfold batchSize in *; lia).
      rewrite Nat.add_0_r, <- app_assoc, <- resultsFrom_batch. reflexivity.
    + apply Nat.ltb_ge in Ei. simpl.
      rewrite skipn_all2 by lia. simpl. rewrite app_nil_r. reflexivity.
Qed.

Lemma ocr_batchLoop_log env imgs :
  forall fuel i acc,
    progress_log
      (snd (batchLoop fuel env (Some Route.onProgress) imgs i acc))
      (ocrPercents fuel (Z.of_nat (length imgs)) (Z.of_nat i)).
Proof.
  induction fuel as [|fuel IH]; intros i acc.
  - apply progress_log_nil.
  - cbn [batchLoop ocrPercents].
    replace (Z.of_nat i <? Z.of_nat (length imgs))
      with (i <? length imgs)%nat
      by (destruct (Nat.ltb_spec i (length imgs));
          symmetry; [apply Z.ltb_lt | apply Z.ltb_ge]; lia).
    destruct (i <? length imgs)%nat eqn:Ei.
    + pose proof (startBatch_promises env (Some Route.onProgress)
                    (length imgs) i 0 (slice i (i + batchSize) imgs)) as Hp.
      pose proof (startBatch_log env (length imgs) i 0
                    (slice i (i + batchSize) imgs)) as Hl.
      destruct (startBatch env (Some Route.onProgress) (length imgs) i 0 _)
        as [effects promises]. cbn [fst snd] in Hp, Hl. subst promises.
      rewrite snd_bind. cbn [tell fst snd].
      rewrite snd_bind. cbn [lift fst snd].
      rewrite Promise_all_fulfilled. cbn [app].
      apply progress_log_app.
      * replace (Z.to_nat (Z.min 3 (Z.of_nat (length imgs) - Z.of_nat i)))
          with (length (slice i (i + batchSize) imgs)); [exact Hl|].
        unfold slice, batchSize. rewrite length_firstn, length_skipn. lia.
      * replace (Z.of_nat i + 3) with (Z.of_nat (i + batchSize))
          by (unfold batchSize; lia).
        apply IH.
    + apply progress_log_nil.
Qed.

Lemma mean_fold (ps : list OCRPage) (z : float) :
  fold_left (fun sum page => PrimFloat.add sum (confidence page)) ps z
  = fold_left PrimFloat.add (map confidence ps) z.
Proof.
  revert z; induction ps as [|p ps IH]; intros z; simpl;
    [reflexivity|apply IH].
Qed.

Lemma processPages_value env imgs cb :
  exists r,
    fst (processPages env imgs cb) = Normal r
    /\ pages r = sort_by pageNumber (resultsFrom env 0 imgs)
    /\ fullText r = join pageBreak (map extractedText (pages r))
    /\ totalPages r = length (pages r)
    /\ averageConfidence r = mean (map confidence (pages r)).
Proof.
  unfold processPages.
  rewrite fst_bind, fst_notify. cbn [cbind].
  rewrite fst_bind, batchLoop_value by (unfold batchSize; lia).
  cbn [cbind app skipn].
  rewrite fst_bind, fst_notify. cbn [cbind].
  rewrite fst_bind, fst_notify. cbn [cbind ret fst].
  eexists. split; [reflexivity|]. cbn [pages fullText totalPages
                                       averageConfidence].
  repeat split.
  unfold mean. rewrite length_map, mean_fold. reflexivity.
Qed.

Lemma processPages_log env imgs :
  progress_log (snd (processPages env imgs (Some Route.onProgress)))
    (ocrPhase (length imgs)).
Proof.
  unfold processPages, ocrPhase.
  rewrite snd_bind, fst_notify.
  apply (progress_log_app _ _ [_] _); [apply progress_log_notify|].
  rewrite snd_bind, batchLoop_value by (unfold batchSize; lia).
  apply progress_log_app; [apply ocr_batchLoop_log|].
  rewrite snd_bind, fst_notify.
  apply (progress_log_app _ _ [_] [_]); [apply progress_log_notify|].
  rewrite snd_bind, fst_notify. cbn [ret snd]. rewrite app_nil_r.
  apply progress_log_notify.
Qed.

(** [length imageBuffers] iterations are enough: more fuel changes
    neither the result nor the effects. *)
Lemma batchLoop_fuel env cb imgs :
  forall fuel k i acc,
    (length imgs <= i + batchSize * fuel)%nat ->
    batchLoop (fuel + k) env cb imgs i acc = batchLoop fuel env cb imgs i acc.
Proof.
  unfold batchSize.
  induction fuel as [|fuel IH]; intros k i acc Hfuel.
  - cbn [Nat.add batchLoop]. destruct k as [|k]; [reflexivity|].
    cbn [batchLoop].
    replace (i <? length imgs)%nat with false
      by (symmetry; apply Nat.ltb_ge; lia).
    reflexivity.
  - cbn [Nat.add batchLoop]. destruct (i <? length imgs)%nat; [|reflexivity].
    destruct (startBatch env cb (length imgs) i 0 _) as [effects promises].
    unfold bind, tell, lift.
    destruct (Promise_all _ promises) as [batchResults|e]; [|reflexivity].
    unfold batchSize. rewrite IH by lia. reflexivity.
Qed.

End OCRFacts.

(* ================================================================= *)
(** ** Facts about [PDFProcessor] *)

Section PDFFacts.

Import PDFProcessor.

Lemma range_length lo hi : length (range lo hi) = Z.to_nat (hi - lo).
Proof. unfold range. rewrite length_map, length_seq. reflexivity. Qed.

Lemma range_empty lo hi : hi <= lo -> range lo hi = [].
Proof.
  intros H. unfold range. replace (Z.to_nat (hi - lo)) with 0%nat by lia.
  reflexivity.
Qed.

Lemma range_cons lo hi : lo < hi -> range lo hi = lo :: range (lo + 1) hi.
Proof.
  intros H. unfold range.
  replace (Z.to_nat (hi - lo)) with (S (Z.to_nat (hi - (lo + 1)))) by lia.
  cbn [seq map]. f_equal; [lia|].
  rewrite <- seq_shift, map_map. apply map_ext. intros k. lia.
Qed.

Lemma range_app lo mid hi :
  lo <= mid <= hi -> range lo hi = range lo mid ++ range mid hi.
Proof.
  intros H. remember (Z.to_nat (mid - lo)) as n eqn:En.
  revert lo H En. induction n as [|n IH]; intros lo H En.
  - assert (mid = lo) as -> by lia. rewrite (range_empty lo lo) by lia.
    reflexivity.
  - rewrite (range_cons lo hi), (range_cons lo mid) by lia.
    cbn [app]. f_equal. apply IH; lia.
Qed.

Lemma range_In lo hi j : In j (range lo hi) <-> lo <= j < hi.
Proof.
  unfold range. rewrite in_map_iff. split.
  - intros (k & <- & Hk). apply in_seq in Hk. lia.
  - intros H. exists (Z.to_nat (j - lo)). split; [lia|].
    apply in_seq. lia.
Qed.

Lemma range_sorted lo hi : StronglySorted Z.lt (range lo hi).
Proof.
  remember (Z.to_nat (hi - lo)) as n eqn:En.
  revert lo En. induction n as [|n IH]; intros lo En.
  - rewrite range_empty by lia. constructor.
  - rewrite range_cons by lia. constructor; [apply IH; lia|].
    apply Forall_forall. intros j Hj. apply range_In in Hj. lia.
Qed.

(** [processPage] always fulfils, with [null] when the conversion gives
    no image. *)
Lemma processPage_value env pdf j :
  fst (processPage env pdf j) = Normal (rasterized env pdf j).
Proof.
  unfold processPage, rasterized, optimizeImageForOCR. cbn [fst].
  destruct (secondConversion env pdf j) as [e|[buf|]]; try reflexivity.
  destruct (sharp env buf); reflexivity.
Qed.

Lemma processPage_effects env pdf j :
  snd (processPage env pdf j) = [ConvertCall j].
Proof. reflexivity. Qed.

Lemma pdf_startBatch_promises env pdf js :
  snd (startBatch env pdf js) = map Normal (map (rasterized env pdf) js).
Proof.
  induction js as [|j rest IH]; cbn [startBatch map]; [reflexivity|].
  pose proof (processPage_value env pdf j) as Hv.
  destruct (processPage env pdf j) as [promise e1]. cbn [fst] in Hv.
  subst promise.
  destruct (startBatch env pdf rest) as [effects promises].
  cbn [snd] in *. rewrite IH. reflexivity.
Qed.

Lemma pdf_startBatch_log env pdf js :
  progress_log (fst (startBatch env pdf js)) [].
Proof.
  induction js as [|j rest IH]; cbn [startBatch]; [apply progress_log_nil|].
  pose proof (processPage_effects env pdf j) as He.
  destruct (processPage env pdf j) as [promise e1]. cbn [snd] in He.
  subst e1.
  destruct (startBatch env pdf rest) as [effects promises]. cbn [fst] in *.
  apply (progress_log_app [_] _ [] []); [apply progress_log_convert|exact IH].
Qed.

Lemma countPages_value env pdf :
  forall fuel i tp,
    fst (countPages fuel env pdf i tp) = Normal (counted fuel env pdf i tp).
Proof.
  induction fuel as [|fuel IH]; intros i tp; cbn [countPages counted];
    [reflexivity|].
  destruct (i <=? 500); [|reflexivity].
  rewrite fst_bind. cbn [tell fst cbind].
  destruct (firstConversion env pdf i); [reflexivity|apply IH].
Qed.

Lemma countPages_log env pdf :
  forall fuel i tp, progress_log (snd (countPages fuel env pdf i tp)) [].
Proof.
  induction fuel as [|fuel IH]; intros i tp; cbn [countPages];
    [apply progress_log_nil|].
  destruct (i <=? 500); [|apply progress_log_nil].
  rewrite snd_bind. cbn [tell fst snd].
  apply (progress_log_app [_] _ [] []); [apply progress_log_convert|].
  destruct (firstConversion env pdf i); [apply progress_log_nil|apply IH].
Qed.

(** The page count lies between 1 and the ceiling of 500. *)
Lemma counted_bounds env pdf :
  forall fuel i tp,
    tp <= i -> tp <= 500 ->
    tp <= counted fuel env pdf i tp <= 500.
Proof.
  induction fuel as [|fuel IH]; intros i tp Hi Htp; cbn [counted]; [lia|].
  destruct (i <=? 500) eqn:E; [|lia]. apply Z.leb_le in E.
  destruct (firstConversion env pdf i); [lia|].
  specialize (IH (i + 1) i). lia.
Qed.

Lemma validResults_app l1 l2 :
  validResults (l1 ++ l2) = validResults l1 ++ validResults l2.
Proof. apply flat_map_app. Qed.

(** The loop fulfils with the pages from [i] on whose conversion gave an
    image, in page order. *)
Lemma pdf_batchLoop_value env pdf cb T :
  forall fuel i acc,
    T + 1 - i <= batchSize * Z.of_nat fuel ->
    fst (batchLoop fuel env pdf cb T i acc)
    = Normal (acc ++ validResults (map (rasterized env pdf)
                                     (range i (T + 1)))).
Proof.
  unfold batchSize.
  induction fuel as [|fuel IH]; intros i acc Hfuel.
  - cbn [batchLoop ret fst]. rewrite range_empty by lia.
    cbn [map validResults flat_map]. rewrite app_nil_r. reflexivity.
  - cbn [batchLoop]. destruct (i <=? T) eqn:Ei.
    + apply Z.leb_le in Ei.
      pose proof (pdf_startBatch_promises env pdf
                    (range i (Z.min (i + batchSize) (T + 1)))) as Hp.
      destruct (startBatch env pdf _) as [effects promises].
      cbn [snd] in Hp. subst promises.
      rewrite fst_bind. cbn [tell fst cbind].
      rewrite fst_bind. cbn [lift fst].
      rewrite Promise_all_fulfilled. cbn [cbind].
      rewrite fst_bind, fst_notify. cbn [cbind].
      unfold batchSize. rewrite IH by lia.
      rewrite <- app_assoc, <- validResults_app, <- map_app.
      do 4 f_equal.
      destruct (Z.le_gt_cases (i + 5) (T + 1)) as [Hle|Hgt].
      * rewrite Z.min_l by lia. symmetry. apply range_app. lia.
      * rewrite Z.min_r by lia. rewrite (range_empty (i + 5)) by lia.
        apply app_nil_r.
    + apply Z.leb_gt in Ei. cbn [ret fst]. rewrite range_empty by lia.
      cbn [map validResults flat_map]. rewrite app_nil_r. reflexivity.
Qed.

Lemma pdf_batchLoop_log env pdf T :
  forall fuel i acc,
    progress_log
      (snd (batchLoop fuel env pdf (Some Route.onProgress) T i acc))
      (rasterPercents fuel T i).
Proof.
  induction fuel as [|fuel IH]; intros i acc;
    cbn [batchLoop rasterPercents]; [apply progress_log_nil|].
  destruct (i <=? T); [|apply progress_log_nil].
  pose proof (pdf_startBatch_promises env pdf
                (range i (Z.min (i + batchSize) (T + 1)))) as Hp.
  pose proof (pdf_startBatch_log env pdf
                (range i (Z.min (i + batchSize) (T + 1)))) as Hl.
  destruct (startBatch env pdf _) as [effects promises].
  cbn [fst snd] in Hp, Hl. subst promises.
  rewrite snd_bind. cbn [tell fst snd].
  apply (progress_log_app _ _ [] _); [exact Hl|].
  rewrite snd_bind. cbn [lift fst snd].
  rewrite Promise_all_fulfilled. cbn [app].
  rewrite snd_bind, fst_notify.
  apply (progress_log_app _ _ [_] _); [apply progress_log_notify|apply IH].
Qed.

(** The page numbers that come out of a batch are those whose
    conversion gave an image. *)
Lemma rasterized_pageNumbers env pdf js :
  map PDF.pageNumber (validResults (map (rasterized env pdf) js))
  = filter (fun j => negb (conversion_fails (secondConversion env pdf j))) js.
Proof.
  induction js as [|j js IH]; cbn [map validResults flat_map filter];
    [reflexivity|].
  fold (validResults (map (rasterized env pdf) js)).
  unfold rasterized at 1.
  destruct (secondConversion env pdf j) as [e|[buf|]]; cbn; rewrite IH;
    reflexivity.
Qed.

Lemma sorted_filter (f : Z -> bool) (l : list Z) :
  StronglySorted Z.lt l -> StronglySorted Z.lt (filter f l).
Proof.
  induction 1 as [|x l Hs IH Hx]; cbn [filter]; [constructor|].
  destruct (f x); [|exact IH]. constructor; [exact IH|].
  rewrite Forall_forall in *. intros y Hy. apply filter_In in Hy.
  apply Hx. tauto.
Qed.

Lemma sorted_by_keys {A} (key : A -> Z) (l : list A) :
  StronglySorted Z.lt (map key l) ->
  StronglySorted (fun a b => key a <= key b) l.
Proof.
  induction l as [|x l IH]; cbn [map]; intros H; [constructor|].
  inversion H as [|? ? Hs Hx]; subst. constructor; [apply IH, Hs|].
  rewrite Forall_forall in *. intros y Hy.
  specialize (Hx (key y) (in_map key _ _ Hy)). lia.
Qed.

(** 499 iterations are enough for the counting loop, and [totalPages]
    iterations for the batches: more fuel changes nothing. *)
Lemma countPages_fuel env pdf :
  forall fuel k i tp,
    501 - i <= Z.of_nat fuel ->
    countPages (fuel + k) env pdf i tp = countPages fuel env pdf i tp.
Proof.
  induction fuel as [|fuel IH]; intros k i tp Hfuel.
  - cbn [Nat.add countPages]. destruct k as [|k]; [reflexivity|].
    cbn [countPages].
    replace (i <=? 500) with false by (symmetry; apply Z.leb_gt; lia).
    reflexivity.
  - cbn [Nat.add countPages]. destruct (i <=? 500); [|reflexivity].
    destruct (firstConversion env pdf i); [reflexivity|].
    rewrite IH by lia. reflexivity.
Qed.

Lemma pdf_batchLoop_fuel env pdf cb T :
  forall fuel k i acc,
    T + 1 - i <= batchSize * Z.of_nat fuel ->
    batchLoop (fuel + k) env pdf cb T i acc
    = batchLoop fuel env pdf cb T i acc.
Proof.
  unfold batchSize.
  induction fuel as [|fuel IH]; intros k i acc Hfuel.
  - cbn [Nat.add batchLoop]. destruct k as [|k]; [reflexivity|].
    cbn [batchLoop].
    replace (i <=? T) with false by (symmetry; apply Z.leb_gt; lia).
    reflexivity.
  - cbn [Nat.add batchLoop]. destruct (i <=? T) eqn:Ei; [|reflexivity].
    apply Z.leb_le in Ei.
    destruct (startBatch env pdf _) as [effects promises].
    unfold bind, tell, lift.
    destruct (Promise_all _ promises) as [batchResults|e]; [|reflexivity].
    destruct (notify cb _ _) as [[u|e] l]; [|reflexivity].
    unfold batchSize. rewrite IH by lia. reflexivity.
Qed.

(** What the counting loop finds: every page up to the count converted,
    and the next one, if the ceiling of 500 was not reached, was
    rejected. *)
Lemma counted_spec env pdf :
  forall fuel i,
    Z.of_nat fuel = 501 - i ->
    (forall j, i <= j <= counted fuel env pdf i (i - 1) ->
               exists b, firstConversion env pdf j = ConvResolved b)
    /\ (counted fuel env pdf i (i - 1) < 500 ->
        exists e,
          firstConversion env pdf (counted fuel env pdf i (i - 1) + 1)
          = ConvRejected e).
Proof.
  induction fuel as [|fuel IH]; intros i Hfuel; cbn [counted].
  - split; [intros j Hj; lia | lia].
  - replace (i <=? 500) with true by (symmetry; apply Z.leb_le; lia).
    destruct (firstConversion env pdf i) as [e|b] eqn:Ei.
    + split; [intros j Hj; lia|]. intros _.
      replace (i - 1 + 1) with i by lia. exists e. exact Ei.
    + destruct (IH (i + 1)) as [Hall Hnext]; [lia|].
      replace (i + 1 - 1) with i in * by lia. split; [|exact Hnext].
      intros j Hj. destruct (Z.eq_dec j i) as [->|Hne].
      * exists b. exact Ei.
      * apply Hall. lia.
Qed.

End PDFFacts.

Section ConvertFacts.

Import PDFProcessor.

Variables (env : Env) (pdf : Buffer).

Lemma pageCount_range : 1 <= pageCount env pdf <= 500.
Proof. apply counted_bounds; lia. Qed.

Lemma rasterizedPages_pageNumbers :
  map PDF.pageNumber (rasterizedPages env pdf)
  = filter (fun j => negb (conversion_fails (secondConversion env pdf j)))
      (range 1 (pageCount env pdf + 1)).
Proof. apply rasterized_pageNumbers. Qed.

Lemma rasterizedPages_strictly_ascending :
  strictly_ascending (map PDF.pageNumber (rasterizedPages env pdf)).
Proof.
  unfold strictly_ascending. rewrite rasterizedPages_pageNumbers.
  apply sorted_filter, range_sorted.
Qed.

Lemma rasterizedPages_length :
  (length (rasterizedPages env pdf) <= Z.to_nat (pageCount env pdf))%nat.
Proof.
  rewrite <- (length_map PDF.pageNumber), rasterizedPages_pageNumbers.
  eapply Nat.le_trans; [apply filter_length_le|].
  rewrite range_length. lia.
Qed.

(** When the first conversion of page 1 gives no image, the whole
    conversion is rejected. *)
Lemma convert_rejected cb :
  conversion_fails (firstConversion env pdf 1) = true ->
  exists msg,
    fst (convertPDFToImages env pdf cb)
    = Throw (ErrorObj (lit "Failed to process PDF: " ++ msg)).
Proof.
  intros Hf. unfold convertPDFToImages. rewrite fst_catch.
  rewrite fst_bind, fst_notify. cbn [cbind].
  rewrite fst_bind, fst_notify. cbn [cbind].
  rewrite fst_bind. cbn [tell fst cbind]. rewrite fst_bind.
  destruct (firstConversion env pdf 1) as [e|[buf|]]; try discriminate;
    cbn [throw ret fst cbind].
  - eexists. reflexivity.
  - rewrite fst_bind. cbn [throw fst cbind]. eexists. reflexivity.
Qed.

Lemma convert_rejected_log :
  conversion_fails (firstConversion env pdf 1) = true ->
  progress_log (snd (convertPDFToImages env pdf (Some Route.onProgress)))
    [10; 20].
Proof.
  intros Hf. unfold convertPDFToImages. rewrite snd_catch.
  rewrite <- (app_nil_r [10; 20]). apply progress_log_app.
  - rewrite snd_bind, fst_notify.
    apply (progress_log_app _ _ [_] [_]); [apply progress_log_notify|].
    rewrite snd_bind, fst_notify. rewrite <- (app_nil_r [20]).
    apply (progress_log_app _ _ [_] []); [apply progress_log_notify|].
    rewrite snd_bind. cbn [tell fst snd].
    apply (progress_log_app [_] _ [] []); [apply progress_log_convert|].
    rewrite snd_bind.
    destruct (firstConversion env pdf 1) as [e|[buf|]]; try discriminate;
      cbn [throw ret fst snd app]; [apply progress_log_nil|].
    rewrite snd_bind. cbn [throw fst snd app]. apply progress_log_nil.
  - destruct (fst _); [apply progress_log_nil|]. cbn [throw snd].
    apply progress_log_nil.
Qed.

(** Otherwise it fulfils, with the counted pages whose second conversion
    gave an image, in page order. *)
Lemma convert_fulfilled cb :
  conversion_fails (firstConversion env pdf 1) = false ->
  fst (convertPDFToImages env pdf cb) = Normal (rasterizedPages env pdf).
Proof.
  intros Hf. pose proof pageCount_range as HT.
  pose proof rasterizedPages_strictly_ascending as Hs.
  unfold rasterizedPages, pageCount in *.
  unfold convertPDFToImages. rewrite fst_catch.
  rewrite fst_bind, fst_notify. cbn [cbind].
  rewrite fst_bind, fst_notify. cbn [cbind].
  rewrite fst_bind. cbn [tell fst cbind]. rewrite fst_bind.
  destruct (firstConversion env pdf 1) as [e|[buf|]]; try discriminate.
  cbn [ret fst cbind]. rewrite fst_bind. cbn [ret fst cbind].
  rewrite fst_bind, countPages_value. cbn [cbind].
  rewrite fst_bind, fst_notify. cbn [cbind].
  rewrite fst_bind, pdf_batchLoop_value by (unfold batchSize; lia).
  cbn [cbind app]. rewrite fst_bind, fst_notify. cbn [cbind ret fst].
  f_equal. apply sort_by_id, sorted_by_keys, Hs.
Qed.

Lemma convert_fulfilled_log :
  conversion_fails (firstConversion env pdf 1) = false ->
  progress_log (snd (convertPDFToImages env pdf (Some Route.onProgress)))
    ([10; 20; 30]
     ++ rasterPercents (Z.to_nat (pageCount env pdf)) (pageCount env pdf) 1
     ++ [85]).
Proof.
  intros Hf. pose proof pageCount_range as HT. unfold pageCount in *.
  unfold convertPDFToImages. rewrite snd_catch.
  rewrite <- (app_nil_r (_ ++ _ ++ [85])). apply progress_log_app.
  - rewrite snd_bind, fst_notify.
    apply (progress_log_app _ _ [_] _); [apply progress_log_notify|].
    rewrite snd_bind, fst_notify.
    apply (progress_log_app _ _ [_] _); [apply progress_log_notify|].
    rewrite snd_bind. cbn [tell fst snd].
    apply (progress_log_app [_] _ [] _); [apply progress_log_convert|].
    rewrite snd_bind.
    destruct (firstConversion env pdf 1) as [e|[buf|]]; try discriminate.
    cbn [ret fst snd app]. rewrite snd_bind. cbn [ret fst snd app].
    rewrite snd_bind, countPages_value.
    apply (progress_log_app _ _ [] _); [apply countPages_log|].
    rewrite snd_bind, fst_notify.
    apply (progress_log_app _ _ [_] _); [apply progress_log_notify|].
    rewrite snd_bind, pdf_batchLoop_value by (unfold batchSize; lia).
    apply progress_log_app; [apply pdf_batchLoop_log|].
    rewrite snd_bind, fst_notify. cbn [ret snd]. rewrite app_nil_r.
    apply progress_log_notify.
  - destruct (fst _); [apply progress_log_nil|]. cbn [throw snd].
    apply progress_log_nil.
Qed.

End ConvertFacts.

(* ================================================================= *)
(** ** Facts about the route *)

Section RouteFacts.

Import Route.

Variables (env : Env) (pdf : Buffer).

(** A rejected rasterization: the progress frames so far, one error
    frame, and the stream is closed. *)
Lemma processOCR_rejected :
  conversion_fails (firstConversion env pdf 1) = true ->
  fst (processOCR env pdf) = Normal tt
  /\ exists pre msg,
       snd (processOCR env pdf) = pre ++ [Emit (EvError msg); Close]
       /\ progress_log pre [0; 10; 20].
Proof.
  intros Hf.
  destruct (convert_rejected env pdf (Some onProgress) Hf) as [msg Hv].
  pose proof (convert_rejected_log env pdf Hf) as Hl.
  unfold processOCR. rewrite fst_catch, snd_catch.
  rewrite fst_bind. cbn [tell fst cbind]. rewrite fst_bind, Hv.
  cbn [cbind tell fst snd message_or]. split; [reflexivity|].
  exists ([Emit (EvProgress 0 (lit "Starting PDF processing"))]
          ++ snd (PDFProcessor.convertPDFToImages env pdf (Some onProgress))).
  eexists. split.
  - rewrite snd_bind. cbn [tell fst snd]. rewrite snd_bind, Hv.
    rewrite app_nil_r. reflexivity.
  - apply (progress_log_app [_] _ [0] _); [apply progress_log_emit|exact Hl].
Qed.

(** A fulfilled rasterization: the frames of the rasterization phase,
    then either the error frame for an empty result, or the frames of
    the recognition phase and the complete frame; the stream is closed
    right after. *)
Lemma processOCR_fulfilled :
  conversion_fails (firstConversion env pdf 1) = false ->
  fst (processOCR env pdf) = Normal tt
  /\ exists pre,
       progress_log pre (rasterPhase (pageCount env pdf))
       /\ ((rasterizedPages env pdf = []
            /\ snd (processOCR env pdf)
               = pre ++ [Emit (EvError
                                 (lit "No pages could be processed from the PDF"));
                         Close])
           \/ (rasterizedPages env pdf <> []
               /\ exists r ocr,
                    fst (OCRService.processPages env (rasterizedPages env pdf)
                           (Some onProgress))
                    = Normal r
                    /\ progress_log ocr
                         (ocrPhase (length (rasterizedPages env pdf)))
                    /\ snd (processOCR env pdf)
                       = pre ++ ocr ++ [Emit (EvComplete r); Close])).
Proof.
  intros Hf.
  pose proof (convert_fulfilled env pdf (Some onProgress) Hf) as Hv.
  pose proof (convert_fulfilled_log env pdf Hf) as Hl.
  generalize dependent (rasterizedPages env pdf). intros images Hv.
  destruct (processPages_value env images (Some onProgress))
    as (r & Hr & _).
  pose proof (processPages_log env images) as Ho.
  unfold processOCR. rewrite fst_catch, snd_catch.
  rewrite fst_bind. cbn [tell fst cbind]. rewrite fst_bind, Hv.
  cbn [cbind]. rewrite snd_bind. cbn [tell fst snd].
  rewrite snd_bind, Hv.
  assert (Hpre : progress_log
            ([Emit (EvProgress 0 (lit "Starting PDF processing"))]
             ++ snd (PDFProcessor.convertPDFToImages env pdf
                       (Some onProgress)))
            (rasterPhase (pageCount env pdf))).
  { apply (progress_log_app [_] _ [0] _); [apply progress_log_emit|].
    exact Hl. }
  destruct images as [|p rest].
  - cbn [length Nat.eqb tell fst snd]. split; [reflexivity|].
    eexists. split; [exact Hpre|]. left. split; [reflexivity|].
    rewrite app_nil_r, <- app_assoc. reflexivity.
  - cbn [length Nat.eqb]. rewrite fst_bind, Hr. cbn [cbind tell fst].
    split; [reflexivity|].
    eexists. split; [exact Hpre|]. right. split; [discriminate|].
    exists r, (snd (OCRService.processPages env (p :: rest)
                      (Some onProgress))).
    split; [reflexivity|]. split; [exact Ho|].
    rewrite snd_bind, Hr. cbn [tell snd].
    rewrite app_nil_r, <- !app_assoc. reflexivity.
Qed.

End RouteFacts.

(** *** The percentages, for every page count the rasterizer can report *)






(* ================================================================= *)
(** ** The confidence heuristic *)

Section Confidence.

Import OCRService.

(** X1.  Whatever the text, the score [calculateConfidence] returns lies
    in [0, 1]. *)
Lemma calculateConfidence_unit_interval (text : jsstring) :
  PrimFloat.leb 0 (calculateConfidence text) = true
  /\ PrimFloat.leb (calculateConfidence text) 1 = true.
Proof.
  unfold calculateConfidence.
  repeat match goal with
         | |- context [if ?c then _ else _] => destruct c
         end; vm_compute; split; reflexivity.
Qed.

Lemma truthy_count (text : jsstring) (r : regex) :
  truthy_num (opt_length (match_g text r))
  = (0 <? count_matches text r)%nat.
Proof.
  unfold count_matches, opt_length.
  destruct (match_g text r) as [[|m ms]|]; reflexivity.
Qed.

(** X2.  The code and the specification's wording give the same score
    unless the text has one, two or three capitalized words. *)
Lemma calculateConfidence_reference (text : jsstring) :
  count_matches text capitalizedRe = 0%nat
  \/ (3 < count_matches text capitalizedRe)%nat ->
  calculateConfidence text = referenceConfidence text.
Proof.
  intros H. unfold calculateConfidence, referenceConfidence.
  rewrite !truthy_count.
  replace (0 >? 0) with false by reflexivity.
  replace (0 >? 3) with false by reflexivity.
  rewrite !orb_false_r.
  replace (0 <? count_matches text capitalizedRe)%nat
    with (3 <? count_matches text capitalizedRe)%nat; [reflexivity|].
  destruct H as [-> | H]; [reflexivity|].
  transitivity true; [|symmetry]; apply Nat.ltb_lt; lia.
Qed.

(** C1 (the code departs from the claim).  The claim: [calculateConfidence]
    computes the reference heuristic, whose capitalized-word bonus of 0.05
    requires more than 3 capitalized words.  On the text ["Hello"] (one
    capitalized word, 5 characters) the code grants the bonus: it returns
    0.7 + 0.05 - 0.2, where the reference heuristic gives 0.7 - 0.2. *)
Theorem calculateConfidence_one_capitalized_word :
  calculateConfidence (lit "Hello") = (0.7 + 0.05 - 0.2)%float
  /\ referenceConfidence (lit "Hello") = (0.7 - 0.2)%float
  /\ PrimFloat.ltb (referenceConfidence (lit "Hello"))
                   (calculateConfidence (lit "Hello")) = true.
Proof. vm_compute. repeat split; reflexivity. Qed.

End Confidence.

(* ================================================================= *)
(** ** The recognition client *)

Section Recognition.

Import OCRService.

Lemma includes_prefix (p rest : jsstring) : includes (p ++ rest) p = true.
Proof.
  assert (H : startsWith (p ++ rest) p = true).
  { induction p as [|c p IH]; simpl; [reflexivity|].
    rewrite N.eqb_refl. exact IH. }
  destruct (p ++ rest); simpl in *; rewrite H; reflexivity.
Qed.

Lemma startsWith_app (s p q : jsstring) :
  startsWith s (p ++ q) = true -> startsWith s p = true.
Proof.
  revert s; induction p as [|c p IH]; intros s; simpl; [reflexivity|].
  destruct s as [|d s]; [discriminate|].
  intros H. apply andb_true_iff in H. destruct H as [H1 H2].
  rewrite H1. simpl. apply IH, H2.
Qed.

Lemma placeholder_marker (n : Z) (message : jsstring) :
  includes (placeholder n message) (lit "[Error processing page") = true.
Proof.
  unfold placeholder.
  change (lit "[Error processing page ")
    with (lit "[Error processing page" ++ lit " ").
  rewrite <- app_assoc. apply includes_prefix.
Qed.

(** What a failed call raises inside [processImage]. *)
Lemma recognize_failure (o : FetchOutcome) (n : Z) :
  call_fails o = true ->
  exists e,
    recognize o n = Throw e
    /\ message_or (lit "Unknown error") e = failure_message o.
Proof.
  destruct o as [e|status statusText body]; simpl.
  - intros _. exists e. split; reflexivity.
  - destruct (negb (response_ok status)); simpl.
    + intros _. eexists. split; reflexivity.
    + destruct body as [data|e]; [discriminate|].
      intros _. exists e. split; reflexivity.
Qed.

Lemma pageResult_failure (o : FetchOutcome) (n : Z) :
  call_fails o = true ->
  pageResult o n = mkOCRPage n (placeholder n (failure_message o)) 0.
Proof.
  intros H. destruct (recognize_failure o n H) as (e & He & Hm).
  unfold pageResult. rewrite He, Hm. reflexivity.
Qed.

Lemma get_name_defined (data : json) (name : jsstring) :
  data <> JNull -> get_name data name = Normal (opt_name (Some data) name).
Proof. destruct data; intros H; try reflexivity. contradiction. Qed.

Lemma or_else_falsy (v : option json) (fallback : json) :
  falsy v = true -> or_else v fallback = fallback.
Proof.
  destruct v as [v|]; intros H; [|reflexivity].
  cbn [or_else]. rewrite H. reflexivity.
Qed.

Lemma or_else_truthy (v : json) (fallback : json) :
  falsy (Some v) = false -> or_else (Some v) fallback = v.
Proof. intros H. cbn [or_else]. rewrite H. reflexivity. Qed.

(** What [processImage] settles with on an answer that was received with
    a success status and parsed. *)
Lemma pageResult_parsed (status : Z) (statusText : jsstring) (data : json)
  (n : Z) :
  response_ok status = true ->
  data <> JNull ->
  pageResult (FetchResolved status statusText (Normal data)) n
  = match or_else (content_of data) (JStr []) with
    | JStr text => mkOCRPage n (trim text) (calculateConfidence text)
    | _ => mkOCRPage n
             (placeholder n (not_a_function_message (lit "text.match"))) 0
    end.
Proof.
  intros Hok Hd. unfold pageResult, recognize. rewrite Hok.
  cbn [negb cbind]. rewrite (get_name_defined data _ Hd). cbn [cbind].
  fold (content_of data).
  destruct (or_else (content_of data) (JStr [])); reflexivity.
Qed.

(** C3 (as amended).  [processImage] never rejects.  When the call
    fails (the request is rejected, the status is not a success, or the
    body is not JSON) it fulfils with the page number, the text
    "[Error processing page <n>: <message>]" (which contains
    "[Error processing page") and confidence 0.  An answer that was
    received with a success status and parsed gives that placeholder too
    when the body is [null] (reading [choices] raises a TypeError) or when
    its [choices[0].message.content] is a value other than a string that
    is not falsy ([text.match] is not a function).  But a body that
    merely carries no content (absent, [null], empty) is not a failure
    for the code: the page has the empty text and the score of the empty
    text, 0.7 - 0.2; and a content that is a string gives that string
    trimmed, with its score. *)
Theorem processImage_absorbs_failures
  (api : jsstring -> Z -> FetchOutcome) (imageBase64 : jsstring)
  (pageNumber : Z) :
  (exists page, fst (processImage api imageBase64 pageNumber) = Normal page)
  /\ (call_fails (api imageBase64 pageNumber) = true ->
      fst (processImage api imageBase64 pageNumber)
      = Normal (mkOCRPage pageNumber
                  (placeholder pageNumber
                     (failure_message (api imageBase64 pageNumber)))
                  0)
      /\ includes
           (placeholder pageNumber
              (failure_message (api imageBase64 pageNumber)))
           (lit "[Error processing page") = true)
  /\ (forall status statusText data,
        api imageBase64 pageNumber
        = FetchResolved status statusText (Normal data) ->
        response_ok status = true ->
        (data = JNull ->
         fst (processImage api imageBase64 pageNumber)
         = Normal (mkOCRPage pageNumber
                     (placeholder pageNumber
                        (null_property_message (lit "choices")))
                     0))
        /\ (forall v,
              content_of data = Some v ->
              falsy (Some v) = false -> is_text v = false ->
              fst (processImage api imageBase64 pageNumber)
              = Normal (mkOCRPage pageNumber
                          (placeholder pageNumber
                             (not_a_function_message (lit "text.match")))
                          0))
        /\ (data <> JNull -> falsy (content_of data) = true ->
            fst (processImage api imageBase64 pageNumber)
            = Normal (mkOCRPage pageNumber [] (0.7 - 0.2)))
        /\ (forall text,
              content_of data = Some (JStr text) ->
              fst (processImage api imageBase64 pageNumber)
              = Normal (mkOCRPage pageNumber (trim text)
                          (calculateConfidence text)))).
Proof.
  rewrite processImage_value. split; [eexists; reflexivity|]. split.
  - intros H. rewrite (pageResult_failure _ _ H).
    split; [reflexivity | apply placeholder_marker].
  - intros status statusText data Ha Hok. rewrite Ha.
    split; [|split; [|split]].
    + intros ->. unfold pageResult, recognize. rewrite Hok. reflexivity.
    + intros v Hc Hf Ht.
      assert (Hd : data <> JNull) by (intros ->; discriminate Hc).
      rewrite (pageResult_parsed _ _ _ _ Hok Hd), Hc, (or_else_truthy _ _ Hf).
      destruct v; try reflexivity. discriminate Ht.
    + intros Hd Hf.
      rewrite (pageResult_parsed _ _ _ _ Hok Hd), (or_else_falsy _ _ Hf).
      reflexivity.
    + intros text Hc.
      assert (Hd : data <> JNull) by (intros ->; discriminate Hc).
      rewrite (pageResult_parsed _ _ _ _ Hok Hd), Hc.
      destruct text as [|c text]; reflexivity.
Qed.

Lemma processImage_absorbs_failures_witness :
  fst (processImage (recognition sampleEnv 0) (toBase64 []) 7)
  = Normal (mkOCRPage 7
              (lit "[Error processing page 7: OCR API request failed: 503 Service Unavailable]")
              0).
Proof.
  exact (proj1 (proj1 (proj2 (processImage_absorbs_failures
                                (recognition sampleEnv 0) (toBase64 []) 7))
                  eq_refl)).
Defined.

(** C3 (as worded) fails: a body that parses but carries no
    [choices[0].message.content], a malformed response, gives the empty
    text with confidence 0.7 - 0.2, not the placeholder with
    confidence 0. *)
Lemma processImage_body_without_text :
  fst (processImage
         (fun _ _ => FetchResolved 200 (lit "OK")
                       (Normal (JObj [(lit "error", JStr (lit "overloaded"))])))
         [] 4)
  = Normal (mkOCRPage 4 [] (0.7 - 0.2))
  /\ ~ absorbs_every_failure
         (fun _ _ => FetchResolved 200 (lit "OK")
                       (Normal (JObj [(lit "error", JStr (lit "overloaded"))])))
         [] 4.
Proof.
  split; [reflexivity|].
  intros H. destruct H as (message & Hp & _); [reflexivity|].
  apply Normal_inj in Hp.
  apply (f_equal confidence) in Hp. cbn [confidence] in Hp.
  vm_compute in Hp. discriminate Hp.
Qed.

(** A body that is JSON but carries no text is not a failure: the page
    is empty, with the confidence of the empty text. *)
Example processImage_empty_body :
  fst (processImage
         (fun _ _ => FetchResolved 200 (lit "OK") (Normal (JObj [])))
         [] 1)
  = Normal (mkOCRPage 1 [] (0.7 - 0.2)).
Proof. vm_compute. reflexivity. Qed.

End Recognition.

(* ================================================================= *)
(** ** The document result *)

Section DocumentResult.

Import OCRService.


Lemma resultsFrom_latency env latency k l :
  resultsFrom (with_fetchLatency env latency) k l = resultsFrom env k l.
Proof.
  revert k; induction l as [|p l IH]; intros k; simpl; [reflexivity|].
  rewrite IH. reflexivity.
Qed.

Lemma join_three (sep a b c : jsstring) :
  join sep [a; b; c] = a ++ sep ++ b ++ sep ++ c.
Proof. reflexivity. Qed.

(** The result of [processPages], field by field. *)
Lemma processPages_result env imgs cb :
  fst (processPages env imgs cb)
  = Normal
      (let ps := sort_by pageNumber (resultsFrom env 0 imgs) in
       mkOCRResult
         (lit "ocr_" ++ Z_toString (startTime env) ++ lit "_"
          ++ randomSuffix env)
         ps (join pageBreak (map extractedText ps)) (length ps)
         (endTime env - startTime env)
         (PrimFloat.div
            (fold_left (fun sum p => PrimFloat.add sum (confidence p)) ps
               0%float)
            (of_nat (length ps)))).
Proof.
  unfold processPages.
  rewrite fst_bind, fst_notify. cbn [cbind].
  rewrite fst_bind, batchLoop_value by (unfold batchSize; lia).
  cbn [cbind app skipn].
  rewrite fst_bind, fst_notify. cbn [cbind].
  rewrite fst_bind, fst_notify. reflexivity.
Qed.

(** C4 (as amended).  Whatever the order in which the recognition calls
    complete, [processPages] fulfils with pages in ascending order of
    page number, strictly ascending when the page numbers of the input
    are pairwise distinct; the page numbers are those of the inputs,
    rearranged; [fullText] is the pages' texts in that order joined by the
    page-break separator, which therefore stands exactly twice between
    the texts of a three-page result. *)
Theorem processPages_sorted_and_joined
  (env : Env) (imageBuffers : list PDF.ProcessedPage)
  (onProgress : option Callback) :
  exists r,
    (forall latency,
       fst (processPages (with_fetchLatency env latency) imageBuffers
              onProgress) = Normal r)
    /\ fst (processPages env imageBuffers onProgress) = Normal r
    /\ ascending (map pageNumber (pages r))
    /\ (NoDup (map PDF.pageNumber imageBuffers) ->
        strictly_ascending (map pageNumber (pages r)))
    /\ Permutation (map pageNumber (pages r))
                   (map PDF.pageNumber imageBuffers)
    /\ fullText r = join pageBreak (map extractedText (pages r))
    /\ (forall a b c,
          map extractedText (pages r) = [a; b; c] ->
          fullText r = a ++ pageBreak ++ b ++ pageBreak ++ c).
Proof.
  eexists. split.
  { intros latency. rewrite processPages_result.
    cbn [with_fetchLatency startTime endTime randomSuffix].
    rewrite resultsFrom_latency. reflexivity. }
  split; [apply processPages_result|].
  cbn [pages fullText].
  assert (Hs : ascending
                 (map pageNumber
                    (sort_by pageNumber (resultsFrom env 0 imageBuffers)))).
  { apply sorted_keys, sort_by_sorted. }
  assert (Hp : Permutation
                 (sort_by pageNumber (resultsFrom env 0 imageBuffers))
                 (resultsFrom env 0 imageBuffers)).
  { apply sort_by_perm. }
  assert (Hn : Permutation
                 (map pageNumber
                    (sort_by pageNumber (resultsFrom env 0 imageBuffers)))
                 (map PDF.pageNumber imageBuffers)).
  { rewrite <- (resultsFrom_pageNumbers env 0). apply Permutation_map, Hp. }
  split; [exact Hs|]. split.
  - intros Hnd. apply sorted_nodup_strict; [exact Hs|].
    eapply Permutation_NoDup; [|exact Hnd]. apply Permutation_sym, Hn.
  - split; [exact Hn|]. split; [reflexivity|].
    intros a b c ->. apply join_three.
Qed.

Lemma processPages_sorted_and_joined_witness :
  exists r,
    fst (processPages sampleEnv [page 2; page 1; page 3] None) = Normal r
    /\ map pageNumber (pages r) = [1; 2; 3]
    /\ strictly_ascending (map pageNumber (pages r)).
Proof.
  destruct (processPages_sorted_and_joined sampleEnv
              [page 2; page 1; page 3] None)
    as (r & _ & Hr & _ & Hstrict & _).
  exists r. split; [exact Hr|]. split.
  - rewrite processPages_result in Hr. inversion Hr. reflexivity.
  - apply Hstrict. repeat constructor; simpl; intuition discriminate.
Defined.

(** C4 (as worded) fails: with the same page number twice in the
    input, the pages of the result are not strictly ascending. *)
Lemma processPages_duplicate_page_numbers :
  ~ always_strictly_sorted sampleEnv [page 1; page 1].
Proof.
  intros H. destruct H as (r & Hr & Hs); [discriminate|].
  rewrite processPages_result in Hr. inversion Hr; subst r; clear Hr.
  cbn in Hs. inversion Hs as [|? ? _ Hall]; subst.
  inversion Hall as [|? ? Hlt _]; subst. lia.
Qed.



(** C7.  For a non-empty input, [metadata.averageConfidence] is the mean
    of the confidences of the pages of the result: their sum, taken from
    left to right, divided by their number (a non-zero number), each
    operation rounded as binary64 arithmetic rounds it. *)
Theorem processPages_average_confidence
  (env : Env) (imageBuffers : list PDF.ProcessedPage)
  (onProgress : option Callback) :
  imageBuffers <> [] ->
  exists r,
    fst (processPages env imageBuffers onProgress) = Normal r
    /\ pages r <> []
    /\ averageConfidence r = mean (map confidence (pages r)).
Proof.
  intros Hne. eexists. split; [apply processPages_result|].
  cbn [pages averageConfidence]. split.
  - intros Hnil. apply Hne. apply length_zero_iff_nil.
    rewrite <- (resultsFrom_length env 0), <- (sort_by_length pageNumber).
    rewrite Hnil. reflexivity.
  - unfold mean. rewrite length_map, mean_fold. reflexivity.
Qed.

Lemma processPages_average_confidence_witness :
  exists r,
    fst (processPages flakyEnv [page 2; page 1] None) = Normal r
    /\ averageConfidence r
       = ((0 + (0.7 + 0.05 - 0.2) + (0.7 + 0.05 - 0.2)) / 2)%float.
Proof.
  destruct (processPages_average_confidence flakyEnv [page 2; page 1] None)
    as (r & Hr & _ & Havg); [discriminate|].
  exists r. split; [exact Hr|]. rewrite Havg.
  rewrite processPages_result in Hr. injection Hr as <-.
  vm_compute. reflexivity.
Defined.

End DocumentResult.

(* ================================================================= *)
(** ** The progress channel *)

Section Channel.

Import Route.

Lemma quiet_events (log : list Effect) :
  forallb quiet log = true -> forallb is_progress (events log) = true.
Proof.
  induction log as [|x log IH]; simpl; [reflexivity|].
  intros H. apply andb_true_iff in H. destruct H as [Hx Hl].
  destruct x; simpl in *; try (apply IH, Hl); try discriminate.
  rewrite Hx. apply IH, Hl.
Qed.

Lemma progress_not_complete (evs : list Event) (r : OCRResult) :
  forallb is_progress evs = true -> ~ In (EvComplete r) evs.
Proof.
  intros H Hin. rewrite forallb_forall in H. specialize (H _ Hin).
  discriminate.
Qed.

Lemma events_terminal (pre : list Effect) (t : Event) :
  events (pre ++ [Emit t; Close]) = events pre ++ [t].
Proof. rewrite events_app. reflexivity. Qed.

(** C5.  [processOCR] never rejects, and whatever the collaborators do,
    its effects are: progress frames and calls to the collaborators, then
    exactly one terminal frame (complete or error), then the closing of
    the stream, and nothing after.  When the rasterization fulfils with
    no page, that terminal frame is the error frame "No pages could be
    processed from the PDF" (so no complete frame is sent). *)
Theorem processOCR_single_terminal (env : Env) (pdfBuffer : Buffer) :
  fst (processOCR env pdfBuffer) = Normal tt
  /\ exists pre t,
       snd (processOCR env pdfBuffer) = pre ++ [Emit t; Close]
       /\ forallb quiet pre = true
       /\ is_terminal t = true
       /\ (fst (PDFProcessor.convertPDFToImages env pdfBuffer
                  (Some onProgress)) = Normal [] ->
           t = EvError (lit "No pages could be processed from the PDF")).
Proof.
  destruct (conversion_fails (firstConversion env pdfBuffer 1)) eqn:Hf.
  - destruct (processOCR_rejected env pdfBuffer Hf)
      as (Hv & pre & msg & Hlog & Hq & _).
    destruct (convert_rejected env pdfBuffer (Some onProgress) Hf)
      as [m Hm].
    split; [exact Hv|]. exists pre, (EvError msg).
    repeat split; try assumption. rewrite Hm. discriminate.
  - destruct (processOCR_fulfilled env pdfBuffer Hf)
      as (Hv & pre & [Hq _] & Hcase).
    pose proof (convert_fulfilled env pdfBuffer (Some onProgress) Hf) as Hc.
    split; [exact Hv|].
    destruct Hcase as [[Hnil Hlog] | (Hne & r & ocr & _ & [Ho _] & Hlog)].
    + exists pre, (EvError (lit "No pages could be processed from the PDF")).
      repeat split; assumption.
    + exists (pre ++ ocr), (EvComplete r). rewrite <- app_assoc.
      split; [exact Hlog|]. split.
      { rewrite forallb_app, Hq, Ho. reflexivity. }
      split; [reflexivity|].
      rewrite Hc. intros H. exfalso. apply Hne, (Normal_inj _ _ H).
Qed.

Lemma processOCR_single_terminal_witness :
  exists pre,
    snd (processOCR blankEnv [])
    = pre ++ [Emit (EvError (lit "No pages could be processed from the PDF"));
              Close].
Proof.
  destruct (processOCR_single_terminal blankEnv [])
    as (_ & pre & t & Hlog & _ & _ & Hzero).
  exists pre. rewrite Hlog, Hzero; [reflexivity|].
  vm_compute. reflexivity.
Defined.






End Channel.

(* ================================================================= *)
(** ** Rasterization failures *)

Section Rasterization.

Import PDFProcessor.

Lemma rasterized_None env pdf j :
  rasterized env pdf j = None
  <-> conversion_fails (secondConversion env pdf j) = true.
Proof.
  unfold rasterized, conversion_fails.
  destruct (secondConversion env pdf j) as [e|[buf|]]; split;
    intros H; try reflexivity; discriminate.
Qed.

(** C10 (as amended).  [convertPDFToImages] is rejected exactly when the
    first conversion of page 1, the one made before the pages are
    counted, is rejected or gives no buffer.  In [processPage] a failed
    conversion of any page, page 1 included, gives [null]; and when
    [convertPDFToImages] fulfils, its pages are exactly the counted pages
    whose conversion in [processPage] gave an image, in page order: the
    others are left out without any error. *)
Theorem convertPDFToImages_failures
  (env : Env) (pdfBuffer : Buffer) (onProgress : option Callback) :
  ((exists e, fst (convertPDFToImages env pdfBuffer onProgress) = Throw e)
   <-> conversion_fails (firstConversion env pdfBuffer 1) = true)
  /\ (forall j,
        fst (processPage env pdfBuffer j) = Normal None
        <-> conversion_fails (secondConversion env pdfBuffer j) = true)
  /\ (forall images,
        fst (convertPDFToImages env pdfBuffer onProgress) = Normal images ->
        map PDF.pageNumber images
        = filter
            (fun j =>
               negb (conversion_fails (secondConversion env pdfBuffer j)))
            (range 1 (pageCount env pdfBuffer + 1))).
Proof.
  split; [|split].
  - split.
    + intros [e He].
      destruct (conversion_fails (firstConversion env pdfBuffer 1)) eqn:Hf;
        [reflexivity|].
      rewrite (convert_fulfilled env pdfBuffer onProgress Hf) in He.
      discriminate.
    + intros Hf.
      destruct (convert_rejected env pdfBuffer onProgress Hf) as [msg Hm].
      eexists. exact Hm.
  - intros j. rewrite processPage_value, <- rasterized_None. split.
    + intros H. exact (Normal_inj _ _ H).
    + intros ->. reflexivity.
  - intros images Hi.
    destruct (conversion_fails (firstConversion env pdfBuffer 1)) eqn:Hf.
    + destruct (convert_rejected env pdfBuffer onProgress Hf) as [msg Hm].
      rewrite Hm in Hi. discriminate.
    + rewrite (convert_fulfilled env pdfBuffer onProgress Hf) in Hi.
      rewrite <- (Normal_inj _ _ Hi). apply rasterizedPages_pageNumbers.
Qed.

Lemma convertPDFToImages_failures_witness :
  fst (processPage flakyEnv [] 1) = Normal None
  /\ map PDF.pageNumber [page 2] = [2].
Proof.
  destruct (convertPDFToImages_failures flakyEnv [] None)
    as (_ & Hnull & Hpages).
  split.
  - apply Hnull. reflexivity.
  - rewrite (Hpages [page 2]); [|vm_compute; reflexivity].
    vm_compute. reflexivity.
Defined.

(** C10 (as worded) fails: page 1 converts when the pages are counted
    but not in [processPage]; nothing is rejected, and the document goes
    on without its first page. *)
Lemma page1_failure_in_processPage :
  conversion_fails (secondConversion flakyEnv [] 1) = true
  /\ fst (convertPDFToImages flakyEnv [] None) = Normal [page 2]
  /\ ~ aborts_iff_page1_fails flakyEnv [].
Proof.
  split; [reflexivity|]. split; [vm_compute; reflexivity|].
  intros [_ H]. destruct H as [e He]; [right; reflexivity|].
  vm_compute in He. discriminate.
Qed.

(** The pages that come out need not be contiguous. *)
Example convertPDFToImages_gap :
  fst (convertPDFToImages gapEnv [] None) = Normal [page 1; page 3].
Proof. vm_compute. reflexivity. Qed.

End Rasterization.

(* ================================================================= *)
(** ** Validation of the upload *)

Section Validation.

Import PDFProcessor Route.

Lemma to_N_inj (a b : byte) : Byte.to_N a = Byte.to_N b -> a = b.
Proof.
  intros H. pose proof (Byte.of_to_N a) as Ha.
  rewrite H, Byte.of_to_N in Ha. congruence.
Qed.

Lemma jsstring_eqb_eq (a b : jsstring) : jsstring_eqb a b = true <-> a = b.
Proof.
  unfold jsstring_eqb. split.
  - revert b; induction a as [|c a IH]; intros [|d b] H; simpl in *;
      try reflexivity; try discriminate.
    apply andb_true_iff in H. destruct H as [Hl H].
    apply andb_true_iff in H. destruct H as [Hc H].
    apply N.eqb_eq in Hc. subst d. f_equal. apply IH.
    rewrite Hl, H. reflexivity.
  - intros <-. induction a as [|c a IH]; simpl; [reflexivity|].
    apply andb_true_iff in IH. destruct IH as [Hl H].
    rewrite Hl, N.eqb_refl, H. reflexivity.
Qed.

Ltac split_ifs :=
  repeat match goal with
         | |- context [if ?c then _ else _] => destruct c eqn:?
         end.

(** The first code unit decoded from a buffer is its first byte when
    that byte is ASCII, and is not ASCII otherwise. *)
Lemma utf8_decode_ascii (b : byte) (rest : Buffer) :
  (Byte.to_N b < 128)%N ->
  utf8_decode (b :: rest) = Byte.to_N b :: utf8_decode rest.
Proof.
  intros H. cbn [utf8_decode]. apply N.ltb_lt in H. rewrite H. reflexivity.
Qed.

Lemma utf8_decode_non_ascii (b : byte) (rest : Buffer) :
  (128 <= Byte.to_N b)%N ->
  exists c cs, utf8_decode (b :: rest) = c :: cs /\ (128 <= c)%N.
Proof.
  intros H. cbn [utf8_decode].
  assert (Hlt : (Byte.to_N b <? 128)%N = false) by (apply N.ltb_ge; exact H).
  rewrite Hlt. unfold continuation, code_units. cbv zeta.
  destruct (Byte.to_N b =? 224)%N eqn:E224;
    destruct (Byte.to_N b =? 237)%N eqn:E237;
    destruct (Byte.to_N b =? 240)%N eqn:E240;
    destruct (Byte.to_N b =? 244)%N eqn:E244;
    destruct rest as [|x1 [|x2 [|x3 rest]]];
    split_ifs;
    repeat match goal with
           | H : (_ && _)%bool = true |- _ =>
               apply andb_true_iff in H; destruct H
           | H : (_ <=? _)%N = true |- _ => apply N.leb_le in H
           | H : (_ =? _)%N = true |- _ => apply N.eqb_eq in H
           | H : (_ =? _)%N = false |- _ => apply N.eqb_neq in H
           | H : (_ <? _)%N = true |- _ => apply N.ltb_lt in H
           | H : (_ <? _)%N = false |- _ => apply N.ltb_ge in H
           end;
    cbn [app]; eexists; eexists; (split; [reflexivity|]);
    first [lia | apply N.le_trans with 55296%N; [lia | apply N.le_add_r]].
Qed.

(** The decoded header starts with an ASCII marker exactly when the
    buffer starts with the marker's bytes. *)
Lemma header_startsWith (marker : list byte) :
  Forall (fun b => (Byte.to_N b < 128)%N) marker ->
  forall n (buffer : Buffer),
    (length marker <= n)%nat ->
    startsWith (utf8_decode (firstn n buffer)) (map Byte.to_N marker) = true
    <-> firstn (length marker) buffer = marker.
Proof.
  induction 1 as [|a marker Ha _ IH]; intros n buffer Hn.
  - simpl. split; reflexivity.
  - destruct n as [|n]; [simpl in Hn; lia|].
    destruct buffer as [|b buffer].
    + simpl. split; discriminate.
    + cbn [firstn length map].
      destruct (N.lt_ge_cases (Byte.to_N b) 128) as [Hb|Hb].
      * rewrite utf8_decode_ascii by exact Hb. cbn [startsWith].
        rewrite andb_true_iff, N.eqb_eq, (IH n buffer) by (simpl in Hn; lia).
        split.
        -- intros [Hab Hrest]. apply to_N_inj in Hab. subst b.
           rewrite Hrest. reflexivity.
        -- intros Heq. injection Heq as -> Hrest. split; [reflexivity|].
           exact Hrest.
      * destruct (utf8_decode_non_ascii b (firstn n buffer) Hb)
          as (c & cs & Hd & Hc).
        rewrite Hd. cbn [startsWith]. split.
        -- intros Heq. apply andb_true_iff in Heq. destruct Heq as [Heq _].
           apply N.eqb_eq in Heq. lia.
        -- intros Heq. injection Heq as -> _. lia.
Qed.

Lemma validatePDF_header (buffer : Buffer) :
  startsWith (utf8_decode (firstn 8 buffer)) (lit "%PDF-") = true
  <-> firstn 5 buffer = pdfMagic.
Proof.
  apply (header_startsWith pdfMagic); [|simpl; lia].
  repeat constructor.
Qed.

(** A buffer [validatePDF] accepts starts with the magic marker. *)
Lemma validatePDF_valid (buffer : Buffer) :
  isValid (validatePDF buffer) = true -> firstn 5 buffer = pdfMagic.
Proof.
  unfold validatePDF.
  destruct (startsWith (utf8_decode (firstn 8 buffer)) (lit "%PDF-"))
    eqn:Hh; [intros _; apply validatePDF_header, Hh | discriminate].
Qed.

(** C8.  When the file's media type is not [application/pdf], or it is
    larger than 50 MB, or its first five bytes are not "%PDF-", [POST]
    answers status 400 with a JSON error body and nothing else happens:
    no frame is written on a stream and the rasterizer is not called.
    With a good media type and size, the message for a bad signature is
    "Invalid PDF format". *)
Theorem POST_rejects_invalid_upload (env : Env) (file : File) :
  type file <> lit "application/pdf"
  \/ size file > 50 * 1024 * 1024
  \/ firstn 5 (content file) <> pdfMagic ->
  exists message,
    POST env (Normal (Some file)) = (JsonResponse 400 message, [])
    /\ (type file = lit "application/pdf" ->
        size file <= 50 * 1024 * 1024 ->
        firstn 5 (content file) <> pdfMagic ->
        message = lit "Invalid PDF format").
Proof.
  intros H. unfold POST.
  destruct (jsstring_eqb (type file) (lit "application/pdf")) eqn:Et;
    cbn [negb].
  2:{ eexists. split; [reflexivity|]. intros Ht.
      apply jsstring_eqb_eq in Ht. congruence. }
  apply jsstring_eqb_eq in Et.
  destruct (size file >? 50 * 1024 * 1024) eqn:Es.
  { eexists. split; [reflexivity|]. intros _ Hs.
    apply Z.gtb_lt in Es. lia. }
  pose proof (Zgt_cases (size file) (50 * 1024 * 1024)) as Hs.
  rewrite Es in Hs.
  destruct (isValid (validatePDF (content file))) eqn:Ev; cbn [negb].
  - exfalso. apply validatePDF_valid in Ev.
    destruct H as [H | [H | H]]; [congruence | lia | congruence].
  - eexists. split; [reflexivity|]. intros _ _ Hm.
    unfold validatePDF in *.
    destruct (startsWith (utf8_decode (firstn 8 (content file)))
                (lit "%PDF-")) eqn:Hh; [|reflexivity].
    apply validatePDF_header in Hh. contradiction.
Qed.

Lemma POST_rejects_invalid_upload_witness :
  POST sampleEnv
    (Normal (Some (mkFile (lit "application/pdf")
                     [x47; x49; x46; x38; x39; x61]%byte)))
  = (JsonResponse 400 (lit "Invalid PDF format"), []).
Proof.
  destruct (POST_rejects_invalid_upload sampleEnv
              (mkFile (lit "application/pdf")
                 [x47; x49; x46; x38; x39; x61]%byte))
    as (message & Hpost & Hmsg).
  - right. right. discriminate.
  - rewrite Hpost, Hmsg; [reflexivity | reflexivity | | discriminate].
    vm_compute. discriminate.
Defined.

(** C9.  A buffer that starts with "%PDF-" and is shorter than 1024
    bytes is found invalid by [validatePDF], with the error "PDF file too
    small", and [POST] answers such an upload with status 400, whatever
    its media type. *)
Theorem validatePDF_too_small (buffer : Buffer) :
  firstn 5 buffer = pdfMagic ->
  Z.of_nat (length buffer) < 1024 ->
  validatePDF buffer = mkValidation false (Some (lit "PDF file too small"))
  /\ forall env mediaType,
       exists message,
         POST env (Normal (Some (mkFile mediaType buffer)))
         = (JsonResponse 400 message, []).
Proof.
  intros Hm Hl.
  assert (Hv : validatePDF buffer
               = mkValidation false (Some (lit "PDF file too small"))).
  { unfold validatePDF. apply validatePDF_header in Hm. rewrite Hm.
    cbn [negb]. apply Z.ltb_lt in Hl. rewrite Hl. reflexivity. }
  split; [exact Hv|]. intros env mediaType. unfold POST.
  cbn [type content]. unfold size. cbn [content].
  destruct (jsstring_eqb mediaType (lit "application/pdf")); cbn [negb];
    [|eexists; reflexivity].
  destruct (Z.of_nat (length buffer) >? 50 * 1024 * 1024);
    [eexists; reflexivity|].
  rewrite Hv. cbn [isValid negb]. eexists. reflexivity.
Qed.

Lemma validatePDF_too_small_witness :
  validatePDF [x25; x50; x44; x46; x2d; x31; x2e; x34]%byte
  = mkValidation false (Some (lit "PDF file too small")).
Proof.
  apply (validatePDF_too_small [x25; x50; x44; x46; x2d; x31; x2e; x34]%byte).
  - reflexivity.
  - vm_compute. reflexivity.
Defined.

End Validation.

(* ================================================================= *)
(** ** The whole request *)

Section EndToEnd.

Import Route.

(** A complete frame carries the result of [processPages] on the page
    images the rasterization fulfilled with. *)
Lemma complete_frame_origin (env : Env) (pdf : Buffer) (r : OCRResult) :
  In (EvComplete r) (events (snd (processOCR env pdf))) ->
  rasterizedPages env pdf <> []
  /\ fst (OCRService.processPages env (rasterizedPages env pdf)
            (Some onProgress)) = Normal r.
Proof.
  intros Hin.
  destruct (conversion_fails (firstConversion env pdf 1)) eqn:Hf.
  - exfalso.
    destruct (processOCR_rejected env pdf Hf)
      as (_ & pre & msg & Hlog & Hq & _).
    rewrite Hlog, events_terminal in Hin. apply in_app_or in Hin.
    destruct Hin as [Hin | [Hin | []]]; [|discriminate].
    exact (progress_not_complete _ _ (quiet_events _ Hq) Hin).
  - destruct (processOCR_fulfilled env pdf Hf)
      as (_ & pre & [Hq _] & Hcase).
    destruct Hcase as [[_ Hlog] | (Hne & r' & ocr & Hr & [Hoq _] & Hlog)].
    + exfalso. rewrite Hlog, events_terminal in Hin.
      apply in_app_or in Hin. destruct Hin as [Hin | [Hin | []]];
        [|discriminate].
      exact (progress_not_complete _ _ (quiet_events _ Hq) Hin).
    + split; [exact Hne|].
      rewrite Hlog, app_assoc, events_terminal, events_app in Hin.
      apply in_app_or in Hin. destruct Hin as [Hin | [Hin | []]].
      * exfalso. apply (progress_not_complete (events pre ++ events ocr) r);
          [|exact Hin].
        rewrite forallb_app, (quiet_events _ Hq), (quiet_events _ Hoq).
        reflexivity.
      * congruence.
Qed.

(** X3.  The document a request completes with: one page per page image
    the rasterization gave, in strictly ascending page order, these being
    the counted pages whose conversion in [processPage] gave an image;
    at most 500 pages, and [totalPages] is their number. *)
Theorem complete_frame_document (env : Env) (pdfBuffer : Buffer)
  (r : OCRResult) :
  In (EvComplete r) (events (snd (processOCR env pdfBuffer))) ->
  map pageNumber (pages r)
  = filter
      (fun j => negb (conversion_fails (secondConversion env pdfBuffer j)))
      (PDFProcessor.range 1 (pageCount env pdfBuffer + 1))
  /\ strictly_ascending (map pageNumber (pages r))
  /\ (1 <= length (pages r) <= 500)%nat
  /\ totalPages r = length (pages r).
Proof.
  intros Hin. destruct (complete_frame_origin env pdfBuffer r Hin) as [Hne Hr].
  rewrite processPages_result in Hr. apply Normal_inj in Hr. subst r.
  cbn [pages totalPages].
  pose proof (rasterizedPages_strictly_ascending env pdfBuffer) as Hs.
  pose proof (rasterizedPages_length env pdfBuffer) as Hlen.
  pose proof (pageCount_range env pdfBuffer) as HT.
  assert (Hid : sort_by pageNumber
                  (resultsFrom env 0 (rasterizedPages env pdfBuffer))
                = resultsFrom env 0 (rasterizedPages env pdfBuffer)).
  { apply sort_by_id, sorted_by_keys.
    rewrite resultsFrom_pageNumbers. exact Hs. }
  rewrite Hid, resultsFrom_pageNumbers, resultsFrom_length.
  split; [apply rasterizedPages_pageNumbers|]. split; [exact Hs|].
  split; [|reflexivity].
  destruct (rasterizedPages env pdfBuffer); [contradiction|simpl in *; lia].
Qed.

Lemma complete_frame_document_witness :
  exists r,
    In (EvComplete r) (events (snd (processOCR gapEnv [])))
    /\ map pageNumber (pages r) = [1; 3].
Proof.
  assert (Hin : exists r,
             In (EvComplete r) (events (snd (processOCR gapEnv [])))).
  { vm_compute. eexists. do 11 right. left. reflexivity. }
  destruct Hin as [r Hin]. exists r. split; [exact Hin|].
  rewrite (proj1 (complete_frame_document gapEnv [] r Hin)).
  vm_compute. reflexivity.
Defined.

End EndToEnd.

Section ConfidenceWitness.

Import OCRService.

Lemma calculateConfidence_reference_witness :
  calculateConfidence (lit "Dear Anna, Bob, Carl and Dora came.")
  = referenceConfidence (lit "Dear Anna, Bob, Carl and Dora came.").
Proof.
  apply calculateConfidence_reference. right. vm_compute. lia.
Defined.

End ConfidenceWitness.

(* ================================================================= *)
(** ** The score of a text *)

Section Scores.

Import OCRService.
Local Open Scope float_scope.

(** Every value the score can take, by cases on the conditions of the
    heuristic. *)
Lemma confidence_facts (text : jsstring) :
  let score := calculateConfidence text in
  PrimFloat.leb 0 score = true
  /\ PrimFloat.leb score 1 = true
  /\ PrimFloat.leb score (0.7 + 0.1 + 0.05 + 0.05 + 0.05) = true
  /\ (if includes text (lit "[Error") then score = 0
      else PrimFloat.leb (0.7 - 0.2 - 0.2 - 0.1) score = true).
Proof.
  unfold calculateConfidence.
  destruct (includes text (lit "[Error"));
  repeat match goal with
         | |- context [if ?c then _ else _] => destruct c
         end; vm_compute; repeat split; reflexivity.
Qed.

(** X4.  The score is 0 exactly for the texts that contain the marker
    "[Error"; every other text scores between 0.7 - 0.2 - 0.2 - 0.1 and
    0.7 + 0.1 + 0.05 + 0.05 + 0.05, so the clamp at 1 is never reached. *)
Theorem calculateConfidence_zero_iff_error_marker (text : jsstring) :
  (calculateConfidence text = 0 <-> includes text (lit "[Error") = true)
  /\ (calculateConfidence text = 0
      \/ PrimFloat.leb (0.7 - 0.2 - 0.2 - 0.1) (calculateConfidence text)
         = true)
  /\ PrimFloat.leb (calculateConfidence text)
       (0.7 + 0.1 + 0.05 + 0.05 + 0.05) = true.
Proof.
  destruct (confidence_facts text) as (_ & _ & Hmax & Hmin).
  split; [|split; [|exact Hmax]].
  - destruct (includes text (lit "[Error")); [tauto|].
    split; [|discriminate].
    intros H0. rewrite H0 in Hmin. vm_compute in Hmin. discriminate.
  - destruct (includes text (lit "[Error")); [left|right]; exact Hmin.
Qed.

End Scores.

(* ================================================================= *)
(** ** The pages of a result *)

Section Trimming.

Lemma trimStart_head (s : jsstring) :
  match trimStart s with
  | [] => True
  | c :: _ => is_space c = false
  end.
Proof.
  induction s as [|c s IH]; cbn [trimStart]; [exact I|].
  destruct (is_space c) eqn:E; [exact IH|exact E].
Qed.

Lemma trimStart_fixed (c : N) (s : jsstring) :
  is_space c = false -> trimStart (c :: s) = c :: s.
Proof. intros H. cbn [trimStart]. rewrite H. reflexivity. Qed.

(** Trimming the start stops at the first character that is not white
    space. *)
Lemma trimStart_keeps (t : jsstring) (c : N) (r : jsstring) :
  is_space c = false ->
  exists t', trimStart (t ++ c :: r) = t' ++ c :: r.
Proof.
  intros Hc. induction t as [|x t IH]; cbn [app].
  - exists []. apply trimStart_fixed, Hc.
  - cbn [trimStart]. destruct (is_space x).
    + exact IH.
    + exists (x :: t). reflexivity.
Qed.

(** Trimming the end keeps everything up to the last character that is
    not white space. *)
Lemma trimEnd_keeps (pre : jsstring) (c : N) (suf : jsstring) :
  is_space c = false ->
  exists suf', trimEnd (pre ++ c :: suf) = pre ++ c :: suf'.
Proof.
  intros Hc. unfold trimEnd. rewrite rev_app_distr. cbn [rev].
  rewrite <- app_assoc. cbn [app].
  destruct (trimStart_keeps (rev suf) c (rev pre) Hc) as [t' Ht].
  rewrite Ht, rev_app_distr. cbn [rev]. rewrite rev_involutive.
  exists (rev t'). rewrite <- app_assoc. reflexivity.
Qed.

Lemma trimStart_idempotent (s : jsstring) :
  trimStart (trimStart s) = trimStart s.
Proof.
  pose proof (trimStart_head s) as H.
  destruct (trimStart s) as [|c t]; [reflexivity|].
  apply trimStart_fixed, H.
Qed.

Lemma trim_idempotent (s : jsstring) : trim (trim s) = trim s.
Proof.
  unfold trim. pose proof (trimStart_head s) as H.
  destruct (trimStart s) as [|c t]; [reflexivity|].
  destruct (trimEnd_keeps [] c t H) as [suf' Hs]. cbn [app] in Hs.
  rewrite Hs, (trimStart_fixed c suf' H), <- Hs.
  unfold trimEnd. rewrite rev_involutive, trimStart_idempotent.
  reflexivity.
Qed.

(** A text that neither starts nor ends with white space is its own
    trimming. *)
Lemma trim_fixed (a z : N) (mid : jsstring) :
  is_space a = false -> is_space z = false ->
  trim (a :: mid ++ [z]) = a :: mid ++ [z].
Proof.
  intros Ha Hz. unfold trim. rewrite (trimStart_fixed a _ Ha).
  unfold trimEnd. rewrite app_comm_cons, rev_app_distr.
  change (rev [z]) with [z]. cbn [app].
  rewrite (trimStart_fixed z _ Hz).
  change (rev (z :: rev (a :: mid))) with (rev (rev (a :: mid)) ++ [z]).
  rewrite rev_involutive. reflexivity.
Qed.

Lemma trim_placeholder (n : Z) (message : jsstring) :
  trim (placeholder n message) = placeholder n message.
Proof.
  assert (H : placeholder n message
              = 91%N :: (lit "Error processing page " ++ Z_toString n
                         ++ lit ": " ++ message) ++ [93%N]).
  { unfold placeholder.
    change (lit "[Error processing page ")
      with (91%N :: lit "Error processing page ").
    change (lit "]") with [93%N].
    rewrite <- app_comm_cons, !app_assoc. reflexivity. }
  rewrite H. apply trim_fixed; reflexivity.
Qed.

End Trimming.

Section Pages.

Import OCRService.

(** What [processImage] settles with is either a recognized page, whose
    text is the trimmed content and whose confidence is the score of the
    content, or a placeholder with confidence 0. *)
Lemma pageResult_shape (o : FetchOutcome) (n : Z) :
  (exists text,
     pageResult o n = mkOCRPage n (trim text) (calculateConfidence text))
  \/ (exists message,
        pageResult o n = mkOCRPage n (placeholder n message) 0).
Proof.
  unfold pageResult.
  destruct (recognize o n) as [page|e] eqn:E; [|right; eexists; reflexivity].
  left. unfold recognize in E.
  destruct o as [e|status statusText body]; [discriminate|].
  destruct (negb (response_ok status)); [discriminate|].
  destruct body as [data|e]; cbn [cbind] in E; [|discriminate].
  destruct (get_name data (lit "choices")) as [choices|e]; cbn [cbind] in E;
    [|discriminate].
  destruct (or_else _ _) as [| | |text| |]; cbn in E; try discriminate.
  exists text. injection E as <-. reflexivity.
Qed.

Lemma resultsFrom_Forall (P : OCRPage -> Prop) env :
  (forall o n, P (pageResult o n)) ->
  forall l k, Forall P (resultsFrom env k l).
Proof.
  intros HP. induction l as [|p l IH]; intros k; cbn [resultsFrom];
    constructor; [apply HP|apply IH].
Qed.

Lemma processPages_Forall (P : OCRPage -> Prop) env imgs cb :
  (forall o n, P (pageResult o n)) ->
  exists r,
    fst (processPages env imgs cb) = Normal r /\ Forall P (pages r).
Proof.
  intros HP. destruct (processPages_value env imgs cb) as (r & Hr & Hp & _).
  exists r. split; [exact Hr|]. rewrite Hp.
  apply Forall_forall. intros p Hin.
  apply (Permutation_in _ (sort_by_perm pageNumber _)) in Hin.
  revert p Hin. apply Forall_forall, resultsFrom_Forall, HP.
Qed.

Local Open Scope float_scope.

(** X5.  Whatever the endpoint answers, the confidence of every page of
    the result of [processPages] lies in [0, 1]. *)
Theorem processPages_confidences_in_unit_interval (env : Env)
  (imageBuffers : list PDF.ProcessedPage) (cb : option Callback) :
  exists r,
    fst (processPages env imageBuffers cb) = Normal r
    /\ Forall (fun p => PrimFloat.leb 0 (confidence p) = true
                        /\ PrimFloat.leb (confidence p) 1 = true)
              (pages r).
Proof.
  apply processPages_Forall. intros o n.
  destruct (pageResult_shape o n) as [[text ->]|[message ->]];
    cbn [confidence].
  - destruct (confidence_facts text) as (H0 & H1 & _). split; assumption.
  - split; reflexivity.
Qed.

(** X6.  The text of every page of the result, recognized or
    placeholder, has no white space at its start or at its end: trimming
    it again changes nothing. *)
Theorem processPages_texts_trimmed (env : Env)
  (imageBuffers : list PDF.ProcessedPage) (cb : option Callback) :
  exists r,
    fst (processPages env imageBuffers cb) = Normal r
    /\ Forall (fun p => trim (extractedText p) = extractedText p) (pages r).
Proof.
  apply processPages_Forall. intros o n.
  destruct (pageResult_shape o n) as [[text ->]|[message ->]];
    cbn [extractedText].
  - apply trim_idempotent.
  - apply trim_placeholder.
Qed.

End Pages.

(* ================================================================= *)
(** ** What [processImage] reads in the answer *)

Section Content.

Import OCRService.
Local Open Scope float_scope.

(** X7.  When the endpoint answers with a success status and a body
    whose [choices[0].message.content] is a string, [processImage]
    fulfils with that string trimmed, and with the score of the string
    as it came, before trimming. *)
Theorem processImage_extracts_content (api : jsstring -> Z -> FetchOutcome)
  (imageBase64 : jsstring) (n status : Z) (statusText : jsstring)
  (fields choice message : list (jsstring * json)) (others : list json)
  (content : jsstring) :
  api imageBase64 n = FetchResolved status statusText (Normal (JObj fields)) ->
  response_ok status = true ->
  lookup (lit "choices") fields = Some (JArr (JObj choice :: others)) ->
  lookup (lit "message") choice = Some (JObj message) ->
  lookup (lit "content") message = Some (JStr content) ->
  fst (processImage api imageBase64 n)
  = Normal (mkOCRPage n (trim content) (calculateConfidence content)).
Proof.
  intros Ha Hok Hc Hm Ht. rewrite processImage_value.
  unfold pageResult, recognize. rewrite Ha, Hok.
  cbn [negb cbind get_name]. rewrite Hc.
  cbn [opt_index get_index nth_error opt_name get_name]. rewrite Hm.
  cbn [opt_name get_name]. rewrite Ht.
  destruct content as [|c content]; reflexivity.
Qed.

Lemma processImage_extracts_content_witness :
  fst (processImage (recognition (answeringEnv (lit "  Dear Anna,  ")) 0)
         [] 1)
  = Normal (mkOCRPage 1 (lit "Dear Anna,") (0.7 + 0.05 - 0.2)).
Proof.
  rewrite (processImage_extracts_content
             (recognition (answeringEnv (lit "  Dear Anna,  ")) 0) [] 1
             200 (lit "OK")
             [(lit "choices",
               JArr [JObj [(lit "message",
                            JObj [(lit "content",
                                   JStr (lit "  Dear Anna,  "))])]])]
             [(lit "message",
               JObj [(lit "content", JStr (lit "  Dear Anna,  "))])]
             [(lit "content", JStr (lit "  Dear Anna,  "))]
             [] (lit "  Dear Anna,  ")) by reflexivity.
  vm_compute. reflexivity.
Defined.

(** X8.  A success answer whose body is an object that carries no text
    is not a failure.  Whether [choices] is absent, [null] or an empty
    array, the first choice has no [message], or the message has no
    [content], a [null] one or the empty string, the page has the empty
    text and the score of the empty text, 0.7 - 0.2. *)
Theorem processImage_without_text (api : jsstring -> Z -> FetchOutcome)
  (imageBase64 : jsstring) (n status : Z) (statusText : jsstring)
  (fields : list (jsstring * json)) :
  api imageBase64 n = FetchResolved status statusText (Normal (JObj fields)) ->
  response_ok status = true ->
  lookup (lit "choices") fields = None
  \/ lookup (lit "choices") fields = Some JNull
  \/ lookup (lit "choices") fields = Some (JArr [])
  \/ (exists choice others,
        lookup (lit "choices") fields = Some (JArr (JObj choice :: others))
        /\ (lookup (lit "message") choice = None
            \/ exists message,
                 lookup (lit "message") choice = Some (JObj message)
                 /\ (lookup (lit "content") message = None
                     \/ lookup (lit "content") message = Some JNull
                     \/ lookup (lit "content") message = Some (JStr [])))) ->
  fst (processImage api imageBase64 n) = Normal (mkOCRPage n [] (0.7 - 0.2)).
Proof.
  intros Ha Hok Hc. rewrite processImage_value.
  unfold pageResult, recognize. rewrite Ha, Hok.
  cbn [negb cbind get_name].
  destruct Hc as [-> | [-> | [-> | (choice & others & -> & Hm)]]].
  - reflexivity.
  - reflexivity.
  - reflexivity.
  - cbn [opt_index get_index nth_error opt_name get_name].
    destruct Hm as [-> | (message & -> & Ht)]; [reflexivity|].
    cbn [opt_name get_name].
    destruct Ht as [-> | [-> | ->]]; reflexivity.
Qed.

Lemma processImage_without_text_witness :
  fst (processImage
         (fun _ _ => FetchResolved 200 (lit "OK")
                       (Normal (JObj [(lit "error", JStr (lit "overloaded"))])))
         [] 4)
  = Normal (mkOCRPage 4 [] (0.7 - 0.2)).
Proof.
  apply (processImage_without_text _ [] 4 200 (lit "OK")
           [(lit "error", JStr (lit "overloaded"))]).
  - reflexivity.
  - reflexivity.
  - left. reflexivity.
Defined.

End Content.

(* ================================================================= *)
(** ** The calls to the collaborators *)

Section Calls.

Lemma calls_app l1 l2 : calls (l1 ++ l2) = calls l1 ++ calls l2.
Proof. apply filter_app. Qed.

Lemma silent_None : silent None.
Proof. intros p s. reflexivity. Qed.

Lemma silent_onProgress : silent (Some Route.onProgress).
Proof. intros p s. reflexivity. Qed.

Lemma ocr_startBatch_calls env cb total i k batch :
  silent cb ->
  calls (fst (OCRService.startBatch env cb total i k batch))
  = map FetchCall (map PDF.pageNumber batch).
Proof.
  intros Hcb. revert k; induction batch as [|p rest IH]; intros k;
    cbn [OCRService.startBatch map]; [reflexivity|].
  pose proof (Hcb (5 + (of_nat i / of_nat total) * 80)%float
                (lit "Processing page " ++ Z_toString (PDF.pageNumber p)
                 ++ lit " of " ++ Z_toString (Z.of_nat total))) as H1.
  destruct (notify cb _ _) as [u e1].
  pose proof (processImage_effects (recognition env (i + k)%nat)
                (toBase64 (PDF.buffer p)) (PDF.pageNumber p)) as H2.
  destruct (OCRService.processImage _ _ _) as [promise e2].
  cbn [snd] in H1, H2. subst e2. specialize (IH (S k)).
  destruct (OCRService.startBatch env cb total i (S k) rest)
    as [effects promises]. cbn [fst] in *.
  rewrite !calls_app, H1, IH. reflexivity.
Qed.

Lemma ocr_batchLoop_calls env cb imgs :
  silent cb ->
  forall fuel i acc,
    (length imgs <= i + OCRService.batchSize * fuel)%nat ->
    calls (snd (OCRService.batchLoop fuel env cb imgs i acc))
    = map FetchCall (map PDF.pageNumber (skipn i imgs)).
Proof.
  intros Hcb. unfold OCRService.batchSize.
  induction fuel as [|fuel IH]; intros i acc Hfuel.
  - cbn [OCRService.batchLoop ret snd]. rewrite skipn_all2 by lia.
    reflexivity.
  - cbn [OCRService.batchLoop]. destruct (i <? length imgs)%nat eqn:Ei.
    + pose proof (startBatch_promises env cb (length imgs) i 0
                    (slice i (i + OCRService.batchSize) imgs)) as Hp.
      pose proof (ocr_startBatch_calls env cb (length imgs) i 0
                    (slice i (i + OCRService.batchSize) imgs) Hcb) as Hl.
      destruct (OCRService.startBatch env cb (length imgs) i 0 _)
        as [effects promises]. cbn [fst snd] in Hp, Hl. subst promises.
      rewrite snd_bind. cbn [tell fst snd].
      rewrite snd_bind. cbn [lift fst snd].
      rewrite Promise_all_fulfilled. cbn [app].
      rewrite calls_app, Hl.
      unfold OCRService.batchSize. rewrite IH by lia.
      rewrite <- map_app, <- map_app. do 2 f_equal.
      unfold slice. replace (i + 3 - i)%nat with 3%nat by lia.
      rewrite <- (firstn_skipn 3 (skipn i imgs)) at 2.
      rewrite skipn_skipn. do 2 f_equal. lia.
    + apply Nat.ltb_ge in Ei. cbn [ret snd].
      rewrite skipn_all2 by lia. reflexivity.
Qed.

Lemma processPages_calls env cb imgs :
  silent cb ->
  calls (snd (OCRService.processPages env imgs cb))
  = map FetchCall (map PDF.pageNumber imgs).
Proof.
  intros Hcb. unfold OCRService.processPages.
  rewrite snd_bind, fst_notify, calls_app, Hcb. cbn [app].
  rewrite snd_bind, batchLoop_value by (unfold OCRService.batchSize; lia).
  rewrite calls_app, (ocr_batchLoop_calls env cb imgs Hcb)
    by (unfold OCRService.batchSize; lia).
  cbn [skipn].
  rewrite snd_bind, fst_notify, calls_app, Hcb. cbn [app].
  rewrite snd_bind, fst_notify, calls_app, Hcb. cbn [ret snd app calls filter].
  apply app_nil_r.
Qed.

Import PDFProcessor.

Lemma pdf_startBatch_calls env pdf js :
  calls (fst (startBatch env pdf js)) = map ConvertCall js.
Proof.
  induction js as [|j rest IH]; cbn [startBatch map]; [reflexivity|].
  pose proof (processPage_effects env pdf j) as He.
  destruct (processPage env pdf j) as [promise e1]. cbn [snd] in He.
  subst e1.
  destruct (startBatch env pdf rest) as [effects promises]. cbn [fst] in *.
  rewrite calls_app, IH. reflexivity.
Qed.

(** The probes of the counting loop: every page from [i] up to the page
    after the last one counted, or up to the ceiling. *)
Lemma countPages_calls env pdf :
  forall fuel i,
    Z.of_nat fuel = 501 - i ->
    calls (snd (countPages fuel env pdf i (i - 1)))
    = map ConvertCall
        (range i (Z.min (counted fuel env pdf i (i - 1) + 2) 501)).
Proof.
  induction fuel as [|fuel IH]; intros i Hfuel; cbn [countPages counted].
  - cbn [ret snd]. rewrite range_empty by lia. reflexivity.
  - replace (i <=? 500) with true by (symmetry; apply Z.leb_le; lia).
    rewrite snd_bind. cbn [tell fst snd]. rewrite calls_app.
    cbn [calls filter is_call app].
    destruct (firstConversion env pdf i) as [e|b].
    + cbn [ret snd calls filter].
      rewrite (range_cons i), range_empty by lia. reflexivity.
    + pose proof (counted_bounds env pdf fuel (i + 1) i) as Hb.
      specialize (IH (i + 1)). replace (i + 1 - 1) with i in IH by lia.
      rewrite IH by lia. rewrite (range_cons i) by lia. reflexivity.
Qed.

Lemma probe_calls env pdf :
  calls (snd (countPages 499 env pdf 2 1))
  = map ConvertCall (range 2 (Z.min (pageCount env pdf + 2) 501)).
Proof. exact (countPages_calls env pdf 499 2 eq_refl). Qed.

Lemma countPages_pageCount env pdf :
  fst (countPages 499 env pdf 2 1) = Normal (pageCount env pdf).
Proof. apply countPages_value. Qed.

Lemma pdf_batchLoop_calls env pdf cb T :
  silent cb ->
  forall fuel i acc,
    T + 1 - i <= batchSize * Z.of_nat fuel ->
    calls (snd (batchLoop fuel env pdf cb T i acc))
    = map ConvertCall (range i (T + 1)).
Proof.
  intros Hcb. unfold batchSize.
  induction fuel as [|fuel IH]; intros i acc Hfuel.
  - cbn [batchLoop ret snd]. rewrite range_empty by lia. reflexivity.
  - cbn [batchLoop]. destruct (i <=? T) eqn:Ei.
    + apply Z.leb_le in Ei.
      pose proof (pdf_startBatch_promises env pdf
                    (range i (Z.min (i + batchSize) (T + 1)))) as Hp.
      pose proof (pdf_startBatch_calls env pdf
                    (range i (Z.min (i + batchSize) (T + 1)))) as Hl.
      destruct (startBatch env pdf _) as [effects promises].
      cbn [fst snd] in Hp, Hl. subst promises.
      rewrite snd_bind. cbn [tell fst snd]. rewrite calls_app, Hl.
      rewrite snd_bind. cbn [lift fst snd].
      rewrite Promise_all_fulfilled. cbn [app].
      rewrite snd_bind, fst_notify, calls_app, Hcb. cbn [app].
      unfold batchSize. rewrite IH by lia. rewrite <- map_app. f_equal.
      destruct (Z.le_gt_cases (i + 5) (T + 1)) as [Hle|Hgt].
      * rewrite Z.min_l by lia. symmetry. apply range_app. lia.
      * rewrite Z.min_r by lia. rewrite (range_empty (i + 5)) by lia.
        apply app_nil_r.
    + apply Z.leb_gt in Ei. cbn [ret snd]. rewrite range_empty by lia.
      reflexivity.
Qed.

Lemma range_from_1 hi : 1 < hi -> range 1 hi = 1 :: range 2 hi.
Proof. apply range_cons. Qed.

Lemma convert_calls env pdf cb :
  silent cb ->
  calls (snd (convertPDFToImages env pdf cb))
  = map ConvertCall
      (if conversion_fails (firstConversion env pdf 1) then [1]
       else conversionCalls (pageCount env pdf)).
Proof.
  intros Hcb. pose proof (pageCount_range env pdf) as HT.
  unfold conversionCalls.
  pose proof (countPages_pageCount env pdf) as Hm1.
  pose proof (probe_calls env pdf) as Hm2.
  unfold convertPDFToImages.
  generalize dependent (countPages 499 env pdf 2 1). intros m Hm1 Hm2.
  rewrite snd_catch, calls_app.
  rewrite snd_bind, fst_notify, calls_app, Hcb. cbn [app].
  rewrite snd_bind, fst_notify, calls_app, Hcb. cbn [app].
  rewrite fst_bind, fst_notify. cbn [cbind].
  rewrite fst_bind, fst_notify. cbn [cbind].
  rewrite snd_bind. cbn [tell fst snd]. rewrite calls_app.
  rewrite fst_bind. cbn [tell fst cbind].
  rewrite snd_bind, fst_bind.
  destruct (firstConversion env pdf 1) as [e|[buf|]];
    cbn [conversion_fails throw ret fst snd cbind app calls filter is_call map].
  - reflexivity.
  - rewrite snd_bind, fst_bind. cbn [ret fst snd cbind app].
    rewrite snd_bind, fst_bind, Hm1. cbn [cbind].
    rewrite calls_app, Hm2.
    rewrite snd_bind, fst_bind, fst_notify, calls_app, Hcb. cbn [cbind app].
    rewrite snd_bind, fst_bind, pdf_batchLoop_value
      by (unfold batchSize; lia).
    rewrite calls_app, (pdf_batchLoop_calls env pdf cb _ Hcb)
      by (unfold batchSize; lia).
    cbn [cbind]. rewrite snd_bind, fst_bind, fst_notify, calls_app, Hcb.
    cbn [cbind ret fst snd app calls filter]. rewrite !app_nil_r.
    rewrite (range_from_1 (Z.min _ _)) by lia.
    rewrite map_app, map_cons, <- app_comm_cons. reflexivity.
  - rewrite snd_bind, fst_bind. cbn [throw fst snd cbind app calls filter].
    reflexivity.
Qed.

End Calls.

Section Collaborators.

Import PDFProcessor.

Lemma conversionCalls_length T :
  1 <= T <= 500 -> (length (conversionCalls T) <= 1000)%nat.
Proof.
  intros HT. unfold conversionCalls. rewrite length_app, !range_length. lia.
Qed.

(** X9.  The requests [convertPDFToImages] makes to the rasterizer,
    when its progress callback makes none: page 1 alone when its first
    conversion fails; otherwise page 1, the probes from page 2 up to the
    first rejected page (or to page 500), then every counted page a second
    time.  Every page of the document is thus converted twice, and there
    are at most 1000 conversions. *)
Theorem convertPDFToImages_rasterizer_calls (env : Env) (pdf : Buffer)
  (cb : option Callback) :
  silent cb ->
  calls (snd (convertPDFToImages env pdf cb))
  = map ConvertCall
      (if conversion_fails (firstConversion env pdf 1) then [1]
       else range 1 (Z.min (pageCount env pdf + 2) 501)
            ++ range 1 (pageCount env pdf + 1))
  /\ (length (calls (snd (convertPDFToImages env pdf cb))) <= 1000)%nat.
Proof.
  intros Hcb. rewrite (convert_calls env pdf cb Hcb).
  split; [reflexivity|]. rewrite length_map.
  destruct (conversion_fails (firstConversion env pdf 1)).
  - simpl. lia.
  - apply conversionCalls_length, pageCount_range.
Qed.

Lemma convertPDFToImages_rasterizer_calls_witness :
  calls (snd (convertPDFToImages sampleEnv [] None))
  = map ConvertCall [1; 2; 3; 4; 1; 2; 3].
Proof.
  rewrite (proj1 (convertPDFToImages_rasterizer_calls sampleEnv [] None
                    (fun _ _ => eq_refl))).
  vm_compute. reflexivity.
Defined.

(** X10.  [processPages] sends exactly one request per page image, in
    the order of the images, whatever the earlier requests gave: nothing
    is retried and nothing is skipped. *)
Theorem processPages_one_request_per_image (env : Env)
  (imageBuffers : list PDF.ProcessedPage) (cb : option Callback) :
  silent cb ->
  calls (snd (OCRService.processPages env imageBuffers cb))
  = map FetchCall (map PDF.pageNumber imageBuffers).
Proof. apply processPages_calls. Qed.

Lemma processPages_one_request_per_image_witness :
  calls (snd (OCRService.processPages sampleEnv [page 2; page 1; page 2]
                (Some Route.onProgress)))
  = [FetchCall 2; FetchCall 1; FetchCall 2].
Proof.
  apply (processPages_one_request_per_image sampleEnv
           [page 2; page 1; page 2] (Some Route.onProgress)).
  intros p s. reflexivity.
Defined.

Import Route.

(** X11.  The calls of one request, in order: all the conversions of
    the rasterization, then one recognition request per page image that
    came out of it, in page order.  When the first conversion of page 1
    fails, that conversion is the only call. *)
Theorem processOCR_calls (env : Env) (pdf : Buffer) :
  calls (snd (processOCR env pdf))
  = if conversion_fails (firstConversion env pdf 1) then [ConvertCall 1]
    else map ConvertCall (conversionCalls (pageCount env pdf))
         ++ map FetchCall (map PDF.pageNumber (rasterizedPages env pdf)).
Proof.
  pose proof (convert_calls env pdf (Some onProgress) silent_onProgress)
    as Hc.
  unfold processOCR. rewrite snd_catch, calls_app.
  rewrite snd_bind. cbn [tell fst snd]. rewrite calls_app.
  rewrite fst_bind. cbn [tell fst cbind].
  rewrite snd_bind, fst_bind, calls_app, Hc.
  destruct (conversion_fails (firstConversion env pdf 1)) eqn:Hf.
  - destruct (convert_rejected env pdf (Some onProgress) Hf) as [msg Hv].
    rewrite Hv. reflexivity.
  - rewrite (convert_fulfilled env pdf (Some onProgress) Hf).
    clear Hc.
    generalize (rasterizedPages env pdf) (conversionCalls (pageCount env pdf)).
    intros images probes. cbn [cbind].
    destruct images as [|p rest].
    + cbn [length Nat.eqb tell fst snd calls filter is_call app map].
      rewrite !app_nil_r. reflexivity.
    + cbn [length Nat.eqb].
      destruct (processPages_value env (p :: rest) (Some onProgress))
        as (r & Hr & _).
      rewrite snd_bind, fst_bind, Hr, calls_app.
      rewrite (processPages_calls env (Some onProgress) (p :: rest)
                 silent_onProgress).
      cbn [cbind tell fst snd calls filter is_call app].
      rewrite !app_nil_r. reflexivity.
Qed.

End Collaborators.

(* ================================================================= *)
(** ** No page image *)

Section EmptyInput.

Import OCRService.

(** X12.  On an empty list of page images [processPages] sends no
    request and reports 5, 90 and 100; it fulfils with no page, the empty
    text, a page count of 0, and an average confidence that is not a
    number (0 / 0). *)
Theorem processPages_empty_input (env : Env) (cb : option Callback) :
  exists r,
    fst (processPages env [] cb) = Normal r
    /\ pages r = [] /\ fullText r = [] /\ totalPages r = 0%nat
    /\ PrimFloat.is_nan (averageConfidence r) = true
    /\ snd (processPages env [] cb)
       = snd (notify cb 5 (lit "Starting OCR processing"))
         ++ snd (notify cb 90 (lit "Finalizing text extraction"))
         ++ snd (notify cb 100 (lit "Processing complete")).
Proof.
  rewrite processPages_result. eexists. split; [reflexivity|].
  cbn [resultsFrom sort_by pages fullText totalPages averageConfidence
       map join length fold_left].
  repeat split.
  unfold processPages. rewrite snd_bind, fst_notify. f_equal.
  rewrite snd_bind. cbn [length batchLoop ret fst snd app].
  rewrite snd_bind, fst_notify. f_equal.
  rewrite snd_bind, fst_notify. cbn [ret snd]. apply app_nil_r.
Qed.

End EmptyInput.

(* ================================================================= *)
(** ** Which uploads are accepted *)

Section Acceptance.

Import PDFProcessor Route.

(** X13.  [validatePDF] accepts a buffer exactly when it starts with
    the bytes of "%PDF-" and its length is between 1024 bytes and 50 MB;
    it gives an error message exactly when it does not accept. *)
Theorem validatePDF_accepts_iff (buffer : Buffer) :
  (isValid (validatePDF buffer) = true
   <-> firstn 5 buffer = pdfMagic
       /\ 1024 <= Z.of_nat (length buffer) <= 50 * 1024 * 1024)
  /\ (error (validatePDF buffer) = None
      <-> isValid (validatePDF buffer) = true).
Proof.
  pose proof (validatePDF_header buffer) as Hh. unfold validatePDF.
  destruct (startsWith (utf8_decode (firstn 8 buffer)) (lit "%PDF-"));
    cbn [negb].
  - destruct (Z.ltb_spec (Z.of_nat (length buffer)) 1024) as [Hs|Hs].
    + cbn [isValid error].
      repeat split; try discriminate; intros [_ H]; lia.
    + pose proof (Zgt_cases (Z.of_nat (length buffer)) (50 * 1024 * 1024))
        as Hl.
      destruct (Z.of_nat (length buffer) >? 50 * 1024 * 1024);
        cbn [isValid error]; repeat split; try discriminate;
        try tauto; try lia; intros [_ H]; lia.
  - cbn [isValid error].
    repeat split; try discriminate.
    intros [Hm _]. apply Hh in Hm. discriminate.
Qed.

(** X14.  [POST] opens the event stream exactly when the file is
    declared [application/pdf], starts with "%PDF-" and has between 1024
    bytes and 50 MB; the effects are then those of [processOCR] on its
    bytes.  Otherwise it answers status 400 and nothing else happens. *)
Theorem POST_streams_iff (env : Env) (file : File) :
  (fst (POST env (Normal (Some file))) = EventStream
   <-> type file = lit "application/pdf"
       /\ firstn 5 (content file) = pdfMagic
       /\ 1024 <= size file <= 50 * 1024 * 1024)
  /\ (POST env (Normal (Some file))
      = (EventStream, snd (processOCR env (content file)))
      \/ exists message,
           POST env (Normal (Some file)) = (JsonResponse 400 message, [])).
Proof.
  destruct (validatePDF_accepts_iff (content file)) as [Hv _].
  unfold POST.
  destruct (jsstring_eqb (type file) (lit "application/pdf")) eqn:Et;
    cbn [negb].
  2:{ split; [|right; eexists; reflexivity]. cbn [fst].
      split; [discriminate|]. intros [Ht _].
      apply jsstring_eqb_eq in Ht. congruence. }
  apply jsstring_eqb_eq in Et.
  pose proof (Zgt_cases (size file) (50 * 1024 * 1024)) as Hs.
  destruct (size file >? 50 * 1024 * 1024).
  { split; [|right; eexists; reflexivity]. cbn [fst].
    split; [discriminate|]. intros (_ & _ & H). lia. }
  destruct (isValid (validatePDF (content file))); cbn [negb fst].
  - split; [|left; reflexivity]. split; [|reflexivity].
    intros _. destruct Hv as [Hv _]. specialize (Hv eq_refl).
    unfold size. tauto.
  - split; [|right; eexists; reflexivity].
    split; [discriminate|]. intros (_ & Hm & Hl).
    destruct Hv as [_ Hv]. unfold size in Hl.
    specialize (Hv (conj Hm Hl)). discriminate.
Qed.

(** X15.  The JSON errors of [POST]: status 500 with the internal-error
    message when reading the form fails, otherwise status 400 with one of
    five messages; nothing is written on a stream.  The message "PDF file
    too large (max 50MB)" of [validatePDF] and the fallback "Invalid PDF
    file" are never sent: the size check of [POST] comes first. *)
Theorem POST_error_messages (env : Env) (formData : Completion (option File))
  (status : Z) (message : jsstring) :
  fst (POST env formData) = JsonResponse status message ->
  snd (POST env formData) = []
  /\ ((status = 500
       /\ message = lit "Internal server error during OCR processing"
       /\ exists e, formData = Throw e)
      \/ (status = 400
          /\ In message [lit "No PDF file provided";
                         lit "Only PDF files are supported";
                         lit "File size exceeds 50MB limit";
                         lit "Invalid PDF format";
                         lit "PDF file too small"])).
Proof.
  unfold POST. destruct formData as [[file|]|e]; cbn [fst snd].
  - destruct (jsstring_eqb (type file) (lit "application/pdf"));
      cbn [negb fst snd].
    2:{ intros H. injection H as <- <-. split; [reflexivity|]. right.
        split; [reflexivity|]. right. left. reflexivity. }
    pose proof (Zgt_cases (size file) (50 * 1024 * 1024)) as Hs.
    destruct (size file >? 50 * 1024 * 1024); cbn [fst snd].
    { intros H. injection H as <- <-. split; [reflexivity|]. right.
      split; [reflexivity|]. do 2 right. left. reflexivity. }
    unfold validatePDF, size in *.
    destruct (startsWith _ (lit "%PDF-")); cbn [negb isValid error fst snd].
    + destruct (Z.of_nat (length (content file)) <? 1024);
        cbn [negb isValid error fst snd].
      * intros H. injection H as <- <-. split; [reflexivity|]. right.
        split; [reflexivity|]. do 4 right. left. reflexivity.
      * pose proof (Zgt_cases (Z.of_nat (length (content file)))
                      (50 * 1024 * 1024)) as Hl.
        destruct (Z.of_nat (length (content file)) >? 50 * 1024 * 1024);
          [lia|]. cbn [negb isValid fst]. discriminate.
    + intros H. injection H as <- <-. split; [reflexivity|]. right.
      split; [reflexivity|]. do 3 right. left. reflexivity.
  - intros H. injection H as <- <-. split; [reflexivity|]. right.
    split; [reflexivity|]. left. reflexivity.
  - intros H. injection H as <- <-. split; [reflexivity|]. left.
    repeat split. exists e. reflexivity.
Qed.

Lemma POST_error_messages_witness :
  snd (POST sampleEnv (Normal None)) = []
  /\ ((400 = 500
       /\ lit "No PDF file provided"
          = lit "Internal server error during OCR processing"
       /\ exists e, @Normal (option File) None = Throw e)
      \/ (400 = 400
          /\ In (lit "No PDF file provided")
                [lit "No PDF file provided";
                 lit "Only PDF files are supported";
                 lit "File size exceeds 50MB limit";
                 lit "Invalid PDF format";
                 lit "PDF file too small"])).
Proof.
  apply (POST_error_messages sampleEnv (Normal None) 400
           (lit "No PDF file provided")).
  reflexivity.
Defined.

(** X16.  The upload form and the route agree on the media type and the
    size limit: a file the form's [validateFile] lets through is refused
    by [POST] only for its content (bad signature, or under 1024 bytes),
    and a file the form refuses would be refused by [POST] too. *)
Theorem validateFile_agrees_with_POST (env : Env) (file : File) :
  match Client.validateFile file with
  | None =>
      POST env (Normal (Some file))
      = (EventStream, snd (processOCR env (content file)))
      \/ POST env (Normal (Some file))
         = (JsonResponse 400 (lit "Invalid PDF format"), [])
      \/ POST env (Normal (Some file))
         = (JsonResponse 400 (lit "PDF file too small"), [])
  | Some _ =>
      POST env (Normal (Some file))
      = (JsonResponse 400 (lit "Only PDF files are supported"), [])
      \/ POST env (Normal (Some file))
         = (JsonResponse 400 (lit "File size exceeds 50MB limit"), [])
  end.
Proof.
  unfold Client.validateFile, POST.
  destruct (jsstring_eqb (type file) (lit "application/pdf"));
    cbn [negb]; [|left; reflexivity].
  pose proof (Zgt_cases (size file) (50 * 1024 * 1024)) as Hs.
  destruct (size file >? 50 * 1024 * 1024); [right; reflexivity|].
  unfold validatePDF, size in *.
  destruct (startsWith _ (lit "%PDF-")); cbn [negb isValid error];
    [|right; left; reflexivity].
  destruct (Z.of_nat (length (content file)) <? 1024);
    cbn [negb isValid error]; [right; right; reflexivity|].
  pose proof (Zgt_cases (Z.of_nat (length (content file)))
                (50 * 1024 * 1024)) as Hl.
  destruct (Z.of_nat (length (content file)) >? 50 * 1024 * 1024); [lia|].
  left. reflexivity.
Qed.

End Acceptance.

(* ================================================================= *)
(** ** The pages of the document *)

Section PageCount.

Import PDFProcessor.

Lemma pageCount_spec (env : Env) (pdf : Buffer) :
  (forall j, 2 <= j <= pageCount env pdf ->
             exists b, firstConversion env pdf j = ConvResolved b)
  /\ (pageCount env pdf < 500 ->
      exists e, firstConversion env pdf (pageCount env pdf + 1)
                = ConvRejected e).
Proof. exact (counted_spec env pdf 499 2 eq_refl). Qed.

(** X17.  The number of pages [convertPDFToImages] counts is the one
    number T between 1 and 500 such that the probes of pages 2 to T all
    resolved (with or without a buffer) and, if T is under 500, the probe
    of page T + 1 was rejected. *)
Theorem pageCount_first_rejected_probe (env : Env) (pdf : Buffer) :
  fst (countPages 499 env pdf 2 1) = Normal (pageCount env pdf)
  /\ 1 <= pageCount env pdf <= 500
  /\ forall T,
       1 <= T <= 500 ->
       (T = pageCount env pdf
        <-> (forall j, 2 <= j <= T ->
                       exists b, firstConversion env pdf j = ConvResolved b)
            /\ (T < 500 ->
                exists e, firstConversion env pdf (T + 1) = ConvRejected e)).
Proof.
  split; [apply countPages_value|].
  pose proof (pageCount_range env pdf) as HT. split; [exact HT|].
  destruct (pageCount_spec env pdf) as [Hall Hnext].
  intros T HTr. split.
  - intros ->. split; assumption.
  - intros [HallT HnextT].
    destruct (Z.lt_trichotomy T (pageCount env pdf)) as [Hlt|[Heq|Hgt]];
      [|exact Heq|]; exfalso.
    + destruct HnextT as [e He]; [lia|].
      destruct (Hall (T + 1)) as [b Hb]; [lia|]. congruence.
    + destruct Hnext as [e He]; [lia|].
      destruct (HallT (pageCount env pdf + 1)) as [b Hb]; [lia|]. congruence.
Qed.

End PageCount.

Section Buffers.

Import PDFProcessor.

(** X18.  Every page image [convertPDFToImages] fulfils with comes from
    a conversion in [processPage] that gave a buffer, and carries the
    optimized image, or the converted buffer itself when the optimization
    fails: a failed optimization never loses a page. *)
Theorem convertPDFToImages_page_buffers (env : Env) (pdf : Buffer)
  (cb : option Callback) (images : list PDF.ProcessedPage) :
  fst (convertPDFToImages env pdf cb) = Normal images ->
  Forall (fun p =>
            exists converted,
              secondConversion env pdf (PDF.pageNumber p)
              = ConvResolved (Some converted)
              /\ PDF.buffer p = match sharp env converted with
                                | Normal optimized => optimized
                                | Throw _ => converted
                                end)
         images.
Proof.
  intros Hv.
  destruct (conversion_fails (firstConversion env pdf 1)) eqn:Hf.
  - destruct (convert_rejected env pdf cb Hf) as [msg Hr].
    rewrite Hr in Hv. discriminate.
  - rewrite (convert_fulfilled env pdf cb Hf) in Hv.
    apply Normal_inj in Hv. subst images. unfold rasterizedPages.
    generalize (range 1 (pageCount env pdf + 1)). intros js.
    induction js as [|j js IH]; cbn [map validResults flat_map];
      [constructor|].
    fold (validResults (map (rasterized env pdf) js)).
    unfold rasterized at 1.
    destruct (secondConversion env pdf j) as [e|[converted|]] eqn:E;
      cbn [app]; try exact IH.
    constructor; [|exact IH]. exists converted. cbn [PDF.pageNumber PDF.buffer].
    split; [exact E|reflexivity].
Qed.

Lemma convertPDFToImages_page_buffers_witness :
  Forall (fun p =>
            exists converted,
              secondConversion gapEnv [] (PDF.pageNumber p)
              = ConvResolved (Some converted)
              /\ PDF.buffer p = match sharp gapEnv converted with
                                | Normal optimized => optimized
                                | Throw _ => converted
                                end)
         [page 1; page 3].
Proof.
  apply (convertPDFToImages_page_buffers gapEnv [] None).
  vm_compute. reflexivity.
Defined.

End Buffers.

(* ================================================================= *)
(** ** How a request ends *)

Section Outcome.

Import PDFProcessor Route.

Variables (env : Env) (pdf : Buffer).

(** The log of a request whose first conversion of page 1 fails. *)
Lemma processOCR_rejected_log :
  conversion_fails (firstConversion env pdf 1) = true ->
  snd (processOCR env pdf)
  = [Emit (EvProgress 0 (lit "Starting PDF processing"));
     Emit (EvProgress 10 (lit "Analyzing PDF structure"));
     Emit (EvProgress 20 (lit "Converting PDF pages to images"));
     ConvertCall 1;
     Emit (EvError (lit "Failed to process PDF: "
                    ++ conversion_message (firstConversion env pdf 1)));
     Close].
Proof.
  intros Hf. unfold processOCR, convertPDFToImages.
  destruct (firstConversion env pdf 1) as [e|[buf|]]; try discriminate;
    vm_compute; reflexivity.
Qed.

Lemma rasterizedPages_empty_iff :
  rasterizedPages env pdf = []
  <-> forall j, 1 <= j <= pageCount env pdf ->
                conversion_fails (secondConversion env pdf j) = true.
Proof.
  pose proof (rasterizedPages_pageNumbers env pdf) as Hn.
  generalize dependent (rasterizedPages env pdf). intros images Hn. split.
  - intros -> j Hj. cbn [map] in Hn.
    destruct (conversion_fails (secondConversion env pdf j)) eqn:E;
      [reflexivity|exfalso].
    assert (Hin : In j (filter
                          (fun j => negb (conversion_fails
                                            (secondConversion env pdf j)))
                          (range 1 (pageCount env pdf + 1)))).
    { apply filter_In. split; [apply range_In; lia|].
      rewrite E. reflexivity. }
    rewrite <- Hn in Hin. exact Hin.
  - intros Hall. destruct images as [|p rest]; [reflexivity|exfalso].
    assert (Hin : In (PDF.pageNumber p) (map PDF.pageNumber (p :: rest)))
      by (left; reflexivity).
    rewrite Hn in Hin. apply filter_In in Hin. destruct Hin as [Hr Hc].
    apply range_In in Hr. rewrite Hall in Hc by lia. discriminate.
Qed.

(** X19.  When the first conversion of page 1 fails, the frames of the
    request are the progress frames 0, 10 and 20, then one error frame
    whose message is "Failed to process PDF: " followed by the message of
    the rejection ("Unknown error" when what was thrown is not an Error,
    "Failed to convert first page" when no buffer came back). *)
Theorem processOCR_conversion_error :
  conversion_fails (firstConversion env pdf 1) = true ->
  events (snd (processOCR env pdf))
  = [EvProgress 0 (lit "Starting PDF processing");
     EvProgress 10 (lit "Analyzing PDF structure");
     EvProgress 20 (lit "Converting PDF pages to images");
     EvError (lit "Failed to process PDF: "
              ++ conversion_message (firstConversion env pdf 1))].
Proof. intros Hf. rewrite (processOCR_rejected_log Hf). reflexivity. Qed.

(** X20.  A request ends with a complete frame exactly when the first
    conversion of page 1 gives an image and at least one counted page
    gives an image in [processPage]: failures of the recognition never
    turn a request into an error. *)
Theorem processOCR_completes_iff :
  (exists r, In (EvComplete r) (events (snd (processOCR env pdf))))
  <-> conversion_fails (firstConversion env pdf 1) = false
      /\ exists j,
           1 <= j <= pageCount env pdf
           /\ conversion_fails (secondConversion env pdf j) = false.
Proof.
  split.
  - intros [r Hin].
    destruct (conversion_fails (firstConversion env pdf 1)) eqn:Hf.
    + exfalso. rewrite (processOCR_rejected_log Hf) in Hin.
      cbn in Hin. repeat destruct Hin as [Hin|Hin]; try discriminate.
      exact Hin.
    + split; [reflexivity|].
      destruct (complete_frame_origin env pdf r Hin) as [Hne _].
      pose proof (rasterizedPages_pageNumbers env pdf) as Hn.
      destruct (rasterizedPages env pdf) as [|p rest]; [contradiction|].
      assert (Hp : In (PDF.pageNumber p) (map PDF.pageNumber (p :: rest)))
        by (left; reflexivity).
      rewrite Hn in Hp. apply filter_In in Hp. destruct Hp as [Hr Hc].
      apply range_In in Hr. exists (PDF.pageNumber p).
      split; [lia|]. apply negb_true_iff, Hc.
  - intros [Hf (j & Hj & Hc)].
    destruct (processOCR_fulfilled env pdf Hf) as (_ & pre & _ & Hcase).
    destruct Hcase as [[He _] | (_ & r & ocr & _ & _ & Hlog)].
    + rewrite (proj1 rasterizedPages_empty_iff He j Hj) in Hc.
      discriminate.
    + exists r. rewrite Hlog, app_assoc, events_terminal.
      apply in_or_app. right. left. reflexivity.
Qed.

(** X21.  The only error frames of a request: "Failed to process
    PDF: ..." when the first conversion of page 1 fails, and "No pages
    could be processed from the PDF" when it succeeds but no counted page
    gives an image.  The fallback "Unknown processing error" is never
    sent. *)
Theorem processOCR_error_messages (message : jsstring) :
  In (EvError message) (events (snd (processOCR env pdf))) ->
  (conversion_fails (firstConversion env pdf 1) = true
   /\ message = lit "Failed to process PDF: "
                ++ conversion_message (firstConversion env pdf 1))
  \/ (conversion_fails (firstConversion env pdf 1) = false
      /\ (forall j, 1 <= j <= pageCount env pdf ->
                    conversion_fails (secondConversion env pdf j) = true)
      /\ message = lit "No pages could be processed from the PDF").
Proof.
  intros Hin.
  destruct (conversion_fails (firstConversion env pdf 1)) eqn:Hf.
  - left. split; [reflexivity|].
    rewrite (processOCR_rejected_log Hf) in Hin. cbn in Hin.
    repeat destruct Hin as [Hin|Hin]; try discriminate; [|contradiction].
    injection Hin as <-. reflexivity.
  - right. split; [reflexivity|].
    destruct (processOCR_fulfilled env pdf Hf)
      as (_ & pre & [Hq _] & Hcase).
    apply quiet_events in Hq. rewrite forallb_forall in Hq.
    destruct Hcase as [[He Hlog] | (_ & r & ocr & _ & [Hoq _] & Hlog)].
    + rewrite Hlog, events_terminal in Hin. apply in_app_or in Hin.
      destruct Hin as [Hin | [Hin | []]].
      * specialize (Hq _ Hin). discriminate.
      * injection Hin as <-. split; [|reflexivity].
        exact (proj1 rasterizedPages_empty_iff He).
    + exfalso. apply quiet_events in Hoq. rewrite forallb_forall in Hoq.
      rewrite Hlog, app_assoc, events_terminal, events_app in Hin.
      apply in_app_or in Hin. destruct Hin as [Hin | [Hin | []]];
        [|discriminate].
      apply in_app_or in Hin. destruct Hin as [Hin | Hin].
      * specialize (Hq _ Hin). discriminate.
      * specialize (Hoq _ Hin). discriminate.
Qed.

End Outcome.

Section OutcomeWitnesses.

Import Route.

Lemma processOCR_conversion_error_witness :
  events (snd (processOCR unreadableEnv []))
  = [EvProgress 0 (lit "Starting PDF processing");
     EvProgress 10 (lit "Analyzing PDF structure");
     EvProgress 20 (lit "Converting PDF pages to images");
     EvError (lit "Failed to process PDF: Unable to read the document")].
Proof.
  apply (processOCR_conversion_error unreadableEnv []). reflexivity.
Defined.

Lemma processOCR_error_messages_witness :
  (conversion_fails (firstConversion blankEnv [] 1) = true
   /\ lit "No pages could be processed from the PDF"
      = lit "Failed to process PDF: "
        ++ conversion_message (firstConversion blankEnv [] 1))
  \/ (conversion_fails (firstConversion blankEnv [] 1) = false
      /\ (forall j, 1 <= j <= pageCount blankEnv [] ->
                    conversion_fails (secondConversion blankEnv [] j) = true)
      /\ lit "No pages could be processed from the PDF"
         = lit "No pages could be processed from the PDF").
Proof.
  apply (processOCR_error_messages blankEnv []
           (lit "No pages could be processed from the PDF")).
  vm_compute. tauto.
Defined.

End OutcomeWitnesses.

(* ================================================================= *)
(** ** The stream, as the page reads it *)

Section Lines.

Lemma split_nonempty (s : jsstring) : split LF s <> [].
Proof.
  induction s as [|c s IH]; cbn [split]; [discriminate|].
  destruct (N.eqb c LF); [discriminate|].
  destruct (split LF s); discriminate.
Qed.

Lemma split_single_line (a : jsstring) :
  single_line a = true -> split LF a = [a].
Proof.
  induction a as [|c a IH]; cbn [single_line forallb split]; [reflexivity|].
  intros H. apply andb_true_iff in H. destruct H as [Hc Ha].
  apply negb_true_iff in Hc. rewrite Hc, (IH Ha). reflexivity.
Qed.

(** A line, the line feed that ends it, and what follows. *)
Lemma split_line (a rest : jsstring) :
  single_line a = true ->
  split LF (a ++ LF :: rest) = a :: split LF rest.
Proof.
  induction a as [|c a IH]; cbn [single_line forallb split app].
  - intros _. rewrite N.eqb_refl. reflexivity.
  - intros H. apply andb_true_iff in H. destruct H as [Hc Ha].
    apply negb_true_iff in Hc. rewrite Hc, (IH Ha). reflexivity.
Qed.

Lemma split_lines_single (s : jsstring) :
  Forall (fun l => single_line l = true) (split LF s).
Proof.
  induction s as [|c s IH]; cbn [split].
  - repeat constructor.
  - destruct (N.eqb c LF) eqn:Ec.
    + constructor; [reflexivity|exact IH].
    + destruct (split LF s) as [|h t]; [repeat constructor; cbn;
                                        rewrite Ec; reflexivity|].
      inversion IH as [|? ? Hh Ht]; subst. constructor; [|exact Ht].
      cbn [single_line forallb]. rewrite Ec. exact Hh.
Qed.

(** Splitting a text that arrives in two parts: the complete lines of
    the first part, then the lines of its last, unfinished line followed
    by the second part. *)
Lemma split_app (u v : jsstring) :
  split LF (u ++ v)
  = removelast (split LF u) ++ split LF (last (split LF u) [] ++ v).
Proof.
  induction u as [|c u IH]; cbn [app split]; [reflexivity|].
  destruct (N.eqb c LF) eqn:Ec.
  - pose proof (split_nonempty u) as Hne.
    destruct (split LF u) as [|h t] eqn:Eu; [contradiction|].
    rewrite IH. reflexivity.
  - rewrite IH. pose proof (split_nonempty u) as Hne.
    destruct (split LF u) as [|h [|h' t]] eqn:Eu; [contradiction| |].
    + cbn [removelast last app split]. rewrite Ec. reflexivity.
    + reflexivity.
Qed.

Lemma last_app_nonempty {A} (l l' : list A) (d : A) :
  l' <> [] -> last (l ++ l') d = last l' d.
Proof.
  intros H. induction l as [|x l IH]; [reflexivity|].
  cbn [app last]. destruct (l ++ l') eqn:E; [|exact IH].
  apply app_eq_nil in E. tauto.
Qed.

Lemma last_In_nonempty {A} (l : list A) (d : A) : l <> [] -> In (last l d) l.
Proof.
  induction l as [|x [|y l] IH]; intros H; [contradiction|left; reflexivity|].
  right. apply IH. discriminate.
Qed.

(** The loop of the reader is the splitting of the whole text: it hands
    over the complete lines that are data lines, and keeps the last,
    unfinished line. *)
Lemma readStream_spec (chunks : list jsstring) :
  forall buffer,
    single_line buffer = true ->
    Client.readStream buffer chunks
    = (map (skipn 6)
         (filter Client.isDataLine
            (removelast (split LF (buffer ++ concat chunks)))),
       last (split LF (buffer ++ concat chunks)) []).
Proof.
  induction chunks as [|chunk rest IH]; intros buffer Hb;
    cbn [Client.readStream concat].
  - rewrite app_nil_r, (split_single_line buffer Hb). reflexivity.
  - unfold Client.readChunk.
    assert (Hl : single_line (last (split LF (buffer ++ chunk)) []) = true).
    { pose proof (split_lines_single (buffer ++ chunk)) as H.
      rewrite Forall_forall in H. apply H, last_In_nonempty, split_nonempty. }
    rewrite (IH _ Hl), app_assoc, (split_app (buffer ++ chunk) (concat rest)).
    rewrite removelast_app by apply split_nonempty.
    rewrite last_app_nonempty by apply split_nonempty.
    rewrite filter_app, map_app. reflexivity.
Qed.

Lemma startsWith_prefix (p rest : jsstring) : startsWith (p ++ rest) p = true.
Proof.
  induction p as [|c p IH]; cbn [app startsWith]; [reflexivity|].
  rewrite N.eqb_refl. exact IH.
Qed.

Lemma not_blank (p : jsstring) :
  blank p = false ->
  exists pre c suf, p = pre ++ c :: suf /\ is_space c = false.
Proof.
  induction p as [|c p IH]; cbn [blank forallb]; [discriminate|].
  destruct (is_space c) eqn:Ec; cbn [andb].
  - intros H. destruct (IH H) as (pre & d & suf & -> & Hd).
    exists (c :: pre), d, suf. split; [reflexivity|exact Hd].
  - intros _. exists [], c, p. split; [reflexivity|exact Ec].
Qed.

Lemma isDataLine_frame (p : jsstring) :
  blank p = false -> Client.isDataLine (lit "data: " ++ p) = true.
Proof.
  intros H. destruct (not_blank p H) as (pre & c & suf & -> & Hc).
  unfold Client.isDataLine, trim.
  change (lit "data: ") with (100%N :: lit "ata: ").
  cbn [app]. rewrite trimStart_fixed by reflexivity.
  rewrite app_comm_cons, app_assoc.
  destruct (trimEnd_keeps ((100%N :: lit "ata: ") ++ pre) c suf Hc)
    as [suf' ->].
  rewrite <- app_assoc. apply startsWith_prefix.
Qed.

(** The lines of a sequence of frames. *)
Lemma split_frames (payloads : list jsstring) :
  Forall (fun p => single_line p = true) payloads ->
  split LF (concat (map frame payloads))
  = concat (map (fun p => [lit "data: " ++ p; []]) payloads) ++ [[]].
Proof.
  induction 1 as [|p payloads Hp _ IH]; cbn [map concat]; [reflexivity|].
  unfold frame at 1. unfold nl. rewrite <- !app_assoc.
  rewrite (app_assoc (lit "data: ") p). cbn [app].
  rewrite split_line.
  - rewrite (split_line [] (concat (map frame payloads)) eq_refl
             : split LF (LF :: concat (map frame payloads)) = _).
    rewrite IH. reflexivity.
  - unfold single_line. rewrite forallb_app. fold (single_line p).
    rewrite Hp. reflexivity.
Qed.

Lemma frames_parsed (payloads : list jsstring) :
  Forall (fun p => blank p = false) payloads ->
  map (skipn 6)
    (filter Client.isDataLine
       (concat (map (fun p => [lit "data: " ++ p; []]) payloads)))
  = payloads.
Proof.
  induction 1 as [|p payloads Hp _ IH]; cbn [map concat app filter];
    [reflexivity|].
  rewrite (isDataLine_frame p Hp).
  replace (Client.isDataLine []) with false by reflexivity.
  cbn [map]. rewrite IH. reflexivity.
Qed.

(** X22.  The reader of the page and the frames of the route: when the
    text received is a sequence of frames ["data: " payload "\n\n"] whose
    payloads hold no line feed and are not blank, the reader hands exactly
    these payloads to [JSON.parse], in order, however the text is cut
    into chunks, and its buffer is empty at the end. *)
Theorem readStream_delivers_frames (payloads chunks : list jsstring) :
  Forall (fun p => single_line p = true /\ blank p = false) payloads ->
  concat chunks = concat (map frame payloads) ->
  Client.readStream [] chunks = (payloads, []).
Proof.
  intros Hp Hc. rewrite readStream_spec by reflexivity. cbn [app].
  rewrite Hc, split_frames.
  - rewrite removelast_last, last_last, frames_parsed; [reflexivity|].
    eapply Forall_impl; [|exact Hp]. cbn. tauto.
  - eapply Forall_impl; [|exact Hp]. cbn. tauto.
Qed.

Lemma readStream_delivers_frames_witness :
  Client.readStream []
    [lit "da"; lit "ta: {a}" ++ nl; nl ++ lit "data: {b}" ++ nl ++ nl]
  = ([lit "{a}"; lit "{b}"], []).
Proof.
  apply (readStream_delivers_frames [lit "{a}"; lit "{b}"]).
  - repeat constructor.
  - reflexivity.
Defined.

End Lines.

(* ================================================================= *)
(** ** The confidence badge *)

Section Badge.

Import OCRService.
Local Open Scope float_scope.












(** The text shown can be short: white space at the end of the content
    counts for the score and is trimmed from the page. *)
Example green_badge_short_page :
  exists page,
    fst (processImage
           (recognition
              (answeringEnv (lit "Dear Anna." ++ nl ++ nl ++ repeat 32%N 40))
              0)
           [] 1) = Normal page
    /\ str_length (extractedText page) = 10%Z
    /\ Client.getConfidenceColor (confidence page)
       = lit "bg-green-100 text-green-800".
Proof.
  eexists. split; [vm_compute; reflexivity|].
  split; vm_compute; reflexivity.
Qed.

End Badge.

(* ================================================================= *)
(** ** From the route to the page *)

Section Labels.

Lemma single_line_app (a b : jsstring) :
  single_line (a ++ b) = single_line a && single_line b.
Proof. apply forallb_app. Qed.

Lemma single_line_digits (u : Decimal.uint) :
  single_line (lit (NilEmpty.string_of_uint u)) = true.
Proof. induction u as [|u IH|u IH|u IH|u IH|u IH|u IH|u IH|u IH|u IH|u IH];
         [reflexivity|exact IH..]. Qed.

Lemma single_line_uint (u : Decimal.uint) :
  single_line (lit (NilZero.string_of_uint u)) = true.
Proof. destruct u; [reflexivity|apply (single_line_digits (_ _))..]. Qed.

Lemma single_line_Z_toString (z : Z) : single_line (Z_toString z) = true.
Proof.
  unfold Z_toString, NilZero.string_of_int.
  destruct (Z.to_int z) as [u|u].
  - apply single_line_uint.
  - change (lit (String "-" (NilZero.string_of_uint u)))
      with (45%N :: lit (NilZero.string_of_uint u)).
    cbn [single_line forallb]. apply single_line_uint.
Qed.

End Labels.

Section Tidy.

Lemma tidy_notify p s :
  single_line s = true ->
  forallb tidy (snd (notify (Some Route.onProgress) p s)) = true.
Proof.
  intros H. rewrite snd_notify. cbn [forallb tidy]. rewrite H. reflexivity.
Qed.

Lemma ocr_startBatch_tidy env total i k batch :
  forallb tidy
    (fst (OCRService.startBatch env (Some Route.onProgress) total i k batch))
  = true.
Proof.
  revert k; induction batch as [|p rest IH]; intros k;
    cbn [OCRService.startBatch]; [reflexivity|].
  pose proof (tidy_notify (5 + (of_nat i / of_nat total) * 80)%float
                (lit "Processing page " ++ Z_toString (PDF.pageNumber p)
                 ++ lit " of " ++ Z_toString (Z.of_nat total))) as H1.
  destruct (notify (Some Route.onProgress) _ _) as [u e1].
  pose proof (processImage_effects (recognition env (i + k)%nat)
                (toBase64 (PDF.buffer p)) (PDF.pageNumber p)) as H2.
  destruct (OCRService.processImage _ _ _) as [promise e2].
  cbn [snd] in H1, H2. subst e2. specialize (IH (S k)).
  destruct (OCRService.startBatch env (Some Route.onProgress) total i (S k)
              rest) as [effects promises]. cbn [fst] in *.
  rewrite !forallb_app, H1, IH; [reflexivity|].
  rewrite !single_line_app, !single_line_Z_toString. reflexivity.
Qed.

Lemma ocr_batchLoop_tidy env imgs :
  forall fuel i acc,
    forallb tidy
      (snd (OCRService.batchLoop fuel env (Some Route.onProgress) imgs i acc))
    = true.
Proof.
  induction fuel as [|fuel IH]; intros i acc; [reflexivity|].
  cbn [OCRService.batchLoop]. destruct (i <? length imgs)%nat;
    [|reflexivity].
  pose proof (startBatch_promises env (Some Route.onProgress) (length imgs)
                i 0 (slice i (i + OCRService.batchSize) imgs)) as Hp.
  pose proof (ocr_startBatch_tidy env (length imgs) i 0
                (slice i (i + OCRService.batchSize) imgs)) as Hl.
  destruct (OCRService.startBatch env (Some Route.onProgress) (length imgs)
              i 0 _) as [effects promises].
  cbn [fst snd] in Hp, Hl. subst promises.
  rewrite snd_bind. cbn [tell fst snd].
  rewrite snd_bind. cbn [lift fst snd].
  rewrite Promise_all_fulfilled.
  rewrite forallb_app, Hl. cbn [app andb]. apply IH.
Qed.

Lemma processPages_tidy env imgs :
  forallb tidy (snd (OCRService.processPages env imgs (Some Route.onProgress)))
  = true.
Proof.
  unfold OCRService.processPages.
  rewrite snd_bind, fst_notify, forallb_app, tidy_notify by reflexivity.
  rewrite snd_bind, batchLoop_value by (unfold OCRService.batchSize; lia).
  rewrite forallb_app, ocr_batchLoop_tidy.
  rewrite snd_bind, fst_notify, forallb_app, tidy_notify by reflexivity.
  rewrite snd_bind, fst_notify, forallb_app, tidy_notify by reflexivity.
  reflexivity.
Qed.

Import PDFProcessor.

Lemma pdf_startBatch_tidy env pdf js :
  forallb tidy (fst (startBatch env pdf js)) = true.
Proof.
  induction js as [|j rest IH]; cbn [startBatch]; [reflexivity|].
  pose proof (processPage_effects env pdf j) as He.
  destruct (processPage env pdf j) as [promise e1]. cbn [snd] in He.
  subst e1.
  destruct (startBatch env pdf rest) as [effects promises]. cbn [fst] in *.
  rewrite forallb_app, IH. reflexivity.
Qed.

Lemma countPages_tidy env pdf :
  forall fuel i tp, forallb tidy (snd (countPages fuel env pdf i tp)) = true.
Proof.
  induction fuel as [|fuel IH]; intros i tp; cbn [countPages];
    [reflexivity|].
  destruct (i <=? 500); [|reflexivity].
  rewrite snd_bind. cbn [tell fst snd]. rewrite forallb_app.
  destruct (firstConversion env pdf i); [reflexivity|].
  rewrite IH. reflexivity.
Qed.

Lemma pdf_batchLoop_tidy env pdf T :
  forall fuel i acc,
    forallb tidy
      (snd (batchLoop fuel env pdf (Some Route.onProgress) T i acc))
    = true.
Proof.
  induction fuel as [|fuel IH]; intros i acc; cbn [batchLoop];
    [reflexivity|].
  destruct (i <=? T); [|reflexivity].
  pose proof (pdf_startBatch_promises env pdf
                (range i (Z.min (i + batchSize) (T + 1)))) as Hp.
  pose proof (pdf_startBatch_tidy env pdf
                (range i (Z.min (i + batchSize) (T + 1)))) as Hl.
  destruct (startBatch env pdf _) as [effects promises].
  cbn [fst snd] in Hp, Hl. subst promises.
  rewrite snd_bind. cbn [tell fst snd]. rewrite forallb_app, Hl.
  rewrite snd_bind. cbn [lift fst snd].
  rewrite Promise_all_fulfilled. cbn [app andb].
  rewrite snd_bind, fst_notify, !forallb_app, tidy_notify, IH;
    [reflexivity|].
  rewrite !single_line_app, !single_line_Z_toString. reflexivity.
Qed.

Lemma convert_tidy env pdf :
  conversion_fails (firstConversion env pdf 1) = false ->
  forallb tidy (snd (convertPDFToImages env pdf (Some Route.onProgress)))
  = true.
Proof.
  intros Hf. pose proof (pageCount_range env pdf) as HT.
  pose proof (countPages_pageCount env pdf) as Hm1.
  pose proof (countPages_tidy env pdf 499 2 1) as Hm2.
  unfold convertPDFToImages.
  generalize dependent (countPages 499 env pdf 2 1). intros m Hm1 Hm2.
  rewrite snd_catch, forallb_app. apply andb_true_iff. split.
  2:{ match goal with
      | |- forallb tidy (match ?x with Normal _ => _ | Throw _ => _ end) = _ =>
          destruct x
      end; reflexivity. }
  rewrite snd_bind, fst_notify, forallb_app, tidy_notify by reflexivity.
  rewrite snd_bind, fst_notify, forallb_app, tidy_notify by reflexivity.
  rewrite snd_bind. cbn [tell fst snd]. rewrite forallb_app.
  rewrite snd_bind.
  destruct (firstConversion env pdf 1) as [e|[buf|]]; try discriminate.
  cbn [ret fst snd app]. rewrite snd_bind. cbn [ret fst snd app].
  rewrite snd_bind, Hm1, ?app_nil_l, forallb_app, Hm2.
  rewrite snd_bind, fst_notify, forallb_app, tidy_notify
    by (rewrite !single_line_app, single_line_Z_toString; reflexivity).
  rewrite snd_bind, pdf_batchLoop_value by (unfold batchSize; lia).
  rewrite forallb_app, pdf_batchLoop_tidy.
  rewrite snd_bind, fst_notify, forallb_app.
  rewrite tidy_notify by reflexivity. reflexivity.
Qed.

End Tidy.

Section Transport.

Import Route.

Variable stringify : OCRResult -> jsstring.

Lemma payload_not_blank (e : Event) : blank (payload stringify e) = false.
Proof. destruct e; reflexivity. Qed.

Lemma progressPayload_single_line (p : Z) (step : jsstring) :
  single_line step = true -> single_line (progressPayload p step) = true.
Proof.
  intros H. unfold progressPayload.
  rewrite !single_line_app, single_line_Z_toString, H. reflexivity.
Qed.

Lemma errorPayload_single_line (message : jsstring) :
  single_line message = true -> single_line (errorPayload message) = true.
Proof.
  intros H. unfold errorPayload. rewrite !single_line_app, H. reflexivity.
Qed.

Lemma completePayload_single_line (r : OCRResult) :
  single_line (stringify r) = true ->
  single_line (completePayload stringify r) = true.
Proof.
  intros H. unfold completePayload. rewrite !single_line_app, H.
  reflexivity.
Qed.

(** The progress frames of a log whose step labels hold no line feed
    have one-line payloads. *)
Lemma tidy_payloads (log : list Effect) :
  forallb quiet log = true -> forallb tidy log = true ->
  Forall (fun e => single_line (payload stringify e) = true) (events log).
Proof.
  induction log as [|x log IH]; cbn [forallb]; [constructor|].
  intros Hq Ht. apply andb_true_iff in Hq. apply andb_true_iff in Ht.
  destruct Hq as [Hx Hq], Ht as [Tx Ht]. specialize (IH Hq Ht).
  destruct x as [[p s|r|m]| | |]; cbn in Hx; try discriminate;
    try exact IH.
  constructor; [|exact IH]. apply progressPayload_single_line, Tx.
Qed.

(** The reader gets the payloads of a sequence of frames, however it is
    cut into chunks. *)
Lemma frames_delivered (evs : list Event) (chunks : list jsstring) :
  Forall (fun e => single_line (payload stringify e) = true) evs ->
  concat chunks = concat (map (fun e => frame (payload stringify e)) evs) ->
  Client.readStream [] chunks = (map (payload stringify) evs, []).
Proof.
  intros Hs Hc. rewrite <- (map_map (payload stringify) frame) in Hc.
  rewrite readStream_spec by reflexivity.
  rewrite ?app_nil_l, Hc, split_frames.
  - rewrite removelast_last, last_last, frames_parsed; [reflexivity|].
    apply Forall_forall. intros p Hp. apply in_map_iff in Hp.
    destruct Hp as (e & <- & _). apply payload_not_blank.
  - apply Forall_forall. intros p Hp. apply in_map_iff in Hp.
    destruct Hp as (e & <- & He). rewrite Forall_forall in Hs.
    apply Hs, He.
Qed.

Variables (env : Env) (pdf : Buffer).

(** The log of a request whose first conversion of page 1 gives an
    image. *)
Lemma processOCR_fulfilled_log :
  conversion_fails (firstConversion env pdf 1) = false ->
  exists terminal,
    snd (processOCR env pdf)
    = ([Emit (EvProgress 0 (lit "Starting PDF processing"))]
       ++ snd (PDFProcessor.convertPDFToImages env pdf (Some onProgress)))
      ++ terminal
    /\ (terminal
        = [Emit (EvError (lit "No pages could be processed from the PDF"));
           Close]
        \/ exists r,
             terminal
             = snd (OCRService.processPages env (rasterizedPages env pdf)
                      (Some onProgress))
               ++ [Emit (EvComplete r); Close]).
Proof.
  intros Hf.
  pose proof (convert_fulfilled env pdf (Some onProgress) Hf) as Hv.
  generalize dependent (rasterizedPages env pdf). intros images Hv.
  destruct (processPages_value env images (Some onProgress))
    as (r & Hr & _).
  unfold processOCR. rewrite snd_catch.
  rewrite fst_bind. cbn [tell fst cbind]. rewrite fst_bind, Hv.
  cbn [cbind]. rewrite snd_bind. cbn [tell fst snd].
  rewrite snd_bind, Hv.
  destruct images as [|p rest].
  - cbn [length Nat.eqb tell fst snd]. eexists. split.
    + rewrite app_nil_r, <- app_assoc. reflexivity.
    + left. reflexivity.
  - cbn [length Nat.eqb]. rewrite fst_bind, Hr. cbn [cbind tell fst].
    rewrite snd_bind, Hr. cbn [tell snd]. eexists. split.
    + rewrite app_nil_r, <- !app_assoc. reflexivity.
    + right. exists r. reflexivity.
Qed.

(** X24.  What the page receives from a request.  When [JSON.stringify]
    gives texts without line feed, and so does the message of a failed
    first conversion, then however the stream is cut into chunks, the
    reader hands to [JSON.parse] exactly the payloads of the frames the
    route wrote, in order: one per progress frame, then the terminal
    one; nothing is left in its buffer. *)
Theorem stream_delivered (chunks : list jsstring) :
  (forall r, single_line (stringify r) = true) ->
  single_line (conversion_message (firstConversion env pdf 1)) = true ->
  concat chunks = streamText stringify (snd (processOCR env pdf)) ->
  Client.readStream [] chunks
  = (map (payload stringify) (events (snd (processOCR env pdf))), []).
Proof.
  intros Hjson Hmsg Hc. apply frames_delivered; [|exact Hc]. clear Hc.
  destruct (conversion_fails (firstConversion env pdf 1)) eqn:Hf.
  - rewrite (processOCR_rejected_log env pdf Hf). cbn [events flat_map app].
    repeat constructor.
    apply errorPayload_single_line. rewrite single_line_app, Hmsg.
    reflexivity.
  - destruct (processOCR_fulfilled_log Hf) as (terminal & -> & Ht).
    rewrite !events_app. apply Forall_app. split; [apply Forall_app; split|].
    + repeat constructor.
    + apply tidy_payloads; [|apply convert_tidy, Hf].
      apply (convert_fulfilled_log env pdf Hf).
    + destruct Ht as [-> | [r ->]].
      * repeat constructor.
      * rewrite events_app. apply Forall_app. split.
        -- apply tidy_payloads; [|apply processPages_tidy].
           apply processPages_log.
        -- cbn [events flat_map app]. repeat constructor.
           apply completePayload_single_line, Hjson.
Qed.

End Transport.

Lemma stream_delivered_witness :
  Client.readStream []
    [firstn 100
       (streamText (fun _ => lit "{}") (snd (Route.processOCR sampleEnv [])));
     skipn 100
       (streamText (fun _ => lit "{}") (snd (Route.processOCR sampleEnv [])))]
  = (map (payload (fun _ => lit "{}"))
       (events (snd (Route.processOCR sampleEnv []))),
     []).
Proof.
  apply (stream_delivered (fun _ => lit "{}") sampleEnv []).
  - intros r. reflexivity.
  - reflexivity.
  - cbn [concat]. rewrite app_nil_r. apply firstn_skipn.
Defined.
